(** * Smart e-mail cleaner: classification, aggregation, categorisation,
      selection and batch deletion

    A shallow embedding of [gmail/smart_gmail_cleaner.py] and
    [outlook/smart_email_cleaner.py], followed by the properties of the
    design document that are proved (or refuted) on it.

    Conventions of the embedding.
    - A Python [str] is a [string] holding its UTF-8 bytes.  ASCII text is
      modelled exactly; [lower], [strip] and [int] act on the ASCII range
      only (a byte above 127 is left as it is and is neither a blank nor a
      digit).  Substring tests and lexicographic comparison of UTF-8 bytes
      agree with those of the code points.
    - A Python [int] counter is a [nat]; an [int] that may be negative is
      a [Z].
    - [read / total] is the exact quotient in [Q].  Python rounds it to the
      nearest double; for counts below 7 * 10^16 the comparisons with [0],
      [1] and the literal [0.2] give the same answers on both.
    - A Python exception is a value of [exn]; code that may raise lives in
      [result], code that calls the mail provider in the monad [M]. *)

From Stdlib Require Import String Ascii ZArith QArith List Lia Permutation Sorted.
From stdpp Require Import base option list gmap strings pretty.

#[local] Set Warnings "-clear-no-such-hyp".

Local Open Scope string_scope.
Local Open Scope nat_scope.
Local Open Scope list_scope.

(** ** Exceptions *)

(** Instances of Python's [Exception] class that the two scripts can meet. *)
Inductive exn : Type :=
  | ValueError
  | TypeError
  | ZeroDivisionError
  | IndexError
  | ProviderError (code : nat).

Inductive result (A : Type) : Type :=
  | Ok (a : A)
  | Raise (e : exn).
Arguments Ok {A} a.
Arguments Raise {A} e.

#[export] Instance result_ret : MRet result := fun A a => Ok a.
#[export] Instance result_bind : MBind result := fun A B f m =>
  match m with
  | Ok a => f a
  | Raise e => Raise e
  end.

(** [try: body / except: handler] *)
Definition try_except {A} (body : result A) (handler : exn -> result A) : result A :=
  match body with
  | Ok a => Ok a
  | Raise e => handler e
  end.

(** A [try] whose bare [except:] clause cannot raise itself: the statement
    as a whole always completes, with the value [dflt] left in place when
    the body raised. *)
Definition try_or {A} (body : result A) (dflt : A) : A :=
  match body with
  | Ok a => a
  | Raise _ => dflt
  end.

(** ** Python string primitives *)

Module Py.

Definition is_upper (c : ascii) : bool :=
  let n := nat_of_ascii c in (65 <=? n)%nat && (n <=? 90)%nat.

Definition lower_char (c : ascii) : ascii :=
  if is_upper c then ascii_of_nat (nat_of_ascii c + 32) else c.

(** [s.lower()] *)
Fixpoint lower (s : string) : string :=
  match s with
  | EmptyString => EmptyString
  | String c s' => String (lower_char c) (lower s')
  end.

(** The ASCII characters for which [str.isspace] holds. *)
Definition is_space (c : ascii) : bool :=
  let n := nat_of_ascii c in
  ((9 <=? n)%nat && (n <=? 13)%nat) || ((28 <=? n)%nat && (n <=? 32)%nat).

Fixpoint lstrip_by (p : ascii -> bool) (s : string) : string :=
  match s with
  | EmptyString => EmptyString
  | String c s' => if p c then lstrip_by p s' else s
  end.

Fixpoint rstrip_by (p : ascii -> bool) (s : string) : string :=
  match s with
  | EmptyString => EmptyString
  | String c s' =>
      match rstrip_by p s' with
      | EmptyString => if p c then EmptyString else String c EmptyString
      | r => String c r
      end
  end.

Definition strip_by (p : ascii -> bool) (s : string) : string :=
  rstrip_by p (lstrip_by p s).

(** [s.strip()] *)
Definition strip (s : string) : string := strip_by is_space s.

(** [s.strip(c)] for a single character [c] *)
Definition strip_char (c : ascii) (s : string) : string := strip_by (Ascii.eqb c) s.

(** [sub in s] *)
Fixpoint contains (sub s : string) : bool :=
  String.prefix sub s ||
  match s with
  | EmptyString => false
  | String _ s' => contains sub s'
  end.

(** [c in s] for a single character *)
Definition has_char (c : ascii) (s : string) : bool := contains (String c EmptyString) s.

(** [s.replace(old, new)] for a non-empty [old]: the occurrences are found
    from the left and do not overlap.  [skip] counts the characters of an
    occurrence that is being passed over. *)
Fixpoint replace_from (old new : string) (skip : nat) (s : string) : string :=
  match s with
  | EmptyString => EmptyString
  | String c s' =>
      match skip with
      | S k => replace_from old new k s'
      | O =>
          if String.prefix old s
          then new +:+ replace_from old new (String.length old - 1) s'
          else String c (replace_from old new 0 s')
      end
  end.

Definition replace (old new s : string) : string := replace_from old new 0 s.

(** [s.split(sep)] for a single-character separator: always at least one
    field. *)
Fixpoint split (sep : ascii) (s : string) : list string :=
  match s with
  | EmptyString => [EmptyString]
  | String c s' =>
      if Ascii.eqb c sep then EmptyString :: split sep s'
      else match split sep s' with
           | f :: fs => String c f :: fs
           | [] => [String c EmptyString]
           end
  end.

(** [s[:n]] *)
Definition take (n : nat) (s : string) : string := String.substring 0 n s.

(** *** [int(s)] *)

Definition digit_of (c : ascii) : option Z :=
  let n := nat_of_ascii c in
  if (48 <=? n)%nat && (n <=? 57)%nat then Some (Z.of_nat (n - 48)) else None.

(** Digits with single underscores between them, as [int] accepts them.
    [acc] is the value read so far, [sep] tells that the previous character
    was an underscore. *)
Fixpoint digits_from (acc : Z) (sep : bool) (s : string) : option Z :=
  match s with
  | EmptyString => if sep then None else Some acc
  | String c s' =>
      match digit_of c with
      | Some d => digits_from (10 * acc + d) false s'
      | None =>
          if Ascii.eqb c "_" && negb sep then digits_from acc true s' else None
      end
  end.

Definition digits (s : string) : option Z :=
  match s with
  | EmptyString => None
  | String c s' =>
      match digit_of c with
      | Some d => digits_from d false s'
      | None => None
      end
  end.

Definition int (s : string) : result Z :=
  let body := strip s in
  let signed :=
    match body with
    | String "-" r => option_map Z.opp (digits r)
    | String "+" r => digits r
    | _ => digits body
    end in
  match signed with
  | Some z => Ok z
  | None => Raise ValueError
  end.

(** *** Slices *)

(** [l[lo:hi]]: a negative bound counts from the end, and both bounds are
    then clamped to [0 .. len(l)]. *)
Definition clamp_index (len i : Z) : Z :=
  if (i <? 0)%Z then Z.max 0 (len + i) else Z.min i len.

Definition slice {A} (lo hi : Z) (l : list A) : list A :=
  let len := Z.of_nat (length l) in
  let lo' := clamp_index len lo in
  let hi' := clamp_index len hi in
  firstn (Z.to_nat (hi' - lo')) (skipn (Z.to_nat lo') l).

(** [max(a, b)] on counters *)
Definition max (a b : nat) : nat := if (a <? b)%nat then b else a.

(** Truth value of an optional string: [None] and [""] are false. *)
Definition truthy (o : option string) : bool :=
  match o with
  | None => false
  | Some s => negb (String.eqb s "")
  end.

(** [a < b] on quotients *)
Definition lt (a b : Q) : bool := negb (Qle_bool b a).

(** [a / b] on counters *)
Definition truediv (a b : nat) : result Q :=
  if b =? 0 then Raise ZeroDivisionError
  else Ok (Z.of_nat a # Pos.of_nat b).

End Py.

(** ** Dictionaries in insertion order

    [sender_stats] is a [defaultdict]: a key is created, at the end, the
    first time it is looked up, and [items()] lists the entries in the
    order of creation. *)

Module Dict.
Section Dict.
Context {V : Type}.

Definition t := list (string * V).

(** [d[key]] followed by the in-place update [f] of the object found,
    which is the default object [dflt] when the key is new. *)
Fixpoint update (key : string) (dflt : V) (f : V -> V) (d : t) : t :=
  match d with
  | [] => [(key, f dflt)]
  | (k, v) :: d' =>
      if String.eqb k key then (k, f v) :: d'
      else (k, v) :: update key dflt f d'
  end.

Definition keys (d : t) : list string := map fst d.
Definition values (d : t) : list V := map snd d.

(** [d.get(key)]: the object stored under [key], when there is one. *)
Fixpoint get (key : string) (d : t) : option V :=
  match d with
  | [] => None
  | (k, v) :: d' => if String.eqb k key then Some v else get key d'
  end.

(** [sum(g(s) for s in d.values())] *)
Definition sum (g : V -> nat) (d : t) : nat := sum_list (map g (values d)).

End Dict.
Arguments t : clear implicits.
End Dict.


(** ** Dates

    A [datetime] holds its calendar fields as the number [naive] of
    microseconds they spell out, and its [tzinfo] as an optional offset. *)

Record datetime : Type := { naive : Z; tzinfo : option Z }.

(** [d.replace(tzinfo=None)] *)
Definition replace_tzinfo_none (d : datetime) : datetime :=
  {| naive := naive d; tzinfo := None |}.

(** [a < b]: comparing a naive with an aware [datetime] raises. *)
Definition datetime_lt (a b : datetime) : result bool :=
  match tzinfo a, tzinfo b with
  | None, None => Ok (naive a <? naive b)%Z
  | Some oa, Some ob => Ok (naive a - oa <? naive b - ob)%Z
  | _, _ => Raise TypeError
  end.

(** [d - timedelta(days=n)] *)
Definition minus_days (d : datetime) (n : Z) : datetime :=
  {| naive := (naive d - n * 86400 * 1000000)%Z; tzinfo := tzinfo d |}.

(** ** [list.sort(key=..., reverse=True)]

    The sort is stable, also with [reverse=True]: elements with the same
    key stay in their order. *)

Section Sort.
Context {A : Type} (key : A -> nat).

Fixpoint insert_desc (x : A) (l : list A) : list A :=
  match l with
  | [] => [x]
  | y :: l' => if key y <=? key x then x :: l else y :: insert_desc x l'
  end.

Definition sort_desc (l : list A) : list A := foldr insert_desc [] l.
End Sort.

(** [l[i]] *)
Definition getitem {A} (l : list A) (i : Z) : result A :=
  let len := Z.of_nat (length l) in
  let i' := if (i <? 0)%Z then (len + i)%Z else i in
  if (i' <? 0)%Z then Raise IndexError
  else match nth_error l (Z.to_nat i') with
       | Some x => Ok x
       | None => Raise IndexError
       end.

(** [[f(x) for x in l]], where [f] may raise *)
Fixpoint for_each {A B} (f : A -> result B) (l : list A) : result (list B) :=
  match l with
  | [] => mret []
  | x :: l' => y ← f x; ys ← for_each f l'; mret (y :: ys)
  end.

(** The number of elements of [l] on which [f] holds. *)
Fixpoint count_true {A} (f : A -> bool) (l : list A) : nat :=
  match l with
  | [] => 0
  | x :: l' => (if f x then 1 else 0) + count_true f l'
  end.

(** ** Calls to the mail provider

    The provider is a state of type [P] that each request transforms.  A
    computation of [M P A] transforms the provider and a log of what the
    script did, and either returns or raises.  [print] and [time.sleep]
    are entries of the log and do not raise. *)

Module Eff.

Inductive event : Type :=
  | Request (verb url : string)
  | Progress (done count success failed : nat)
  | Sleep (seconds : nat).

Section WithProvider.
Context {P : Type}.

Record world : Type := { remote : P; log : list event }.

Definition M (A : Type) : Type := world -> world * result A.

#[export] Instance M_ret : MRet M := fun A a w => (w, Ok a).
#[export] Instance M_bind : MBind M := fun A B f m w =>
  match m w with
  | (w', Ok a) => f a w'
  | (w', Raise e) => (w', Raise e)
  end.

(** [try: body / except Exception as e: handler] *)
Definition try_catch {A} (body : M A) (handler : exn -> M A) : M A :=
  fun w =>
    match body w with
    | (w', Ok a) => (w', Ok a)
    | (w', Raise e) => handler e w'
    end.

Definition emit (ev : event) : M unit :=
  fun w => ({| remote := remote w; log := log w ++ [ev] |}, Ok tt).

(** One request: it is logged, and the provider answers or raises. *)
Definition call {R} (serve : P -> string -> string -> P * result R)
    (verb url : string) : M R :=
  fun w =>
    let '(p', r) := serve (remote w) verb url in
    ({| remote := p'; log := log w ++ [Request verb url] |}, r).

Definition when (b : bool) (m : M unit) : M unit := if b then m else mret tt.

(** The requests of a log, in order. *)
Definition requests (l : list event) : list (string * string) :=
  omap (fun ev => match ev with Request v u => Some (v, u) | _ => None end) l.

(** The pauses of a log, in order: the seconds of each [time.sleep]. *)
Definition sleeps (l : list event) : list nat :=
  omap (fun ev => match ev with Sleep n => Some n | _ => None end) l.

(** The progress lines of a log, in order. *)
Definition progress (l : list event) : list (nat * nat * nat * nat) :=
  omap (fun ev => match ev with
                  | Progress done count success failed =>
                      Some (done, count, success, failed)
                  | _ => None
                  end) l.

(** What the provider answers to a sequence of requests made one after
    the other from the state [p], whatever the answers are. *)
Fixpoint answers {R} (serve : P -> string -> string -> P * result R)
    (p : P) (reqs : list (string * string)) : list (result R) :=
  match reqs with
  | [] => []
  | (verb, url) :: reqs' =>
      let '(p', r) := serve p verb url in
      r :: answers serve p' reqs'
  end.

End WithProvider.
Arguments world : clear implicits.
Arguments M : clear implicits.
End Eff.

(** ** The selection resolver of the auto-clean operation

    The same loop in both scripts: [E] is the type of a message, [S] of a
    sender's record and [C] of a category. *)

Module Resolver.
Section Resolver.
Context {E S C : Type}.
Variable id : E -> string.
Variable emails : S -> list E.
Variable senders : C -> list (string * S).

(** [if email["id"] not in all_email_ids: all_email_ids.add(...); all_emails.append(email)] *)
Definition visit_email (acc : gset string * list E) (email : E) : gset string * list E :=
  let '(all_email_ids, all_emails) := acc in
  if bool_decide (id email ∉ all_email_ids)
  then ({[id email]} ∪ all_email_ids, all_emails ++ [email])
  else acc.

Definition visit_sender (acc : gset string * list E) (item : string * S) :=
  fold_left visit_email (emails (snd item)) acc.

Definition visit_category (acc : gset string * list E) (cat : C) :=
  fold_left visit_sender (senders cat) acc.

(** The list [all_emails] handed to [delete_emails_batch]. *)
Definition resolve (categories_values : list C) : list E :=
  snd (fold_left visit_category categories_values (∅, [])).

(** The innermost loop alone, run from the empty set over one list. *)
Definition resolve_list (l : list E) : list E :=
  snd (fold_left visit_email l (∅, [])).

(** The messages in the order in which the three loops meet them. *)
Definition encountered (categories_values : list C) : list E :=
  concat (map (fun cat => concat (map (fun item => emails (snd item)) (senders cat)))
              categories_values).

End Resolver.
End Resolver.

(** ** The selection expression of the menu

    The same text in both scripts; [A] is the type of a displayed entry. *)

Module Selection.
Section Selection.
Context {A : Type}.

(** [a, b = map(int, sel.split('-'))]: anything but two integers raises
    [ValueError], from [int] or from the unpacking. *)
Definition parse_range (sel : string) : result (Z * Z) :=
  match Py.split "-" sel with
  | [x; y] => a ← Py.int x; b ← Py.int y; mret (a, b)
  | _ => Raise ValueError
  end.

(** [nums = [int(x.strip()) for x in sel.split(',')]] *)
Definition parse_list (sel : string) : result (list Z) :=
  for_each (fun x => Py.int (Py.strip x)) (Py.split "," sel).

(** [[displayed[n-1] for n in nums if 0 < n <= len(displayed)]] *)
Definition pick (displayed : list A) (nums : list Z) : result (list A) :=
  for_each (fun n => getitem displayed (n - 1))
    (List.filter (fun n => (0 <? n)%Z && (n <=? Z.of_nat (length displayed))%Z) nums).

(** The value of [selected] after the three-way test; [raw] is the line
    that [input] returned. *)
Definition select (raw : string) (displayed : list A) : list A :=
  let sel := Py.lower (Py.strip raw) in
  let selected := [] in
  if String.eqb sel "all" then displayed
  else if Py.has_char "-" sel && negb (Py.has_char "," sel) then
    try_or ('(a, b) ← parse_range sel; mret (Py.slice (a - 1) b displayed)) selected
  else
    try_or (nums ← parse_list sel; pick displayed nums) selected.

End Selection.
End Selection.

(** ** Objects and references

    A dictionary such as a sender's record is an object: a variable holds
    a reference to it, and an assignment to one of its keys is seen through
    every reference.  [heap V] maps the references in use to the objects. *)

Module Store.
Section Store.
Context {V : Type}.

Definition loc := positive.
Definition heap := gmap loc V.

(** [new = obj.copy()]: a new object with the same items. *)
Definition copy (h : heap) (obj : loc) : option (heap * loc) :=
  match h !! obj with
  | Some v => let new := fresh (dom h) in Some (<[new := v]> h, new)
  | None => None
  end.

(** [obj[key] = value], with [set] the change of that item. *)
Definition setitem (h : heap) (obj : loc) (set : V -> V) : heap :=
  alter set obj h.

End Store.
Arguments heap : clear implicits.
End Store.

(** ** Regular expression of [parse_sender] *)

Module Re.

(** The characters of [s] before its first [>], when there is one. *)
Fixpoint until_gt (s : string) : option string :=
  match s with
  | EmptyString => None
  | String c s' =>
      if Ascii.eqb c ">" then Some EmptyString
      else option_map (String c) (until_gt s')
  end.

(** [re.search(r'<([^>]+)>', s)]: group 1 of the leftmost match.  A match
    starts at a [<] that is followed by at least one character other than
    [>] and then by a [>]. *)
Fixpoint search_angle (s : string) : option string :=
  match s with
  | EmptyString => None
  | String c s' =>
      if Ascii.eqb c "<" then
        match until_gt s' with
        | Some (String d g) => Some (String d g)
        | _ => search_angle s'
        end
      else search_angle s'
  end.

End Re.

(** ** Rule tables (the same in both scripts, but for the domains) *)

Definition MARKETING_KEYWORDS : list string :=
  [ "unsubscribe"; "opt-out"; "opt out"; "email preferences"; "manage preferences";
    "view in browser"; "view online"; "click here"; "limited time"; "act now";
    "don't miss"; "exclusive offer"; "special offer"; "discount"; "sale";
    "free shipping"; "order now"; "buy now"; "shop now"; "deal"; "promo";
    "newsletter"; "weekly digest"; "daily digest"; "notification settings";
    "update your preferences"; "manage subscriptions"; "email settings" ].

Definition MARKETING_SENDER_PATTERNS : list string :=
  [ "noreply"; "no-reply"; "newsletter"; "marketing"; "promo"; "offers";
    "deals"; "news@"; "info@"; "hello@"; "support@"; "team@"; "updates@";
    "notifications@"; "alert@"; "mailer"; "campaign"; "bulk"; "mass" ].

(** The domains listed by both scripts. *)
Definition COMMON_MARKETING_DOMAINS : list string :=
  [ "linkedin.com"; "facebookmail.com"; "twitter.com"; "pinterest.com";
    "quora.com"; "medium.com"; "substack.com"; "mailchimp.com";
    "sendgrid.net"; "amazonses.com"; "constantcontact.com";
    "hubspot.com"; "salesforce.com"; "marketo.com"; "pardot.com";
    "groupon.com"; "retailmenot.com"; "slickdeals.net";
    "wish.com"; "aliexpress.com"; "banggood.com"; "shein.com";
    "spotify.com"; "netflix.com"; "hulu.com"; "discord.com";
    "uber.com"; "lyft.com"; "doordash.com"; "grubhub.com";
    "yelp.com"; "tripadvisor.com"; "booking.com"; "expedia.com" ].

(** ** The scoring rules of [is_marketing_email]

    The part of the classifier below the provider hints is the same text in
    both scripts; it is written once, over the already lower-cased sender
    and text. *)

Section Scoring.

Variable KNOWN_MARKETING_DOMAINS : list string.

(** [for keyword in MARKETING_KEYWORDS: if keyword in text: keyword_matches += 1] *)
Definition keyword_matches (text : string) : nat :=
  fold_left (fun n keyword => if Py.contains keyword text then n + 1 else n)
            MARKETING_KEYWORDS 0.

Definition score_rules (sender_email sender_name text : string) : nat * list string :=
  let score := 0 in
  let reasons : list string := [] in
  (* the first sender pattern that matches, then [break] *)
  let '(score, reasons) :=
    match find (fun pattern => Py.contains pattern sender_email
                               || Py.contains pattern sender_name)
               MARKETING_SENDER_PATTERNS with
    | Some pattern => (score + 2, (reasons ++ ["sender pattern: " +:+ pattern]))
    | None => (score, reasons)
    end in
  (* the first known domain that matches, then [break] *)
  let '(score, reasons) :=
    match find (fun domain => Py.contains domain sender_email)
               KNOWN_MARKETING_DOMAINS with
    | Some domain => (score + 3, (reasons ++ ["known marketing domain: " +:+ domain]))
    | None => (score, reasons)
    end in
  let n := keyword_matches text in
  let '(score, reasons) :=
    if 3 <=? n then (score + 4, (reasons ++ [pretty n +:+ " marketing keywords"]))
    else if 1 <=? n then (score + 2, (reasons ++ [pretty n +:+ " marketing keyword(s)"]))
    else (score, reasons) in
  let '(score, reasons) :=
    if Py.contains "unsubscribe" text
    then (score + 3, (reasons ++ ["contains 'unsubscribe'"]))
    else (score, reasons) in
  (score, reasons).

End Scoring.

(** ** The Gmail script *)

Module Gmail.

Definition KNOWN_MARKETING_DOMAINS : list string :=
  COMMON_MARKETING_DOMAINS ++
  [ "youtube.com"; "tiktok.com"; "instagram.com"; "snapchat.com" ].

(** The dictionary that [fetch_emails] builds for a message. *)
Record email : Type := {
  id : string;
  threadId : option string;
  from : string;
  subject : string;
  date : string;
  snippet : string;
  labelIds : list string;
  isRead : bool
}.

(** A header of the payload, [{'name': ..., 'value': ...}]. *)
Record header : Type := { header_name : string; header_value : string }.

(** [get_email_header]: the value of the first header with that name,
    whatever the case of the letters, and [""] when there is none. *)
Fixpoint get_email_header (headers : list header) (name : string) : string :=
  match headers with
  | [] => ""
  | header :: headers' =>
      if String.eqb (Py.lower (header_name header)) (Py.lower name)
      then header_value header
      else get_email_header headers' name
  end.

(** What [fetch_emails] reads of a message: the entry [msg] of the list
    request, and the answer [msg_data] of the get request, with
    [msg_data_headers] for [msg_data.get('payload', {}).get('headers', [])]
    and the defaults of [.get] in place of a missing key. *)
Record msg : Type := { msg_id : string; msg_threadId : option string }.

Record msg_data : Type := {
  msg_data_headers : list header;
  msg_data_snippet : string;
  msg_data_labelIds : list string
}.

(** The dictionary that [fetch_emails] appends for a message. *)
Definition email_of (m : msg) (data : msg_data) : email :=
  let headers := msg_data_headers data in
  {| id := msg_id m;
     threadId := msg_threadId m;
     from := get_email_header headers "From";
     subject := get_email_header headers "Subject";
     date := get_email_header headers "Date";
     snippet := msg_data_snippet data;
     labelIds := msg_data_labelIds data;
     isRead := negb (bool_decide ("UNREAD" ∈ msg_data_labelIds data)) |}.

Definition parse_sender (from_header : string) : string * string :=
  if String.eqb from_header "" then ("unknown", "unknown")
  else
    match Re.search_angle from_header with
    | Some group1 =>
        let email := Py.lower group1 in
        let name :=
          Py.strip_char (ascii_of_nat 34)
            (Py.strip (Py.replace ("<" +:+ group1 +:+ ">") "" from_header)) in
        (email, if String.eqb name "" then email else name)
    | None =>
        if Py.has_char "@" from_header
        then (Py.strip (Py.lower from_header), Py.strip (Py.lower from_header))
        else (from_header, from_header)
    end.

(** The key under which [analyze_emails] files a message. *)
Definition addr_of (e : email) : string := (parse_sender (from e)).1.

(** A header in which [parse_sender] finds neither the pattern in angle
    brackets nor an [@]. *)
Definition unparsable (from_header : string) : Prop :=
  Re.search_angle from_header = None /\ Py.has_char "@" from_header = false.

Definition is_marketing_email (e : email) : bool * nat * list string :=
  let subject := Py.lower (subject e) in
  let snippet := Py.lower (snippet e) in
  let '(sender_email, sender_name) := parse_sender (from e) in
  let sender_name := Py.lower sender_name in
  let labels := labelIds e in
  if bool_decide ("CATEGORY_PROMOTIONS" ∈ labels) then (true, 5, ["Gmail marked as Promotions"])
  else if bool_decide ("CATEGORY_SOCIAL" ∈ labels) then (true, 4, ["Gmail marked as Social"])
  else
    let text := subject +:+ " " +:+ snippet in
    let '(score, reasons) :=
      score_rules KNOWN_MARKETING_DOMAINS sender_email sender_name text in
    (3 <=? score, score, reasons).

(** The per-sender record of [analyze_emails]. *)
Record stats : Type := {
  total : nat;
  unread : nat;
  read : nat;
  marketing_score : nat;
  emails : list email;
  name : string;
  oldest : option string;
  newest : option string;
  read_rate : Q;
  is_promotional : bool
}.

(** The object that the [defaultdict] creates for a new sender. *)
Definition new_stats : stats :=
  {| total := 0; unread := 0; read := 0; marketing_score := 0; emails := [];
     name := ""; oldest := None; newest := None; read_rate := 0;
     is_promotional := false |}.

(** [if not stats["oldest"] or date_str < stats["oldest"]: stats["oldest"] = date_str] *)
Definition track_oldest (date_str : string) (cur : option string) : option string :=
  if negb (Py.truthy cur) then Some date_str
  else match cur with
       | Some o => if String.ltb date_str o then Some date_str else cur
       | None => cur
       end.

Definition track_newest (date_str : string) (cur : option string) : option string :=
  if negb (Py.truthy cur) then Some date_str
  else match cur with
       | Some o => if String.ltb o date_str then Some date_str else cur
       | None => cur
       end.

(** The body of the loop of [analyze_emails], on the sender's record. *)
Definition record_email (e : email) (st : stats) : stats :=
  let '(sender_email, sender_name) := parse_sender (from e) in
  let is_read := isRead e in
  let '(is_marketing, score, _) := is_marketing_email e in
  let date_str := date e in
  {| total := total st + 1;
     name := sender_name;
     emails := emails st ++ [e];
     marketing_score := Py.max (marketing_score st) score;
     is_promotional :=
       if bool_decide ("CATEGORY_PROMOTIONS" ∈ labelIds e) then true
       else is_promotional st;
     read := if is_read then read st + 1 else read st;
     unread := if is_read then unread st else unread st + 1;
     oldest := if negb (String.eqb date_str "") then track_oldest date_str (oldest st)
               else oldest st;
     newest := if negb (String.eqb date_str "") then track_newest date_str (newest st)
               else newest st;
     read_rate := read_rate st |}.

Definition analyze_step (sender_stats : Dict.t stats) (e : email) : Dict.t stats :=
  let '(sender_email, _) := parse_sender (from e) in
  Dict.update sender_email new_stats (record_email e) sender_stats.

Definition set_read_rate (st : stats) (r : Q) : stats :=
  {| total := total st; unread := unread st; read := read st;
     marketing_score := marketing_score st; emails := emails st; name := name st;
     oldest := oldest st; newest := newest st; read_rate := r;
     is_promotional := is_promotional st |}.

(** [if stats["total"] > 0: stats["read_rate"] = stats["read"] / stats["total"]] *)
Definition compute_read_rate (st : stats) : result stats :=
  if 0 <? total st then
    r ← Py.truediv (read st) (total st);
    mret (set_read_rate st r)
  else mret st.

(** The record that the second loop of [analyze_emails] leaves. *)
Definition with_read_rate (st : stats) : stats :=
  if 0 <? total st
  then set_read_rate st (Z.of_nat (read st) # Pos.of_nat (total st))
  else st.

(** What the first loop maintains on every record, and what holds of a
    record once both loops are over. *)
Definition counts_ok (st : stats) : Prop :=
  read st + unread st = total st /\ total st = length (emails st).

Definition analyzed (st : stats) : Prop :=
  counts_ok st
  /\ read_rate st = if 0 <? total st
                    then Z.of_nat (read st) # Pos.of_nat (total st)
                    else 0%Q.

Fixpoint compute_read_rates (items : Dict.t stats) : result (Dict.t stats) :=
  match items with
  | [] => mret []
  | (addr, st) :: rest =>
      st' ← compute_read_rate st;
      rest' ← compute_read_rates rest;
      mret ((addr, st') :: rest')
  end.

Definition analyze_emails (emails : list email) : result (Dict.t stats) :=
  let sender_stats := fold_left analyze_step emails [] in
  compute_read_rates sender_stats.

Record category : Type := {
  title : string;
  description : string;
  senders : list (string * stats);
  email_count : nat
}.

(** [cat["senders"].append((addr, stats)); cat["email_count"] += n] *)
Definition add_sender (cat : category) (addr : string) (st : stats) (n : nat) : category :=
  {| title := title cat; description := description cat;
     senders := senders cat ++ [(addr, st)];
     email_count := email_count cat + n |}.

Definition sort_senders (cat : category) : category :=
  {| title := title cat; description := description cat;
     senders := sort_desc (fun x => total (snd x)) (senders cat);
     email_count := email_count cat |}.

(** What a category receives in the loop: entries whose counts are added
    to [email_count] and whose keys are among [ks], in order. *)
Definition receives (ks : list string) (cat' cat : category) : Prop :=
  exists entries,
    senders cat' = senders cat ++ entries
    /\ email_count cat' = email_count cat + sum_list (map (fun x => total x.2) entries)
    /\ map fst entries `sublist_of` ks.

(** The dictionary [categories], one field per key, in the order of the
    literal. *)
Record categories : Type := {
  promotional : category;
  marketing : category;
  never_opened : category;
  rarely_opened : category;
  old_unread : category;
  bulk_senders : category
}.

(** [categories.items()] and [categories.values()] *)
Definition items (c : categories) : list (string * category) :=
  [ ("promotional", promotional c); ("marketing", marketing c);
    ("never_opened", never_opened c); ("rarely_opened", rarely_opened c);
    ("old_unread", old_unread c); ("bulk_senders", bulk_senders c) ].

Definition values (c : categories) : list category := map snd (items c).

(** The categories whose entries are made of the sender's own record. *)
Definition other_categories (c : categories) : list category :=
  [promotional c; marketing c; bulk_senders c].

Definition empty_categories : categories :=
  {| promotional :=
       {| title := "📢 PROMOTIONS (Gmail category)";
          description := "Emails Gmail identified as promotional";
          senders := []; email_count := 0 |};
     marketing :=
       {| title := "📧 MARKETING & NEWSLETTERS";
          description := "Emails with marketing patterns (unsubscribe links, etc.)";
          senders := []; email_count := 0 |};
     never_opened :=
       {| title := "🚫 NEVER OPENED (5+ emails)";
          description := "Senders with 5+ emails you've never opened";
          senders := []; email_count := 0 |};
     rarely_opened :=
       {| title := "😴 RARELY OPENED (<20% read rate, 3+ emails)";
          description := "Senders you almost never read";
          senders := []; email_count := 0 |};
     old_unread :=
       {| title := "📆 OLD UNREAD (30+ days)";
          description := "Unread emails older than 30 days";
          senders := []; email_count := 0 |};
     bulk_senders :=
       {| title := "📬 BULK SENDERS (20+ emails)";
          description := "Senders flooding your inbox";
          senders := []; email_count := 0 |} |}.

(** [old_stats = stats.copy(); old_stats["emails"] = ...; old_stats["total"] = ...] *)
Definition set_emails (v : list email) (st : stats) : stats :=
  {| total := total st; unread := unread st; read := read st;
     marketing_score := marketing_score st; emails := v;
     name := name st; oldest := oldest st; newest := newest st;
     read_rate := read_rate st; is_promotional := is_promotional st |}.

Definition set_total (v : nat) (st : stats) : stats :=
  {| total := v; unread := unread st; read := read st;
     marketing_score := marketing_score st; emails := emails st;
     name := name st; oldest := oldest st; newest := newest st;
     read_rate := read_rate st; is_promotional := is_promotional st |}.

(** The value of [old_stats] after
    [old_stats = stats.copy(); old_stats["emails"] = old_unread_emails;
     old_stats["total"] = len(old_unread_emails)]. *)
Definition make_old_stats (st : stats) (old_unread_emails : list email) : stats :=
  set_total (length old_unread_emails) (set_emails old_unread_emails st).

(** The same three statements on the heap: [stats_ref] is the reference
    held by [stats], and the result the reference held by [old_stats]. *)
Definition make_old_stats_ref (h : Store.heap stats) (stats_ref : Store.loc)
    (old_unread_emails : list email) : option (Store.heap stats * Store.loc) :=
  '(h, old_stats) ← Store.copy h stats_ref;
  let h := Store.setitem h old_stats (set_emails old_unread_emails) in
  let h := Store.setitem h old_stats (set_total (length old_unread_emails)) in
  Some (h, old_stats).

Definition DATE_FORMATS : list string :=
  [ "%a, %d %b %Y %H:%M:%S %z"; "%d %b %Y %H:%M:%S %z" ].

Section Categorize.

(** [datetime.utcnow()], a naive date, and [datetime.strptime(s, fmt)],
    which raises [ValueError] on a string that does not follow [fmt]. *)
Variable utcnow : Z.
Variable strptime : string -> string -> result datetime.

Definition now : datetime := {| naive := utcnow; tzinfo := None |}.
Definition thirty_days_ago : datetime := minus_days now 30.

(** The loop over the formats: the first format that parses decides
    ([break]); a format that raises gives way to the next ([continue]).
    The value is whether the message is appended. *)
Fixpoint try_formats (fmts : list string) (date_str : string) : result bool :=
  match fmts with
  | [] => mret false
  | fmt :: fmts' =>
      try_except
        (email_date ← strptime (Py.take 31 date_str) fmt;
         datetime_lt (replace_tzinfo_none email_date) thirty_days_ago)
        (fun _ => try_formats fmts' date_str)
  end.

(** Whether the loop over [stats["emails"]] appends [e]. *)
Definition is_old_unread (e : email) : bool :=
  if negb (isRead e) then
    let date_str := date e in
    if negb (String.eqb date_str "") then
      try_or (try_formats DATE_FORMATS date_str) false
    else false
  else false.

Definition old_unread_of (st : stats) : list email :=
  List.filter is_old_unread (emails st).

(** [stats["total"] >= 5 and stats["read"] == 0] *)
Definition is_never_opened (st : stats) : bool :=
  (5 <=? total st) && (read st =? 0).

(** [stats["total"] >= 3 and stats["read_rate"] < 0.2 and stats["read_rate"] > 0] *)
Definition is_rarely_opened (st : stats) : bool :=
  (3 <=? total st) && Py.lt (read_rate st) 0.2 && Py.lt 0 (read_rate st).

(** The entry of the sender in [old_unread], when there is one. *)
Definition old_unread_entry (item : string * stats) : option (string * stats) :=
  let '(addr, st) := item in
  match old_unread_of st with
  | [] => None
  | _ :: _ => Some (addr, make_old_stats st (old_unread_of st))
  end.

(** The body of the loop over [sender_stats.items()]. *)
Definition categorize_sender (c : categories) (item : string * stats) : categories :=
  let '(addr, st) := item in
  let promotional' :=
    if is_promotional st then add_sender (promotional c) addr st (total st)
    else promotional c in
  let marketing' :=
    if is_promotional st then marketing c
    else if 3 <=? marketing_score st then add_sender (marketing c) addr st (total st)
    else marketing c in
  let never_opened' :=
    if is_never_opened st then add_sender (never_opened c) addr st (total st)
    else never_opened c in
  let rarely_opened' :=
    if is_never_opened st then rarely_opened c
    else if is_rarely_opened st
    then add_sender (rarely_opened c) addr st (total st)
    else rarely_opened c in
  let bulk_senders' :=
    if 20 <=? total st then add_sender (bulk_senders c) addr st (total st)
    else bulk_senders c in
  let old_unread_emails := old_unread_of st in
  let old_unread' :=
    match old_unread_emails with
    | [] => old_unread c
    | _ :: _ =>
        let old_stats := make_old_stats st old_unread_emails in
        add_sender (old_unread c) addr old_stats (length old_unread_emails)
    end in
  {| promotional := promotional'; marketing := marketing';
     never_opened := never_opened'; rarely_opened := rarely_opened';
     old_unread := old_unread'; bulk_senders := bulk_senders' |}.

Definition sort_categories (c : categories) : categories :=
  {| promotional := sort_senders (promotional c);
     marketing := sort_senders (marketing c);
     never_opened := sort_senders (never_opened c);
     rarely_opened := sort_senders (rarely_opened c);
     old_unread := sort_senders (old_unread c);
     bulk_senders := sort_senders (bulk_senders c) |}.

Definition categorize_senders (sender_stats : Dict.t stats) : categories :=
  sort_categories (fold_left categorize_sender sender_stats empty_categories).

End Categorize.

(** [display_category]: the entries listed, [category["senders"][:show_limit]] *)
Definition display_category (cat : category) : list (string * stats) :=
  firstn 15 (senders cat).

(** The list [all_emails] of the auto-clean choice of [interactive_menu]. *)
Definition auto_clean_emails (c : categories) : list email :=
  Resolver.resolve id emails senders (values c).

Section Delete.
Import Eff.

(** The Gmail service.  [serve p verb id] is what
    [service.users().messages().trash(...)] or [.delete(...)] followed by
    [.execute()] does in the state [p]: it returns, or raises on an
    answer that is not a success. *)
Context {P : Type}.
Variable serve : P -> string -> string -> P * result unit.

(** The body of the loop of [delete_emails_batch] for the message of
    index [i]. *)
Definition delete_email (count : nat) (to_trash : bool)
    (counts : nat * nat) (i : nat) (e : email) : M P (nat * nat) :=
  let '(success, failed) := counts in
  try_catch
    ((if to_trash then call serve "trash" (id e) else call serve "delete" (id e));;
     let success := success + 1 in
     when ((i + 1) mod 50 =? 0) (emit (Progress (i + 1) count success failed));;
     when ((i + 1) mod 100 =? 0) (emit (Sleep 1));;
     mret (success, failed))
    (fun _ => mret (success, failed + 1)).

Fixpoint delete_from (count : nat) (to_trash : bool)
    (counts : nat * nat) (i : nat) (emails : list email) : M P (nat * nat) :=
  match emails with
  | [] => mret counts
  | e :: rest =>
      counts' ← delete_email count to_trash counts i e;
      delete_from count to_trash counts' (i + 1) rest
  end.

Definition delete_emails_batch (emails : list email) (to_trash : bool) : M P (nat * nat) :=
  delete_from (length emails) to_trash (0, 0) 0 emails.

(** The requests that a batch is expected to make, and the answers that
    count as a success. *)
Definition expected_requests (emails : list email) (to_trash : bool)
    : list (string * string) :=
  map (fun e => (if to_trash then "trash" else "delete", id e)) emails.

Definition succeeded (r : result unit) : bool :=
  match r with Ok _ => true | Raise _ => false end.

End Delete.

Section Menu.
Import Eff.
Context {P : Type}.
Variable serve : P -> string -> string -> P * result unit.

(** The messages of a list of entries, [all_emails.extend(stats["emails"])]
    for each. *)
Definition emails_of (senders_list : list (string * stats)) : list email :=
  concat (map (fun item => emails item.2) senders_list).

(** [cleanup_selected_senders]; [answer] is the line that [input] returns
    when it is called.  [cleanup_category] is the same function applied to
    [category["senders"]]. *)
Definition cleanup_selected_senders (senders_list : list (string * stats))
    (answer : string) : M P nat :=
  let all_emails := emails_of senders_list in
  match all_emails with
  | [] => mret 0
  | _ :: _ =>
      let confirm := Py.lower (Py.strip answer) in
      if negb (String.eqb confirm "yes") then mret 0
      else
        '(success, failed) ← delete_emails_batch serve all_emails true;
        mret success
  end.

Definition cleanup_category (cat : category) (answer : string) : M P nat :=
  cleanup_selected_senders (senders cat) answer.

(** The entries of the main menu: the categories that have senders. *)
Definition menu_items (c : categories) : list (string * category) :=
  List.filter (fun item => match senders item.2 with [] => false | _ => true end)
              (items c).

(** The number announced by the auto-clean choice. *)
Definition total_to_clean (c : categories) : nat :=
  sum_list (map (fun item => email_count item.2) (menu_items c)).

(** The auto-clean choice of [interactive_menu]: the counts of the batch,
    or [None] when the answer is not [yes]. *)
Definition auto_clean (c : categories) (answer : string) : M P (option (nat * nat)) :=
  let confirm := Py.lower (Py.strip answer) in
  if String.eqb confirm "yes" then
    counts ← delete_emails_batch serve (auto_clean_emails c) true;
    mret (Some counts)
  else mret None.

(** The statistics choice: the three numbers printed and the ten largest
    senders. *)
Definition statistics (sender_stats : Dict.t stats)
    : nat * nat * nat * list (string * stats) :=
  (Dict.sum total sender_stats, Dict.sum unread sender_stats, length sender_stats,
   firstn 10 (sort_desc (fun x => total x.2) sender_stats)).

End Menu.

End Gmail.

(** ** The Outlook script *)

Module Outlook.

Definition GRAPH_ENDPOINT : string := "https://graph.microsoft.com/v1.0".

Definition KNOWN_MARKETING_DOMAINS : list string := COMMON_MARKETING_DOMAINS.

(** A message as the Graph API lists it; a field that may be missing, or
    null where the script allows for it, is an [option]. *)
Record email_address : Type := { address : option string; name_ : option string }.
Record recipient : Type := { emailAddress : option email_address }.

Record email : Type := {
  id : string;
  subject : option string;
  from : option recipient;
  receivedDateTime : string;
  isRead : bool;
  bodyPreview : option string
}.

(** [email.get("from", {}).get("emailAddress", {})] *)
Definition sender_of (e : email) : email_address :=
  default {| address := None; name_ := None |}
          (default {| emailAddress := None |} (from e)).(emailAddress).

Definition is_marketing_email (e : email) : bool * nat * list string :=
  let subject := Py.lower (default "" (subject e)) in
  let body_preview := Py.lower (default "" (bodyPreview e)) in
  let sender_email := Py.lower (default "" (address (sender_of e))) in
  let sender_name := Py.lower (default "" (name_ (sender_of e))) in
  let text := subject +:+ " " +:+ body_preview in
  let '(score, reasons) :=
    score_rules KNOWN_MARKETING_DOMAINS sender_email sender_name text in
  (3 <=? score, score, reasons).

Record stats : Type := {
  total : nat;
  unread : nat;
  read : nat;
  marketing_score : nat;
  emails : list email;
  name : string;
  oldest : option string;
  newest : option string;
  read_rate : Q
}.

Definition new_stats : stats :=
  {| total := 0; unread := 0; read := 0; marketing_score := 0; emails := [];
     name := ""; oldest := None; newest := None; read_rate := 0 |}.

Definition track_oldest (received : string) (cur : option string) : option string :=
  if negb (Py.truthy cur) then Some received
  else match cur with
       | Some o => if String.ltb received o then Some received else cur
       | None => cur
       end.

Definition track_newest (received : string) (cur : option string) : option string :=
  if negb (Py.truthy cur) then Some received
  else match cur with
       | Some o => if String.ltb o received then Some received else cur
       | None => cur
       end.

(** [addr = sender.get("address", "unknown").lower()] *)
Definition addr_of (e : email) : string :=
  Py.lower (default "unknown" (address (sender_of e))).

Definition record_email (e : email) (st : stats) : stats :=
  let addr := addr_of e in
  let name := default addr (name_ (sender_of e)) in
  let is_read := isRead e in
  let received := receivedDateTime e in
  let '(is_marketing, score, _) := is_marketing_email e in
  {| total := total st + 1;
     name := name;
     emails := emails st ++ [e];
     marketing_score := Py.max (marketing_score st) score;
     read := if is_read then read st + 1 else read st;
     unread := if is_read then unread st else unread st + 1;
     oldest := if negb (String.eqb received "") then track_oldest received (oldest st)
               else oldest st;
     newest := if negb (String.eqb received "") then track_newest received (newest st)
               else newest st;
     read_rate := read_rate st |}.

Definition analyze_step (sender_stats : Dict.t stats) (e : email) : Dict.t stats :=
  Dict.update (addr_of e) new_stats (record_email e) sender_stats.

Definition set_read_rate (st : stats) (r : Q) : stats :=
  {| total := total st; unread := unread st; read := read st;
     marketing_score := marketing_score st; emails := emails st; name := name st;
     oldest := oldest st; newest := newest st; read_rate := r |}.

Definition compute_read_rate (st : stats) : result stats :=
  if 0 <? total st then
    r ← Py.truediv (read st) (total st);
    mret (set_read_rate st r)
  else mret st.

(** The record that the second loop of [analyze_emails] leaves. *)
Definition with_read_rate (st : stats) : stats :=
  if 0 <? total st
  then set_read_rate st (Z.of_nat (read st) # Pos.of_nat (total st))
  else st.

(** What the first loop maintains on every record, and what holds of a
    record once both loops are over. *)
Definition counts_ok (st : stats) : Prop :=
  read st + unread st = total st /\ total st = length (emails st).

Definition analyzed (st : stats) : Prop :=
  counts_ok st
  /\ read_rate st = if 0 <? total st
                    then Z.of_nat (read st) # Pos.of_nat (total st)
                    else 0%Q.

Fixpoint compute_read_rates (items : Dict.t stats) : result (Dict.t stats) :=
  match items with
  | [] => mret []
  | (addr, st) :: rest =>
      st' ← compute_read_rate st;
      rest' ← compute_read_rates rest;
      mret ((addr, st') :: rest')
  end.

Definition analyze_emails (emails : list email) : result (Dict.t stats) :=
  let sender_stats := fold_left analyze_step emails [] in
  compute_read_rates sender_stats.

Record category : Type := {
  title : string;
  description : string;
  senders : list (string * stats);
  email_count : nat
}.

Definition add_sender (cat : category) (addr : string) (st : stats) (n : nat) : category :=
  {| title := title cat; description := description cat;
     senders := senders cat ++ [(addr, st)];
     email_count := email_count cat + n |}.

Definition sort_senders (cat : category) : category :=
  {| title := title cat; description := description cat;
     senders := sort_desc (fun x => total (snd x)) (senders cat);
     email_count := email_count cat |}.

(** What a category receives in the loop: entries whose counts are added
    to [email_count] and whose keys are among [ks], in order. *)
Definition receives (ks : list string) (cat' cat : category) : Prop :=
  exists entries,
    senders cat' = senders cat ++ entries
    /\ email_count cat' = email_count cat + sum_list (map (fun x => total x.2) entries)
    /\ map fst entries `sublist_of` ks.

Record categories : Type := {
  marketing : category;
  never_opened : category;
  rarely_opened : category;
  old_unread : category;
  bulk_senders : category
}.

Definition items (c : categories) : list (string * category) :=
  [ ("marketing", marketing c);
    ("never_opened", never_opened c); ("rarely_opened", rarely_opened c);
    ("old_unread", old_unread c); ("bulk_senders", bulk_senders c) ].

Definition values (c : categories) : list category := map snd (items c).

Definition other_categories (c : categories) : list category :=
  [marketing c; bulk_senders c].

Definition empty_categories : categories :=
  {| marketing :=
       {| title := "📢 MARKETING & PROMOTIONAL";
          description := "Emails identified as marketing/promotional";
          senders := []; email_count := 0 |};
     never_opened :=
       {| title := "🚫 NEVER OPENED (5+ emails)";
          description := "Senders with 5+ emails you've never opened";
          senders := []; email_count := 0 |};
     rarely_opened :=
       {| title := "😴 RARELY OPENED (<20% read rate, 3+ emails)";
          description := "Senders you almost never read";
          senders := []; email_count := 0 |};
     old_unread :=
       {| title := "📆 OLD UNREAD (30+ days)";
          description := "Unread emails older than 30 days";
          senders := []; email_count := 0 |};
     bulk_senders :=
       {| title := "📬 BULK SENDERS (20+ emails)";
          description := "Senders flooding your inbox";
          senders := []; email_count := 0 |} |}.

Definition set_emails (v : list email) (st : stats) : stats :=
  {| total := total st; unread := unread st; read := read st;
     marketing_score := marketing_score st; emails := v;
     name := name st; oldest := oldest st; newest := newest st;
     read_rate := read_rate st |}.

Definition set_total (v : nat) (st : stats) : stats :=
  {| total := v; unread := unread st; read := read st;
     marketing_score := marketing_score st; emails := emails st;
     name := name st; oldest := oldest st; newest := newest st;
     read_rate := read_rate st |}.

Definition make_old_stats (st : stats) (old_unread_emails : list email) : stats :=
  set_total (length old_unread_emails) (set_emails old_unread_emails st).

Definition make_old_stats_ref (h : Store.heap stats) (stats_ref : Store.loc)
    (old_unread_emails : list email) : option (Store.heap stats * Store.loc) :=
  '(h, old_stats) ← Store.copy h stats_ref;
  let h := Store.setitem h old_stats (set_emails old_unread_emails) in
  let h := Store.setitem h old_stats (set_total (length old_unread_emails)) in
  Some (h, old_stats).

Section Categorize.

(** [datetime.utcnow()] and [datetime.fromisoformat(s)], which raises
    [ValueError] on a string that is not an ISO date. *)
Variable utcnow : Z.
Variable fromisoformat : string -> result datetime.

Definition now : datetime := {| naive := utcnow; tzinfo := None |}.
Definition thirty_days_ago : datetime := minus_days now 30.

(** The body of the [try] of the loop over [stats["emails"]]: whether the
    message is appended. *)
Definition parse_and_compare (received : string) : result bool :=
  received_date ← fromisoformat (Py.replace "Z" "+00:00" received);
  datetime_lt (replace_tzinfo_none received_date) thirty_days_ago.

Definition is_old_unread (e : email) : bool :=
  if negb (isRead e) then
    let received := receivedDateTime e in
    if negb (String.eqb received "") then
      try_or (parse_and_compare received) false
    else false
  else false.

Definition old_unread_of (st : stats) : list email :=
  List.filter is_old_unread (emails st).

Definition is_never_opened (st : stats) : bool :=
  (5 <=? total st) && (read st =? 0).

Definition is_rarely_opened (st : stats) : bool :=
  (3 <=? total st) && Py.lt (read_rate st) 0.2 && Py.lt 0 (read_rate st).

Definition old_unread_entry (item : string * stats) : option (string * stats) :=
  let '(addr, st) := item in
  match old_unread_of st with
  | [] => None
  | _ :: _ => Some (addr, make_old_stats st (old_unread_of st))
  end.

Definition categorize_sender (c : categories) (item : string * stats) : categories :=
  let '(addr, st) := item in
  let marketing' :=
    if 3 <=? marketing_score st then add_sender (marketing c) addr st (total st)
    else marketing c in
  let never_opened' :=
    if is_never_opened st then add_sender (never_opened c) addr st (total st)
    else never_opened c in
  let rarely_opened' :=
    if is_never_opened st then rarely_opened c
    else if is_rarely_opened st
    then add_sender (rarely_opened c) addr st (total st)
    else rarely_opened c in
  let bulk_senders' :=
    if 20 <=? total st then add_sender (bulk_senders c) addr st (total st)
    else bulk_senders c in
  let old_unread_emails := old_unread_of st in
  let old_unread' :=
    match old_unread_emails with
    | [] => old_unread c
    | _ :: _ =>
        let old_stats := make_old_stats st old_unread_emails in
        add_sender (old_unread c) addr old_stats (length old_unread_emails)
    end in
  {| marketing := marketing';
     never_opened := never_opened'; rarely_opened := rarely_opened';
     old_unread := old_unread'; bulk_senders := bulk_senders' |}.

Definition sort_categories (c : categories) : categories :=
  {| marketing := sort_senders (marketing c);
     never_opened := sort_senders (never_opened c);
     rarely_opened := sort_senders (rarely_opened c);
     old_unread := sort_senders (old_unread c);
     bulk_senders := sort_senders (bulk_senders c) |}.

Definition categorize_senders (sender_stats : Dict.t stats) : categories :=
  sort_categories (fold_left categorize_sender sender_stats empty_categories).

End Categorize.

Definition display_category (cat : category) : list (string * stats) :=
  firstn 15 (senders cat).

Definition auto_clean_emails (c : categories) : list email :=
  Resolver.resolve id emails senders (values c).

Section Delete.
Import Eff.

(** The Graph API.  [serve p verb url] is what [requests.post] or
    [requests.delete] does in the state [p]: it returns the status code
    of the answer, or raises (no connection, timeout). *)
Context {P : Type}.
Variable serve : P -> string -> string -> P * result nat.

Definition delete_email (count : nat) (to_trash : bool)
    (counts : nat * nat) (i : nat) (e : email) : M P (nat * nat) :=
  let '(success, failed) := counts in
  let eid := id e in
  try_catch
    (ok ← (if to_trash then
             let url := GRAPH_ENDPOINT +:+ "/me/messages/" +:+ eid +:+ "/move" in
             status_code ← call serve "POST" url;
             mret (status_code =? 201)
           else
             let url := GRAPH_ENDPOINT +:+ "/me/messages/" +:+ eid in
             status_code ← call serve "DELETE" url;
             mret (status_code =? 204));
     let '(success, failed) :=
       if ok : bool then (success + 1, failed) else (success, failed + 1) in
     when ((i + 1) mod 50 =? 0) (emit (Progress (i + 1) count success failed));;
     when ((i + 1) mod 100 =? 0) (emit (Sleep 1));;
     mret (success, failed))
    (fun _ => mret (success, failed + 1)).

Fixpoint delete_from (count : nat) (to_trash : bool)
    (counts : nat * nat) (i : nat) (emails : list email) : M P (nat * nat) :=
  match emails with
  | [] => mret counts
  | e :: rest =>
      counts' ← delete_email count to_trash counts i e;
      delete_from count to_trash counts' (i + 1) rest
  end.

Definition delete_emails_batch (emails : list email) (to_trash : bool) : M P (nat * nat) :=
  delete_from (length emails) to_trash (0, 0) 0 emails.

Definition expected_requests (emails : list email) (to_trash : bool)
    : list (string * string) :=
  map (fun e =>
         if to_trash
         then ("POST", GRAPH_ENDPOINT +:+ "/me/messages/" +:+ id e +:+ "/move")
         else ("DELETE", GRAPH_ENDPOINT +:+ "/me/messages/" +:+ id e)) emails.

Definition succeeded (to_trash : bool) (r : result nat) : bool :=
  match r with
  | Ok status_code => status_code =? (if to_trash then 201 else 204)
  | Raise _ => false
  end.

End Delete.

Section Menu.
Import Eff.
Context {P : Type}.
Variable serve : P -> string -> string -> P * result nat.

(** The messages of a list of entries, [all_emails.extend(stats["emails"])]
    for each. *)
Definition emails_of (senders_list : list (string * stats)) : list email :=
  concat (map (fun item => emails item.2) senders_list).

(** [cleanup_selected_senders]; [answer] is the line that [input] returns
    when it is called.  [cleanup_category] is the same function applied to
    [category["senders"]]. *)
Definition cleanup_selected_senders (senders_list : list (string * stats))
    (answer : string) : M P nat :=
  let all_emails := emails_of senders_list in
  match all_emails with
  | [] => mret 0
  | _ :: _ =>
      let confirm := Py.lower (Py.strip answer) in
      if negb (String.eqb confirm "yes") then mret 0
      else
        '(success, failed) ← delete_emails_batch serve all_emails true;
        mret success
  end.

Definition cleanup_category (cat : category) (answer : string) : M P nat :=
  cleanup_selected_senders (senders cat) answer.

(** The entries of the main menu: the categories that have senders. *)
Definition menu_items (c : categories) : list (string * category) :=
  List.filter (fun item => match senders item.2 with [] => false | _ => true end)
              (items c).

(** The number announced by the auto-clean choice. *)
Definition total_to_clean (c : categories) : nat :=
  sum_list (map (fun item => email_count item.2) (menu_items c)).

(** The auto-clean choice of [interactive_menu]: the counts of the batch,
    or [None] when the answer is not [yes]. *)
Definition auto_clean (c : categories) (answer : string) : M P (option (nat * nat)) :=
  let confirm := Py.lower (Py.strip answer) in
  if String.eqb confirm "yes" then
    counts ← delete_emails_batch serve (auto_clean_emails c) true;
    mret (Some counts)
  else mret None.

(** The statistics choice: the three numbers printed and the ten largest
    senders. *)
Definition statistics (sender_stats : Dict.t stats)
    : nat * nat * nat * list (string * stats) :=
  (Dict.sum total sender_stats, Dict.sum unread sender_stats, length sender_stats,
   firstn 10 (sort_desc (fun x => total x.2) sender_stats)).

End Menu.

End Outlook.

(** * Properties *)

Example lower_ex : Py.lower "Hello Wörld <A@B.C>" = "hello wörld <a@b.c>".
Proof. reflexivity. Qed.

Example strip_ex :
  Py.strip "  a b  " = "a b" /\ Py.strip_char "*" "**Bob* x**" = "Bob* x".
Proof. split; reflexivity. Qed.

(** ** The batch mutation executor *)

Section DeleteFacts.
Import Eff.
Context {P : Type}.

Lemma requests_app (l1 l2 : list event) :
  requests (l1 ++ l2) = requests l1 ++ requests l2.
Proof. unfold requests. apply omap_app. Qed.

Lemma requests_snoc_request (l : list event) verb url :
  requests (l ++ [Request verb url]) = requests l ++ [(verb, url)].
Proof. apply requests_app. Qed.

Lemma requests_snoc_progress (l : list event) a b c d :
  requests (l ++ [Progress a b c d]) = requests l.
Proof. rewrite requests_app. apply app_nil_r. Qed.

Lemma requests_snoc_sleep (l : list event) n :
  requests (l ++ [Sleep n]) = requests l.
Proof. rewrite requests_app. apply app_nil_r. Qed.

(** The two optional log entries that follow a request leave the
    provider and the requests of the log as they are. *)
Lemma progress_and_pause (b1 b2 : bool) ev1 ev2 (w : world P) (x : nat * nat) :
  (forall l, requests (l ++ [ev1]) = requests l) ->
  (forall l, requests (l ++ [ev2]) = requests l) ->
  exists w',
    (when b1 (emit ev1);; when b2 (emit ev2);; mret x) w = (w', Ok x)
    /\ remote w' = remote w
    /\ requests (log w') = requests (log w).
Proof.
  intros H1 H2.
  destruct b1, b2; cbn; eexists; (split; [reflexivity|]); cbn;
    rewrite ?H2, ?H1; auto.
Qed.

Lemma count_true_split {A} (f : A -> bool) (l : list A) :
  count_true f l + count_true (fun x => negb (f x)) l = length l.
Proof. induction l as [|x l IH]; cbn; [|destruct (f x); cbn]; lia. Qed.

Lemma length_answers {R} (serve : P -> string -> string -> P * result R) reqs :
  forall p, length (answers serve p reqs) = length reqs.
Proof.
  induction reqs as [|[verb url] reqs IH]; intros p; cbn; [reflexivity|].
  destruct (serve p verb url). cbn. by rewrite IH.
Qed.

Lemma bind_ok {A B} (m : M P A) (f : A -> M P B) w w' a :
  m w = (w', Ok a) -> (m ≫= f) w = f a w'.
Proof. intros H. unfold mbind, M_bind. rewrite H. reflexivity. Qed.

Lemma bind_raise {A B} (m : M P A) (f : A -> M P B) w w' e :
  m w = (w', Raise e) -> (m ≫= f) w = (w', Raise e).
Proof. intros H. unfold mbind, M_bind. rewrite H. reflexivity. Qed.

Lemma try_catch_ok {A} (m : M P A) h w w' a :
  m w = (w', Ok a) -> try_catch m h w = (w', Ok a).
Proof. intros H. unfold try_catch. rewrite H. reflexivity. Qed.

Lemma try_catch_raise {A} (m : M P A) h w w' e :
  m w = (w', Raise e) -> try_catch m h w = h e w'.
Proof. intros H. unfold try_catch. rewrite H. reflexivity. Qed.

Section Gmail.
Import Gmail.
Variable serve : P -> string -> string -> P * result unit.

(** One turn of the loop: one request, one more success or one more
    failure, and no exception left. *)
Lemma gmail_delete_email count (to_trash : bool) success failed i e (w : world P) p' r :
  let verb := if to_trash then "trash" else "delete" in
  serve (remote w) verb (id e) = (p', r) ->
  exists w',
    delete_email serve count to_trash (success, failed) i e w
      = (w', Ok (if succeeded r then (success + 1, failed)
                 else (success, failed + 1)))
    /\ remote w' = p'
    /\ requests (log w') = requests (log w) ++ [(verb, id e)].
Proof.
  intros verb Hs.
  unfold delete_email, try_catch.
  set (w1 := {| remote := p'; log := log w ++ [Request verb (id e)] |}).
  assert (Hcall : (if to_trash then call serve "trash" (id e)
                   else call serve "delete" (id e)) w = (w1, r)).
  { subst verb w1. destruct to_trash; unfold call; rewrite Hs; reflexivity. }
  destruct r as [[]|err]; cbn [succeeded].
  - destruct (progress_and_pause ((i + 1) mod 50 =? 0) ((i + 1) mod 100 =? 0)
                (Progress (i + 1) count (success + 1) failed) (Sleep 1)
                w1 (success + 1, failed)) as (w' & Hrun & Hrem & Hlog).
    { intros; apply requests_snoc_progress. }
    { intros; apply requests_snoc_sleep. }
    exists w'. split; [|split].
    + unfold mbind at 1, M_bind at 1. rewrite Hcall, Hrun. reflexivity.
    + rewrite Hrem. reflexivity.
    + rewrite Hlog. subst w1. cbn. apply requests_snoc_request.
  - exists w1. split; [|split].
    + unfold mbind at 1, M_bind at 1. rewrite Hcall. reflexivity.
    + reflexivity.
    + subst w1. cbn. apply requests_snoc_request.
Qed.

Lemma gmail_delete_from count to_trash emails :
  forall success failed i (w : world P),
  let ans := answers serve (remote w) (expected_requests emails to_trash) in
  exists w',
    delete_from serve count to_trash (success, failed) i emails w
      = (w', Ok (success + count_true succeeded ans,
                 failed + count_true (fun r => negb (succeeded r)) ans))
    /\ requests (log w') = requests (log w) ++ expected_requests emails to_trash.
Proof.
  induction emails as [|e rest IH]; intros success failed i w;
    cbn [delete_from expected_requests map answers count_true].
  - exists w. rewrite !Nat.add_0_r, app_nil_r. auto.
  - destruct (serve (remote w) (if to_trash then "trash" else "delete") (id e))
      as [p' r] eqn:Hs.
    destruct (gmail_delete_email count to_trash success failed i e w p' r Hs)
      as (w1 & Hstep & Hrem & Hlog).
    unfold mbind at 1, M_bind at 1. rewrite Hstep.
    destruct (succeeded r) eqn:Hr.
    + destruct (IH (success + 1) failed (i + 1) w1) as (w' & Hrun & Hreq).
      rewrite Hrem in Hrun. exists w'. split.
      * rewrite Hrun. unfold expected_requests. cbn [count_true].
        rewrite Hr. cbn [negb]. do 3 f_equal; lia.
      * rewrite Hreq, Hlog, <- app_assoc. reflexivity.
    + destruct (IH success (failed + 1) (i + 1) w1) as (w' & Hrun & Hreq).
      rewrite Hrem in Hrun. exists w'. split.
      * rewrite Hrun. unfold expected_requests. cbn [count_true].
        rewrite Hr. cbn [negb]. do 3 f_equal; lia.
      * rewrite Hreq, Hlog, <- app_assoc. reflexivity.
Qed.
End Gmail.

Section Outlook.
Import Outlook.
Variable serve : P -> string -> string -> P * result nat.

Lemma outlook_delete_email count (to_trash : bool) success failed i e
    (w : world P) p' r :
  let req :=
    if to_trash
    then ("POST", GRAPH_ENDPOINT +:+ "/me/messages/" +:+ id e +:+ "/move")
    else ("DELETE", GRAPH_ENDPOINT +:+ "/me/messages/" +:+ id e) in
  serve (remote w) req.1 req.2 = (p', r) ->
  exists w',
    delete_email serve count to_trash (success, failed) i e w
      = (w', Ok (if succeeded to_trash r then (success + 1, failed)
                 else (success, failed + 1)))
    /\ remote w' = p'
    /\ requests (log w') = requests (log w) ++ [req].
Proof.
  intros req Hs.
  set (w1 := {| remote := p'; log := log w ++ [Request req.1 req.2] |}).
  assert (Hlog1 : requests (log w1) = requests (log w) ++ [req]).
  { subst w1. cbn [log]. rewrite requests_snoc_request. by destruct req. }
  assert (Hcall : call serve req.1 req.2 w = (w1, r)).
  { unfold call. rewrite Hs. reflexivity. }
  assert (Hrem1 : remote w1 = p') by reflexivity.
  clearbody w1. unfold delete_email.
  destruct r as [status_code|err]; cbn [succeeded].
  - set (ok := status_code =? (if to_trash then 201 else 204)).
    destruct (progress_and_pause ((i + 1) mod 50 =? 0) ((i + 1) mod 100 =? 0)
                (Progress (i + 1) count
                   (if ok then success + 1 else success)
                   (if ok then failed else failed + 1)) (Sleep 1)
                w1 (if ok then (success + 1, failed) else (success, failed + 1)))
      as (w' & Hrun & Hrem & Hlog).
    { intros; apply requests_snoc_progress. }
    { intros; apply requests_snoc_sleep. }
    exists w'. split; [|split].
    + subst req ok.
      destruct to_trash; cbn [fst snd] in Hcall; apply try_catch_ok;
        (eapply eq_trans;
         [eapply bind_ok; eapply eq_trans;
          [eapply bind_ok; exact Hcall | reflexivity] |]);
        destruct (status_code =? _); exact Hrun.
    + rewrite Hrem. exact Hrem1.
    + rewrite Hlog. exact Hlog1.
  - exists w1. split; [|split]; [|exact Hrem1|exact Hlog1].
    eapply eq_trans; [eapply try_catch_raise|reflexivity].
    apply bind_raise.
    subst req. destruct to_trash; cbn [fst snd] in Hcall;
      apply bind_raise; exact Hcall.
Qed.

Lemma outlook_delete_from count to_trash emails :
  forall success failed i (w : world P),
  let ans := answers serve (remote w) (expected_requests emails to_trash) in
  exists w',
    delete_from serve count to_trash (success, failed) i emails w
      = (w', Ok (success + count_true (succeeded to_trash) ans,
                 failed + count_true (fun r => negb (succeeded to_trash r)) ans))
    /\ requests (log w') = requests (log w) ++ expected_requests emails to_trash.
Proof.
  induction emails as [|e rest IH]; intros success failed i w;
    cbn [delete_from expected_requests map answers count_true].
  - exists w. rewrite !Nat.add_0_r, app_nil_r. auto.
  - set (req := if to_trash
                then ("POST", GRAPH_ENDPOINT +:+ "/me/messages/" +:+ id e +:+ "/move")
                else ("DELETE", GRAPH_ENDPOINT +:+ "/me/messages/" +:+ id e)).
    destruct req as [verb url] eqn:Hreq0.
    destruct (serve (remote w) verb url) as [p' r] eqn:Hs.
    pose proof (outlook_delete_email count to_trash success failed i e w p' r) as Hone.
    cbn zeta in Hone. fold req in Hone. rewrite Hreq0 in Hone.
    destruct (Hone Hs) as (w1 & Hstep & Hrem & Hlog).
    unfold mbind at 1, M_bind at 1. rewrite Hstep.
    destruct (succeeded to_trash r) eqn:Hr.
    + destruct (IH (success + 1) failed (i + 1) w1) as (w' & Hrun & Hreq).
      rewrite Hrem in Hrun. exists w'. split.
      * rewrite Hrun. unfold expected_requests. cbn [count_true].
        rewrite Hr. cbn [negb]. do 3 f_equal; lia.
      * rewrite Hreq, Hlog, <- app_assoc. reflexivity.
    + destruct (IH success (failed + 1) (i + 1) w1) as (w' & Hrun & Hreq).
      rewrite Hrem in Hrun. exists w'. split.
      * rewrite Hrun. unfold expected_requests. cbn [count_true].
        rewrite Hr. cbn [negb]. do 3 f_equal; lia.
      * rewrite Hreq, Hlog, <- app_assoc. reflexivity.
Qed.
End Outlook.

End DeleteFacts.

(** A provider that plays a script of answers, one per request. *)
Example gmail_batch_with_failures :
  let serve (script : list (result unit)) (_ _ : string) :=
    match script with
    | [] => ([], Ok tt)
    | r :: script' => (script', r)
    end in
  let e i := {| Gmail.id := i; Gmail.threadId := None; Gmail.from := "";
                Gmail.subject := ""; Gmail.date := ""; Gmail.snippet := "";
                Gmail.labelIds := []; Gmail.isRead := false |} in
  Gmail.delete_emails_batch serve [e "a"; e "b"; e "c"; e "d"] true
    {| Eff.remote := [Ok tt; Raise (ProviderError 404); Raise (ProviderError 500); Ok tt];
       Eff.log := [] |}
  = ({| Eff.remote := [];
        Eff.log := [Eff.Request "trash" "a"; Eff.Request "trash" "b";
                    Eff.Request "trash" "c"; Eff.Request "trash" "d"] |},
     Ok (2, 2)).
Proof. reflexivity. Qed.

Example outlook_batch_with_failures :
  let serve (script : list (result nat)) (_ _ : string) :=
    match script with
    | [] => ([], Ok 201)
    | r :: script' => (script', r)
    end in
  let e i := {| Outlook.id := i; Outlook.subject := None; Outlook.from := None;
                Outlook.receivedDateTime := ""; Outlook.isRead := false;
                Outlook.bodyPreview := None |} in
  snd (Outlook.delete_emails_batch serve [e "a"; e "b"; e "c"] true
         {| Eff.remote := [Ok 404; Raise (ProviderError 0); Ok 201]; Eff.log := [] |})
  = Ok (1, 2).
Proof. reflexivity. Qed.

(** C1.  Whatever the provider answers to each request (success, an answer
    that is not a success, or an exception), [delete_emails_batch] returns
    a pair of counts and raises nothing; the two counts add up to the number
    of messages; the failures are exactly the answers that are not a
    success, an exception counting for one; and one request per message was
    made, in the order of the input, also after a failure. *)
Theorem delete_emails_batch_counts_every_message :
  (forall (P : Type) (serve : P -> string -> string -> P * result unit)
          (emails : list Gmail.email) (to_trash : bool) (w : Eff.world P),
     let ans := Eff.answers serve (Eff.remote w)
                  (Gmail.expected_requests emails to_trash) in
     let success := count_true Gmail.succeeded ans in
     let failed := count_true (fun r => negb (Gmail.succeeded r)) ans in
     exists w',
       Gmail.delete_emails_batch serve emails to_trash w = (w', Ok (success, failed))
       /\ success + failed = length emails
       /\ Eff.requests (Eff.log w')
          = Eff.requests (Eff.log w) ++ Gmail.expected_requests emails to_trash)
  /\
  (forall (P : Type) (serve : P -> string -> string -> P * result nat)
          (emails : list Outlook.email) (to_trash : bool) (w : Eff.world P),
     let ans := Eff.answers serve (Eff.remote w)
                  (Outlook.expected_requests emails to_trash) in
     let success := count_true (Outlook.succeeded to_trash) ans in
     let failed := count_true (fun r => negb (Outlook.succeeded to_trash r)) ans in
     exists w',
       Outlook.delete_emails_batch serve emails to_trash w = (w', Ok (success, failed))
       /\ success + failed = length emails
       /\ Eff.requests (Eff.log w')
          = Eff.requests (Eff.log w) ++ Outlook.expected_requests emails to_trash).
Proof.
  split; intros P serve emails to_trash w ans success failed.
  - destruct (gmail_delete_from serve (length emails) to_trash emails 0 0 0 w)
      as (w' & Hrun & Hlog).
    exists w'. repeat split; [exact Hrun| |exact Hlog].
    subst success failed. rewrite count_true_split. subst ans.
    rewrite length_answers. unfold Gmail.expected_requests. apply length_map.
  - destruct (outlook_delete_from serve (length emails) to_trash emails 0 0 0 w)
      as (w' & Hrun & Hlog).
    exists w'. repeat split; [exact Hrun| |exact Hlog].
    subst success failed. rewrite count_true_split. subst ans.
    rewrite length_answers. unfold Outlook.expected_requests. apply length_map.
Qed.

(** ** The sender normaliser *)

Example parse_sender_examples :
  Gmail.parse_sender "Bob Smith <Bob@X.com>" = ("bob@x.com", "Bob Smith")
  /\ Gmail.parse_sender "<Bob@X.com>" = ("bob@x.com", "bob@x.com")
  /\ Gmail.parse_sender " News@Shop.COM " = ("news@shop.com", "news@shop.com")
  /\ Gmail.parse_sender "" = ("unknown", "unknown").
Proof. repeat split; reflexivity. Qed.

(** C2, as stated, fails: the header [John Doe] has no part in angle
    brackets and no [@], and comes back as it is instead of as [unknown]. *)
Lemma parse_sender_unparsable_is_not_unknown :
  ~ (forall from_header, Gmail.unparsable from_header ->
       Gmail.parse_sender from_header = ("unknown", "unknown")).
Proof.
  intros H. specialize (H "John Doe").
  assert (Hu : Gmail.unparsable "John Doe") by (split; reflexivity).
  apply H in Hu. vm_compute in Hu. discriminate Hu.
Qed.

(** C2, amended.  [parse_sender] is a total function: no header makes it
    raise.  On a header with no part in angle brackets and no [@] it returns
    [unknown] twice when the header is empty, and the header itself, as it
    is, twice otherwise. *)
Theorem parse_sender_unparsable (from_header : string) :
  Gmail.unparsable from_header ->
  Gmail.parse_sender from_header =
    if String.eqb from_header "" then ("unknown", "unknown")
    else (from_header, from_header).
Proof.
  intros [Hre Hat]. unfold Gmail.parse_sender.
  destruct (String.eqb from_header ""); [reflexivity|].
  rewrite Hre, Hat. reflexivity.
Qed.

Lemma parse_sender_unparsable_witness :
  Gmail.unparsable "John Doe"
  /\ Gmail.parse_sender "John Doe" = ("John Doe", "John Doe").
Proof.
  split.
  - split; reflexivity.
  - apply (parse_sender_unparsable "John Doe"). split; reflexivity.
Defined.

(** ** The selection resolver *)

Section ResolverFacts.
Context {E : Type} (id : E -> string).

(** After the loop the set holds the ids met, old and new. *)
Lemma visit_emails_seen (l : list E) : forall seen acc,
  fst (fold_left (Resolver.visit_email id) l (seen, acc))
  = seen ∪ list_to_set (map id l).
Proof.
  induction l as [|e l IH]; intros seen acc; cbn [fold_left map list_to_set].
  - cbn. set_solver.
  - unfold Resolver.visit_email at 2. case_bool_decide as Hin.
    + rewrite IH. set_solver.
    + rewrite IH. set_solver.
Qed.

Lemma resolve_list_snoc (l : list E) (e : E) :
  Resolver.resolve_list id (l ++ [e]) =
  Resolver.resolve_list id l ++ (if bool_decide (id e ∈ map id l) then [] else [e]).
Proof.
  unfold Resolver.resolve_list. rewrite fold_left_app. cbn [fold_left].
  pose proof (visit_emails_seen l ∅ []) as Hseen.
  destruct (fold_left (Resolver.visit_email id) l (∅, [])) as [seen acc].
  cbn [fst snd] in *. unfold Resolver.visit_email. subst seen.
  repeat case_bool_decide; cbn [snd]; try by rewrite ?app_nil_r.
  - exfalso. set_solver.
  - exfalso. set_solver.
Qed.

Lemma resolve_list_sublist (l : list E) : Resolver.resolve_list id l `sublist_of` l.
Proof.
  induction l as [|e l IH] using rev_ind; [constructor|].
  rewrite resolve_list_snoc. apply sublist_app; [exact IH|].
  case_bool_decide; [apply sublist_nil_l|reflexivity].
Qed.

Lemma resolve_list_ids (l : list E) (i : string) :
  i ∈ map id (Resolver.resolve_list id l) <-> i ∈ map id l.
Proof.
  induction l as [|e l IH] using rev_ind; [reflexivity|].
  rewrite resolve_list_snoc, !map_app, !elem_of_app, IH.
  case_bool_decide as Hin; cbn [map]; [|reflexivity].
  rewrite elem_of_nil, !list_elem_of_singleton. split; [tauto|].
  intros [?| ->]; auto.
Qed.

Lemma resolve_list_NoDup (l : list E) : NoDup (map id (Resolver.resolve_list id l)).
Proof.
  induction l as [|e l IH] using rev_ind; [constructor|].
  rewrite resolve_list_snoc, map_app. apply NoDup_app. split; [exact IH|].
  case_bool_decide as Hin; cbn [map].
  - split; [intros ? ? []%elem_of_nil | constructor].
  - split; [|apply NoDup_singleton].
    intros i Hi ->%list_elem_of_singleton. apply Hin, resolve_list_ids, Hi.
Qed.

Lemma resolve_list_id_on_NoDup (l : list E) :
  NoDup (map id l) -> Resolver.resolve_list id l = l.
Proof.
  induction l as [|e l IH] using rev_ind; [reflexivity|].
  rewrite map_app. intros (Hl & Hdisj & _)%NoDup_app.
  rewrite resolve_list_snoc, (IH Hl). case_bool_decide as Hin; [|reflexivity].
  exfalso. apply (Hdisj _ Hin). cbn. left.
Qed.

(** What was kept from a list stays in front when the list goes on. *)
Lemma resolve_list_app (l l' : list E) :
  exists r, Resolver.resolve_list id (l ++ l') = Resolver.resolve_list id l ++ r.
Proof.
  induction l' as [|e l' [r IH]] using rev_ind.
  - exists []. by rewrite !app_nil_r.
  - rewrite app_assoc, resolve_list_snoc, IH, <- app_assoc. eauto.
Qed.

(** The three nested loops are the innermost loop run over the messages
    in the order in which they are met. *)
Lemma resolve_encountered {S C : Type} (emails : S -> list E)
    (senders : C -> list (string * S)) (cats : list C) :
  Resolver.resolve id emails senders cats =
  Resolver.resolve_list id (Resolver.encountered emails senders cats).
Proof.
  unfold Resolver.resolve, Resolver.resolve_list, Resolver.encountered.
  generalize (∅ : gset string, [] : list E).
  induction cats as [|cat cats IH]; intros acc; [reflexivity|].
  cbn [fold_left map concat]. rewrite fold_left_app, IH. do 2 f_equal.
  unfold Resolver.visit_category. clear IH.
  revert acc. induction (senders cat) as [|item items IH]; intros acc; [reflexivity|].
  cbn [fold_left map concat]. rewrite fold_left_app, IH. reflexivity.
Qed.

End ResolverFacts.

Example auto_clean_across_categories :
  let e i := {| Gmail.id := i; Gmail.threadId := None; Gmail.from := "";
                Gmail.subject := ""; Gmail.date := ""; Gmail.snippet := "";
                Gmail.labelIds := []; Gmail.isRead := false |} in
  let st l := Gmail.make_old_stats Gmail.new_stats l in
  let cat l := {| Gmail.title := ""; Gmail.description := "";
                  Gmail.senders := l; Gmail.email_count := 0 |} in
  Resolver.resolve Gmail.id Gmail.emails Gmail.senders
    [cat [("a", st [e "1"; e "2"])]; cat [("b", st [e "3"]); ("a", st [e "2"; e "1"; e "4"])]]
  = [e "1"; e "2"; e "3"; e "4"].
Proof. vm_compute. reflexivity. Qed.

(** C3.  The loop of the auto-clean choice is the same text in both scripts
    ([Gmail.auto_clean_emails] and [Outlook.auto_clean_emails] are
    [Resolver.resolve] by definition).  For every list of categories, with
    [met] the messages in category-then-member-then-message order:
    the result is a sub-sequence of [met] with the same ids and no id
    twice; a message whose id was not met before sits right after what was
    kept of the messages before it, and a message whose id was met before
    adds nothing; and when [met] has no id twice the result is [met]. *)
Theorem resolve_keeps_first_encounters
    {E S C : Type} (id : E -> string) (emails : S -> list E)
    (senders : C -> list (string * S)) (cats : list C) :
  let met := Resolver.encountered emails senders cats in
  let all_emails := Resolver.resolve id emails senders cats in
  NoDup (map id all_emails)
  /\ all_emails `sublist_of` met
  /\ (forall i, i ∈ map id all_emails <-> i ∈ map id met)
  /\ (forall before e after, met = before ++ e :: after ->
        id e ∉ map id before ->
        exists rest, all_emails = Resolver.resolve_list id before ++ e :: rest)
  /\ (forall before e, id e ∈ map id before ->
        Resolver.resolve_list id (before ++ [e]) = Resolver.resolve_list id before)
  /\ (NoDup (map id met) -> all_emails = met).
Proof.
  intros met all_emails. subst all_emails. rewrite resolve_encountered. fold met.
  split; [apply resolve_list_NoDup|].
  split; [apply resolve_list_sublist|].
  split; [apply resolve_list_ids|].
  split; [|split; [|apply resolve_list_id_on_NoDup]].
  - intros before e after -> Hnew.
    replace (before ++ e :: after) with ((before ++ [e]) ++ after)
      by (by rewrite <- app_assoc).
    destruct (resolve_list_app id (before ++ [e]) after) as [r ->].
    rewrite resolve_list_snoc. case_bool_decide; [done|].
    exists r. by rewrite <- app_assoc.
  - intros before e Hold. rewrite resolve_list_snoc.
    case_bool_decide; [apply app_nil_r|done].
Qed.

Lemma resolve_keeps_first_encounters_witness :
  let e i := {| Outlook.id := i; Outlook.subject := None; Outlook.from := None;
                Outlook.receivedDateTime := ""; Outlook.isRead := false;
                Outlook.bodyPreview := None |} in
  let st l := Outlook.make_old_stats Outlook.new_stats l in
  let cat l := {| Outlook.title := ""; Outlook.description := "";
                  Outlook.senders := l; Outlook.email_count := 0 |} in
  let cats := [cat [("a", st [e "1"; e "2"])]; cat [("b", st [e "3"])]] in
  NoDup (map Outlook.id (Resolver.encountered Outlook.emails Outlook.senders cats))
  /\ Resolver.resolve Outlook.id Outlook.emails Outlook.senders cats
     = [e "1"; e "2"; e "3"].
Proof.
  intros e st cat cats.
  assert (Hnd : NoDup (map Outlook.id
                         (Resolver.encountered Outlook.emails Outlook.senders cats))).
  { cbn. repeat constructor; set_solver. }
  split; [exact Hnd|].
  exact (proj2 (proj2 (proj2 (proj2 (proj2
           (resolve_keeps_first_encounters Outlook.id Outlook.emails
              Outlook.senders cats))))) Hnd).
Defined.

(** ** Dictionaries *)

Section DictFacts.
Context {V : Type}.

Lemma dict_update_Forall (Q : V -> Prop) key dflt (f : V -> V) (d : Dict.t V) :
  Forall (fun kv => Q kv.2) d ->
  (forall v, Q v -> Q (f v)) -> Q dflt ->
  Forall (fun kv => Q kv.2) (Dict.update key dflt f d).
Proof.
  intros Hd Hf Hdflt. induction Hd as [|[k v] d Hv Hd IH]; cbn in *.
  - constructor; [apply Hf, Hdflt|constructor].
  - destruct (String.eqb k key); constructor; cbn; auto.
Qed.

(** An update that adds [k] to the measure [g] of a record adds [k] to
    the sum of [g], also when it creates the record. *)
Lemma dict_update_sum (g : V -> nat) (k : nat) key dflt (f : V -> V) (d : Dict.t V) :
  g dflt = 0 -> (forall v, g (f v) = g v + k) ->
  Dict.sum g (Dict.update key dflt f d) = Dict.sum g d + k.
Proof.
  intros Hdflt Hf. unfold Dict.sum, Dict.values.
  induction d as [|[k0 v] d IH]; cbn.
  - rewrite Hf, Hdflt. lia.
  - destruct (String.eqb k0 key); cbn; [rewrite Hf|rewrite IH]; lia.
Qed.

Lemma dict_sum_map (g : V -> nat) (h : V -> V) (d : Dict.t V) :
  (forall v, g (h v) = g v) ->
  Dict.sum g (map (fun kv => (kv.1, h kv.2)) d) = Dict.sum g d.
Proof.
  intros Hg. unfold Dict.sum, Dict.values.
  induction d as [|[k v] d IH]; cbn; [reflexivity|]. rewrite Hg, IH. reflexivity.
Qed.

Lemma dict_sum_add (g1 g2 g3 : V -> nat) (d : Dict.t V) :
  Forall (fun kv => g1 kv.2 + g2 kv.2 = g3 kv.2) d ->
  Dict.sum g1 d + Dict.sum g2 d = Dict.sum g3 d.
Proof.
  unfold Dict.sum, Dict.values.
  induction 1 as [|[k v] d Hv Hd IH]; cbn in *; [reflexivity|]. lia.
Qed.

End DictFacts.

(** ** The sender aggregator (Gmail) *)

Section GmailAnalysis.
Import Gmail.

Lemma gmail_new_stats_ok : counts_ok new_stats.
Proof. split; reflexivity. Qed.

Lemma gmail_record_email_counts (e : email) (st : stats) :
  total (record_email e st) = total st + 1
  /\ read (record_email e st) + unread (record_email e st)
     = read st + unread st + 1
  /\ emails (record_email e st) = emails st ++ [e]
  /\ read_rate (record_email e st) = read_rate st.
Proof.
  unfold record_email.
  destruct (parse_sender (from e)) as [sender_email sender_name].
  destruct (is_marketing_email e) as [[is_marketing score] reasons].
  cbn. destruct (isRead e); repeat split; lia.
Qed.

Lemma gmail_record_email_ok (e : email) (st : stats) :
  counts_ok st -> counts_ok (record_email e st).
Proof.
  intros [Hsum Hlen].
  destruct (gmail_record_email_counts e st) as (Ht & Hru & He & _).
  split; [lia|]. rewrite Ht, He, length_app. cbn. lia.
Qed.

Lemma gmail_fold_ok (emails : list email) : forall d,
  Forall (fun kv => counts_ok kv.2) d ->
  Forall (fun kv => counts_ok kv.2) (fold_left analyze_step emails d).
Proof.
  induction emails as [|e emails IH]; intros d Hd; [exact Hd|].
  cbn [fold_left]. apply IH. unfold analyze_step.
  destruct (parse_sender (from e)) as [sender_email sender_name].
  apply dict_update_Forall; auto using gmail_record_email_ok, gmail_new_stats_ok.
Qed.

Lemma gmail_fold_rate (emails : list email) : forall d,
  Forall (fun kv => read_rate kv.2 = 0%Q) d ->
  Forall (fun kv => read_rate kv.2 = 0%Q) (fold_left analyze_step emails d).
Proof.
  induction emails as [|e emails IH]; intros d Hd; [exact Hd|].
  cbn [fold_left]. apply IH. unfold analyze_step.
  destruct (parse_sender (from e)) as [sender_email sender_name].
  apply (dict_update_Forall (fun st => read_rate st = 0%Q)); auto.
  intros st <-. apply gmail_record_email_counts.
Qed.

Lemma gmail_fold_total (emails : list email) : forall d,
  Dict.sum total (fold_left analyze_step emails d)
  = Dict.sum total d + length emails.
Proof.
  induction emails as [|e emails IH]; intros d; cbn [fold_left length]; [lia|].
  rewrite IH. unfold analyze_step.
  destruct (parse_sender (from e)) as [sender_email sender_name].
  rewrite (dict_update_sum total 1); [lia|reflexivity|].
  intros st. apply gmail_record_email_counts.
Qed.

(** The second loop never divides by zero: it returns, and each record
    comes back with its rate set when it has messages and untouched when
    it has none. *)
Lemma gmail_compute_read_rate_ok (st : stats) :
  compute_read_rate st = Ok (with_read_rate st).
Proof.
  unfold compute_read_rate, with_read_rate, Py.truediv.
  destruct (0 <? total st) eqn:Hpos; [|reflexivity].
  apply Nat.ltb_lt in Hpos.
  destruct (total st =? 0) eqn:Hz; [apply Nat.eqb_eq in Hz; lia|reflexivity].
Qed.

Lemma gmail_compute_read_rates_ok (items : Dict.t stats) :
  compute_read_rates items = Ok (map (fun kv => (kv.1, with_read_rate kv.2)) items).
Proof.
  induction items as [|[addr st] items IH]; [reflexivity|].
  cbn [compute_read_rates map]. rewrite gmail_compute_read_rate_ok, IH. reflexivity.
Qed.

Lemma gmail_with_read_rate_fields (st : stats) :
  total (with_read_rate st) = total st
  /\ read (with_read_rate st) = read st
  /\ unread (with_read_rate st) = unread st
  /\ emails (with_read_rate st) = emails st.
Proof. unfold with_read_rate. destruct (0 <? total st); repeat split. Qed.

Lemma gmail_analyze_emails_ok (emails : list email) :
  analyze_emails emails
  = Ok (map (fun kv => (kv.1, with_read_rate kv.2))
            (fold_left analyze_step emails [])).
Proof. apply gmail_compute_read_rates_ok. Qed.

Lemma gmail_analyze_emails_analyzed (emails : list email) :
  exists sender_stats,
    analyze_emails emails = Ok sender_stats
    /\ Forall (fun kv => analyzed kv.2) sender_stats
    /\ Dict.sum total sender_stats = length emails.
Proof.
  eexists. split; [apply gmail_analyze_emails_ok|]. split.
  - apply Forall_map.
    pose proof (gmail_fold_ok emails [] (Forall_nil_2 _)) as Hok.
    pose proof (gmail_fold_rate emails [] (Forall_nil_2 _)) as Hrate.
    revert Hok Hrate. generalize (fold_left analyze_step emails []).
    intros d Hok Hrate. induction Hok as [|[addr st] d Hst Hd IH];
      inversion Hrate as [|? ? Hr Hrs]; subst; constructor; auto.
    cbn [fst snd] in *. unfold analyzed, counts_ok.
    destruct (gmail_with_read_rate_fields st) as (-> & -> & -> & ->).
    split; [exact Hst|].
    unfold with_read_rate. destruct (0 <? total st); [reflexivity|exact Hr].
  - rewrite dict_sum_map by (intros; apply gmail_with_read_rate_fields).
    apply (gmail_fold_total emails []).
Qed.

End GmailAnalysis.

(** ** The sender aggregator (Outlook) *)

Section OutlookAnalysis.
Import Outlook.

Lemma outlook_new_stats_ok : counts_ok new_stats.
Proof. split; reflexivity. Qed.

Lemma outlook_record_email_counts (e : email) (st : stats) :
  total (record_email e st) = total st + 1
  /\ read (record_email e st) + unread (record_email e st)
     = read st + unread st + 1
  /\ emails (record_email e st) = emails st ++ [e]
  /\ read_rate (record_email e st) = read_rate st.
Proof.
  unfold record_email.
  destruct (is_marketing_email e) as [[is_marketing score] reasons].
  cbn. destruct (isRead e); repeat split; lia.
Qed.

Lemma outlook_record_email_ok (e : email) (st : stats) :
  counts_ok st -> counts_ok (record_email e st).
Proof.
  intros [Hsum Hlen].
  destruct (outlook_record_email_counts e st) as (Ht & Hru & He & _).
  split; [lia|]. rewrite Ht, He, length_app. cbn. lia.
Qed.

Lemma outlook_fold_ok (emails : list email) : forall d,
  Forall (fun kv => counts_ok kv.2) d ->
  Forall (fun kv => counts_ok kv.2) (fold_left analyze_step emails d).
Proof.
  induction emails as [|e emails IH]; intros d Hd; [exact Hd|].
  cbn [fold_left]. apply IH. unfold analyze_step.
  apply dict_update_Forall; auto using outlook_record_email_ok, outlook_new_stats_ok.
Qed.

Lemma outlook_fold_rate (emails : list email) : forall d,
  Forall (fun kv => read_rate kv.2 = 0%Q) d ->
  Forall (fun kv => read_rate kv.2 = 0%Q) (fold_left analyze_step emails d).
Proof.
  induction emails as [|e emails IH]; intros d Hd; [exact Hd|].
  cbn [fold_left]. apply IH. unfold analyze_step.
  apply (dict_update_Forall (fun st => read_rate st = 0%Q)); auto.
  intros st <-. apply outlook_record_email_counts.
Qed.

Lemma outlook_fold_total (emails : list email) : forall d,
  Dict.sum total (fold_left analyze_step emails d)
  = Dict.sum total d + length emails.
Proof.
  induction emails as [|e emails IH]; intros d; cbn [fold_left length]; [lia|].
  rewrite IH. unfold analyze_step.
  rewrite (dict_update_sum total 1); [lia|reflexivity|].
  intros st. apply outlook_record_email_counts.
Qed.

(** The second loop never divides by zero: it returns, and each record
    comes back with its rate set when it has messages and untouched when
    it has none. *)
Lemma outlook_compute_read_rate_ok (st : stats) :
  compute_read_rate st = Ok (with_read_rate st).
Proof.
  unfold compute_read_rate, with_read_rate, Py.truediv.
  destruct (0 <? total st) eqn:Hpos; [|reflexivity].
  apply Nat.ltb_lt in Hpos.
  destruct (total st =? 0) eqn:Hz; [apply Nat.eqb_eq in Hz; lia|reflexivity].
Qed.

Lemma outlook_compute_read_rates_ok (items : Dict.t stats) :
  compute_read_rates items = Ok (map (fun kv => (kv.1, with_read_rate kv.2)) items).
Proof.
  induction items as [|[addr st] items IH]; [reflexivity|].
  cbn [compute_read_rates map]. rewrite outlook_compute_read_rate_ok, IH. reflexivity.
Qed.

Lemma outlook_with_read_rate_fields (st : stats) :
  total (with_read_rate st) = total st
  /\ read (with_read_rate st) = read st
  /\ unread (with_read_rate st) = unread st
  /\ emails (with_read_rate st) = emails st.
Proof. unfold with_read_rate. destruct (0 <? total st); repeat split. Qed.

Lemma outlook_analyze_emails_ok (emails : list email) :
  analyze_emails emails
  = Ok (map (fun kv => (kv.1, with_read_rate kv.2))
            (fold_left analyze_step emails [])).
Proof. apply outlook_compute_read_rates_ok. Qed.

Lemma outlook_analyze_emails_analyzed (emails : list email) :
  exists sender_stats,
    analyze_emails emails = Ok sender_stats
    /\ Forall (fun kv => analyzed kv.2) sender_stats
    /\ Dict.sum total sender_stats = length emails.
Proof.
  eexists. split; [apply outlook_analyze_emails_ok|]. split.
  - apply Forall_map.
    pose proof (outlook_fold_ok emails [] (Forall_nil_2 _)) as Hok.
    pose proof (outlook_fold_rate emails [] (Forall_nil_2 _)) as Hrate.
    revert Hok Hrate. generalize (fold_left analyze_step emails []).
    intros d Hok Hrate. induction Hok as [|[addr st] d Hst Hd IH];
      inversion Hrate as [|? ? Hr Hrs]; subst; constructor; auto.
    cbn [fst snd] in *. unfold analyzed, counts_ok.
    destruct (outlook_with_read_rate_fields st) as (-> & -> & -> & ->).
    split; [exact Hst|].
    unfold with_read_rate. destruct (0 <? total st); [reflexivity|exact Hr].
  - rewrite dict_sum_map by (intros; apply outlook_with_read_rate_fields).
    apply (outlook_fold_total emails []).
Qed.

End OutlookAnalysis.

(** ** Counts and read rates *)

Lemma rate_in_unit_interval (r t : nat) :
  r <= t -> 0 < t -> (0 <= Z.of_nat r # Pos.of_nat t <= 1)%Q.
Proof.
  intros Hrt Ht. unfold Qle. cbn [Qnum Qden].
  assert (Hpos : Z.pos (Pos.of_nat t) = Z.of_nat t).
  { rewrite <- positive_nat_Z, Nat2Pos.id by lia. reflexivity. }
  rewrite Hpos. lia.
Qed.

Lemma gmail_analyzed_rate (st : Gmail.stats) :
  Gmail.analyzed st -> (0 <= Gmail.read_rate st <= 1)%Q.
Proof.
  intros [[Hsum _] ->]. destruct (0 <? Gmail.total st) eqn:Hpos.
  - apply Nat.ltb_lt in Hpos. apply rate_in_unit_interval; lia.
  - split; discriminate.
Qed.

Lemma outlook_analyzed_rate (st : Outlook.stats) :
  Outlook.analyzed st -> (0 <= Outlook.read_rate st <= 1)%Q.
Proof.
  intros [[Hsum _] ->]. destruct (0 <? Outlook.total st) eqn:Hpos.
  - apply Nat.ltb_lt in Hpos. apply rate_in_unit_interval; lia.
  - split; discriminate.
Qed.

Example analyze_two_senders :
  let mk i f r := {| Gmail.id := i; Gmail.threadId := None; Gmail.from := f;
                     Gmail.subject := "hi"; Gmail.date := ""; Gmail.snippet := "";
                     Gmail.labelIds := []; Gmail.isRead := r |} in
  option_map (map (fun kv => (kv.1, Gmail.total kv.2, Gmail.read kv.2,
                              Gmail.unread kv.2, Gmail.read_rate kv.2)))
    (match Gmail.analyze_emails
             [mk "1" "a@x.org" true; mk "2" "B <b@x.org>" false;
              mk "3" "A@x.org" false] with
     | Ok d => Some d
     | Raise _ => None
     end)
  = Some [("a@x.org", 2, 1, 1, 1 # 2); ("b@x.org", 1, 0, 1, 0 # 1)].
Proof. vm_compute. reflexivity. Qed.

(** C6.  For every list of messages [analyze_emails] returns, and in the
    dictionary returned every record has [read + unread = total] and
    [total = len(emails)]; summed over the senders, the reads and the
    unreads add up to the totals, and the totals to the number of messages
    given. *)
Theorem analyze_emails_counts_add_up :
  (forall emails : list Gmail.email, exists sender_stats,
     Gmail.analyze_emails emails = Ok sender_stats
     /\ Forall (fun kv => Gmail.read kv.2 + Gmail.unread kv.2 = Gmail.total kv.2
                          /\ Gmail.total kv.2 = length (Gmail.emails kv.2))
               sender_stats
     /\ Dict.sum Gmail.read sender_stats + Dict.sum Gmail.unread sender_stats
        = Dict.sum Gmail.total sender_stats
     /\ Dict.sum Gmail.total sender_stats = length emails)
  /\
  (forall emails : list Outlook.email, exists sender_stats,
     Outlook.analyze_emails emails = Ok sender_stats
     /\ Forall (fun kv => Outlook.read kv.2 + Outlook.unread kv.2 = Outlook.total kv.2
                          /\ Outlook.total kv.2 = length (Outlook.emails kv.2))
               sender_stats
     /\ Dict.sum Outlook.read sender_stats + Dict.sum Outlook.unread sender_stats
        = Dict.sum Outlook.total sender_stats
     /\ Dict.sum Outlook.total sender_stats = length emails).
Proof.
  split; intros emails.
  - destruct (gmail_analyze_emails_analyzed emails) as (d & Hrun & Hall & Htotal).
    exists d. split; [exact Hrun|].
    assert (Hrec : Forall (fun kv => Gmail.counts_ok kv.2) d).
    { eapply Forall_impl; [exact Hall|]. by intros kv [Hc _]. }
    split; [exact Hrec|]. split; [|exact Htotal].
    apply dict_sum_add. eapply Forall_impl; [exact Hrec|]. by intros kv [Hs _].
  - destruct (outlook_analyze_emails_analyzed emails) as (d & Hrun & Hall & Htotal).
    exists d. split; [exact Hrun|].
    assert (Hrec : Forall (fun kv => Outlook.counts_ok kv.2) d).
    { eapply Forall_impl; [exact Hall|]. by intros kv [Hc _]. }
    split; [exact Hrec|]. split; [|exact Htotal].
    apply dict_sum_add. eapply Forall_impl; [exact Hrec|]. by intros kv [Hs _].
Qed.

(** C9.  In the dictionary that [analyze_emails] returns every read rate
    lies between 0 and 1.  The division is guarded: on a record with no
    message the second loop does not divide (a division by [0] would raise
    [ZeroDivisionError]) and hands the record back untouched, and the rate
    of a fresh record is 0. *)
Theorem read_rate_in_unit_interval :
  (forall emails : list Gmail.email, exists sender_stats,
     Gmail.analyze_emails emails = Ok sender_stats
     /\ Forall (fun kv => (0 <= Gmail.read_rate kv.2 <= 1)%Q) sender_stats)
  /\ (forall st : Gmail.stats, Gmail.total st = 0 -> Gmail.compute_read_rate st = Ok st)
  /\ Gmail.read_rate Gmail.new_stats = 0%Q
  /\
  (forall emails : list Outlook.email, exists sender_stats,
     Outlook.analyze_emails emails = Ok sender_stats
     /\ Forall (fun kv => (0 <= Outlook.read_rate kv.2 <= 1)%Q) sender_stats)
  /\ (forall st : Outlook.stats, Outlook.total st = 0 -> Outlook.compute_read_rate st = Ok st)
  /\ Outlook.read_rate Outlook.new_stats = 0%Q
  /\ (forall a : nat, Py.truediv a 0 = Raise ZeroDivisionError).
Proof.
  repeat split; try reflexivity.
  - intros emails.
    destruct (gmail_analyze_emails_analyzed emails) as (d & Hrun & Hall & _).
    exists d. split; [exact Hrun|].
    eapply Forall_impl; [exact Hall|]. intros kv. apply gmail_analyzed_rate.
  - intros st Hz. unfold Gmail.compute_read_rate. rewrite Hz. reflexivity.
  - intros emails.
    destruct (outlook_analyze_emails_analyzed emails) as (d & Hrun & Hall & _).
    exists d. split; [exact Hrun|].
    eapply Forall_impl; [exact Hall|]. intros kv. apply outlook_analyzed_rate.
  - intros st Hz. unfold Outlook.compute_read_rate. rewrite Hz. reflexivity.
Qed.

Lemma read_rate_in_unit_interval_witness :
  Gmail.total Gmail.new_stats = 0
  /\ Gmail.compute_read_rate Gmail.new_stats = Ok Gmail.new_stats.
Proof.
  split; [reflexivity|].
  apply (proj1 (proj2 read_rate_in_unit_interval) Gmail.new_stats).
  reflexivity.
Defined.

(** ** The categorizer *)

Section SortFacts.
Context {A : Type} (key : A -> nat).

Lemma insert_desc_perm (x : A) (l : list A) : insert_desc key x l ≡ₚ x :: l.
Proof.
  induction l as [|y l IH]; cbn; [reflexivity|].
  destruct (key y <=? key x); [reflexivity|].
  rewrite IH. apply Permutation_swap.
Qed.

Lemma sort_desc_perm (l : list A) : sort_desc key l ≡ₚ l.
Proof.
  induction l as [|x l IH]; cbn; [reflexivity|].
  rewrite insert_desc_perm. by constructor.
Qed.

Lemma elem_of_sort_desc (x : A) (l : list A) : x ∈ sort_desc key l <-> x ∈ l.
Proof. by rewrite sort_desc_perm. Qed.

End SortFacts.

Lemma py_lt_iff (a b : Q) : Py.lt a b = true <-> (a < b)%Q.
Proof.
  unfold Py.lt. rewrite negb_true_iff, <- not_true_iff_false, Qle_bool_iff.
  split; [apply Qnot_le_lt|apply Qlt_not_le].
Qed.

Lemma elem_of_if_singleton {A} (b : bool) (x y : A) :
  x ∈ (if b then [y] else []) <-> b = true /\ x = y.
Proof.
  destruct b; [rewrite list_elem_of_singleton|rewrite elem_of_nil]; naive_solver.
Qed.

Section GmailCategorize.
Import Gmail.
Variable utcnow : Z.
Variable strptime : string -> string -> result datetime.

Local Notation categorize_sender := (categorize_sender utcnow strptime).
Notation categorize_senders := (categorize_senders utcnow strptime).
Notation old_unread_entry := (old_unread_entry utcnow strptime).
Notation old_unread_of := (old_unread_of utcnow strptime).

(** What one turn of the loop appends to the three categories the
    properties are about. *)
Lemma gmail_categorize_sender_appends (c : categories) (kv : string * stats) :
  senders (never_opened (categorize_sender c kv))
    = senders (never_opened c) ++ (if is_never_opened kv.2 then [kv] else [])
  /\ senders (rarely_opened (categorize_sender c kv))
    = senders (rarely_opened c)
      ++ (if negb (is_never_opened kv.2) && is_rarely_opened kv.2 then [kv] else [])
  /\ senders (old_unread (categorize_sender c kv))
    = senders (old_unread c) ++ option_list (old_unread_entry kv).
Proof.
  destruct kv as [addr st]. unfold categorize_sender, old_unread_entry. cbn [snd].
  destruct (is_never_opened st); [|destruct (is_rarely_opened st)];
    destruct (old_unread_of st); cbn; rewrite ?app_nil_r; auto.
Qed.

(** The other categories only ever receive the sender's own record. *)
Lemma gmail_categorize_sender_others (c : categories) (kv : string * stats) :
  Forall2 (fun cat' cat => exists b : bool,
             senders cat' = senders cat ++ (if b then [kv] else []))
    (other_categories (categorize_sender c kv)) (other_categories c).
Proof.
  destruct kv as [addr st]. unfold categorize_sender, other_categories.
  cbn [promotional marketing bulk_senders].
  repeat constructor.
  - destruct (is_promotional st); [exists true|exists false]; cbn;
      by rewrite ?app_nil_r.
  - destruct (is_promotional st); [|destruct (3 <=? marketing_score st)];
      [exists false|exists true|exists false]; cbn; by rewrite ?app_nil_r.
  - destruct (20 <=? total st); [exists true|exists false]; cbn;
      by rewrite ?app_nil_r.
Qed.

Lemma gmail_fold_appends (d : Dict.t stats) : forall c,
  let c' := fold_left categorize_sender d c in
  senders (never_opened c')
    = senders (never_opened c) ++ List.filter (fun kv => is_never_opened kv.2) d
  /\ senders (rarely_opened c')
    = senders (rarely_opened c)
      ++ List.filter (fun kv => negb (is_never_opened kv.2) && is_rarely_opened kv.2) d
  /\ senders (old_unread c')
    = senders (old_unread c) ++ omap old_unread_entry d.
Proof.
  induction d as [|kv d IH]; intros c; cbn zeta; cbn [fold_left List.filter omap].
  - rewrite !app_nil_r. auto.
  - destruct (IH (categorize_sender c kv)) as (-> & -> & ->).
    destruct (gmail_categorize_sender_appends c kv) as (-> & -> & ->).
    rewrite <- !app_assoc. split; [|split]; f_equal.
    + by destruct (is_never_opened kv.2).
    + by destruct (negb (is_never_opened kv.2) && is_rarely_opened kv.2).
    + change (kv :: d) with ([kv] ++ d). rewrite omap_app. f_equal.
Qed.

Lemma gmail_fold_others (d : Dict.t stats) : forall c,
  Forall2 (fun cat' cat => forall kv, kv ∈ senders cat' -> kv ∈ senders cat \/ kv ∈ d)
    (other_categories (fold_left categorize_sender d c)) (other_categories c).
Proof.
  induction d as [|kv d IH]; intros c; cbn [fold_left].
  - repeat constructor; auto.
  - eapply Forall2_trans;
      [|apply IH|apply gmail_categorize_sender_others].
    intros cat'' cat' cat Hrest [b Hone] x Hx. cbn beta in Hrest.
    destruct (Hrest x Hx) as [Hin|Hin]; [|by right; right].
    rewrite Hone, elem_of_app, elem_of_if_singleton in Hin.
    destruct Hin as [?|[_ ->]]; [by left|right; left].
Qed.

(** The entries of the three categories after the whole function. *)
Lemma gmail_elem_of_never_opened (d : Dict.t stats) (kv : string * stats) :
  kv ∈ senders (never_opened (categorize_senders d))
  <-> kv ∈ d /\ is_never_opened kv.2 = true.
Proof.
  unfold categorize_senders. cbn. rewrite elem_of_sort_desc.
  destruct (gmail_fold_appends d empty_categories) as (-> & _ & _).
  cbn. rewrite list_elem_of_In, List.filter_In, <- list_elem_of_In. reflexivity.
Qed.

Lemma gmail_elem_of_rarely_opened (d : Dict.t stats) (kv : string * stats) :
  kv ∈ senders (rarely_opened (categorize_senders d))
  <-> kv ∈ d /\ is_never_opened kv.2 = false /\ is_rarely_opened kv.2 = true.
Proof.
  unfold categorize_senders. cbn. rewrite elem_of_sort_desc.
  destruct (gmail_fold_appends d empty_categories) as (_ & -> & _).
  cbn. rewrite list_elem_of_In, List.filter_In, <- list_elem_of_In.
  rewrite andb_true_iff, negb_true_iff. reflexivity.
Qed.

Lemma gmail_elem_of_old_unread (d : Dict.t stats) (kv : string * stats) :
  kv ∈ senders (old_unread (categorize_senders d))
  <-> exists st, (kv.1, st) ∈ d /\ old_unread_of st <> []
                 /\ kv.2 = make_old_stats st (old_unread_of st).
Proof.
  unfold categorize_senders. cbn. rewrite elem_of_sort_desc.
  destruct (gmail_fold_appends d empty_categories) as (_ & _ & ->).
  cbn. rewrite list_elem_of_omap. split.
  - intros ([addr st] & Hin & Hentry). unfold old_unread_entry in Hentry.
    exists st. destruct (old_unread_of st) eqn:Hold; [discriminate|].
    injection Hentry as <-. cbn. auto.
  - intros (st & Hin & Hne & Heq). exists (kv.1, st). split; [exact Hin|].
    unfold old_unread_entry. destruct (old_unread_of st) eqn:Hold; [done|].
    rewrite <- Heq. by destruct kv.
Qed.

Lemma gmail_is_never_opened_iff (st : stats) :
  is_never_opened st = true <-> 5 <= total st /\ read st = 0.
Proof.
  unfold is_never_opened. by rewrite andb_true_iff, Nat.leb_le, Nat.eqb_eq.
Qed.

Lemma gmail_is_rarely_opened_iff (st : stats) :
  is_rarely_opened st = true
  <-> 3 <= total st /\ (0 < read_rate st)%Q /\ (read_rate st < 0.2)%Q.
Proof.
  unfold is_rarely_opened.
  rewrite !andb_true_iff, Nat.leb_le, !py_lt_iff. tauto.
Qed.

(** The categories other than [old_unread] list records of [sender_stats]
    itself. *)
Lemma gmail_global_records (d : Dict.t stats) (cat : category) (kv : string * stats) :
  cat ∈ other_categories (categorize_senders d)
        ++ [never_opened (categorize_senders d); rarely_opened (categorize_senders d)] ->
  kv ∈ senders cat -> kv ∈ d.
Proof.
  rewrite elem_of_app. intros [Hcat|Hcat] Hkv.
  - pose proof (gmail_fold_others d empty_categories) as Hall.
    unfold categorize_senders in Hcat.
    set (c := fold_left categorize_sender d empty_categories) in *.
    assert (Hsorted : exists cat0, cat0 ∈ other_categories c
                                   /\ senders cat = sort_desc (fun x => total x.2) (senders cat0)).
    { unfold other_categories, sort_categories in *. cbn in Hcat.
      set_unfold. naive_solver. }
    destruct Hsorted as (cat0 & Hcat0 & Hs).
    rewrite Hs, elem_of_sort_desc in Hkv.
    apply list_elem_of_lookup in Hcat0 as [i Hi].
    destruct (Forall2_lookup_l _ _ _ _ _ Hall Hi) as (cat1 & Hi1 & Hrel).
    destruct (Hrel kv Hkv) as [Hempty|Hd]; [|exact Hd].
    exfalso. apply list_elem_of_lookup_2 in Hi1.
    unfold other_categories, empty_categories in Hi1. cbn in Hi1.
    set_unfold. destruct_or!; subst; cbn in Hempty; by apply elem_of_nil in Hempty.
  - set_unfold. destruct Hcat as [->|[->|[]]].
    + by apply gmail_elem_of_never_opened in Hkv as [? _].
    + by apply gmail_elem_of_rarely_opened in Hkv as [? _].
Qed.

End GmailCategorize.

Section OutlookCategorize.
Import Outlook.
Variable utcnow : Z.
Variable fromisoformat : string -> result datetime.

Local Notation categorize_sender := (categorize_sender utcnow fromisoformat).
Notation categorize_senders := (categorize_senders utcnow fromisoformat).
Notation old_unread_entry := (old_unread_entry utcnow fromisoformat).
Notation old_unread_of := (old_unread_of utcnow fromisoformat).

(** What one turn of the loop appends to the three categories the
    properties are about. *)
Lemma outlook_categorize_sender_appends (c : categories) (kv : string * stats) :
  senders (never_opened (categorize_sender c kv))
    = senders (never_opened c) ++ (if is_never_opened kv.2 then [kv] else [])
  /\ senders (rarely_opened (categorize_sender c kv))
    = senders (rarely_opened c)
      ++ (if negb (is_never_opened kv.2) && is_rarely_opened kv.2 then [kv] else [])
  /\ senders (old_unread (categorize_sender c kv))
    = senders (old_unread c) ++ option_list (old_unread_entry kv).
Proof.
  destruct kv as [addr st]. unfold categorize_sender, old_unread_entry. cbn [snd].
  destruct (is_never_opened st); [|destruct (is_rarely_opened st)];
    destruct (old_unread_of st); cbn; rewrite ?app_nil_r; auto.
Qed.

(** The other categories only ever receive the sender's own record. *)
Lemma outlook_categorize_sender_others (c : categories) (kv : string * stats) :
  Forall2 (fun cat' cat => exists b : bool,
             senders cat' = senders cat ++ (if b then [kv] else []))
    (other_categories (categorize_sender c kv)) (other_categories c).
Proof.
  destruct kv as [addr st]. unfold categorize_sender, other_categories.
  cbn [marketing bulk_senders].
  repeat constructor.
  - destruct (3 <=? marketing_score st); [exists true|exists false]; cbn;
      by rewrite ?app_nil_r.
  - destruct (20 <=? total st); [exists true|exists false]; cbn;
      by rewrite ?app_nil_r.
Qed.

Lemma outlook_fold_appends (d : Dict.t stats) : forall c,
  let c' := fold_left categorize_sender d c in
  senders (never_opened c')
    = senders (never_opened c) ++ List.filter (fun kv => is_never_opened kv.2) d
  /\ senders (rarely_opened c')
    = senders (rarely_opened c)
      ++ List.filter (fun kv => negb (is_never_opened kv.2) && is_rarely_opened kv.2) d
  /\ senders (old_unread c')
    = senders (old_unread c) ++ omap old_unread_entry d.
Proof.
  induction d as [|kv d IH]; intros c; cbn zeta; cbn [fold_left List.filter omap].
  - rewrite !app_nil_r. auto.
  - destruct (IH (categorize_sender c kv)) as (-> & -> & ->).
    destruct (outlook_categorize_sender_appends c kv) as (-> & -> & ->).
    rewrite <- !app_assoc. split; [|split]; f_equal.
    + by destruct (is_never_opened kv.2).
    + by destruct (negb (is_never_opened kv.2) && is_rarely_opened kv.2).
    + change (kv :: d) with ([kv] ++ d). rewrite omap_app. f_equal.
Qed.

Lemma outlook_fold_others (d : Dict.t stats) : forall c,
  Forall2 (fun cat' cat => forall kv, kv ∈ senders cat' -> kv ∈ senders cat \/ kv ∈ d)
    (other_categories (fold_left categorize_sender d c)) (other_categories c).
Proof.
  induction d as [|kv d IH]; intros c; cbn [fold_left].
  - repeat constructor; auto.
  - eapply Forall2_trans;
      [|apply IH|apply outlook_categorize_sender_others].
    intros cat'' cat' cat Hrest [b Hone] x Hx. cbn beta in Hrest.
    destruct (Hrest x Hx) as [Hin|Hin]; [|by right; right].
    rewrite Hone, elem_of_app, elem_of_if_singleton in Hin.
    destruct Hin as [?|[_ ->]]; [by left|right; left].
Qed.

(** The entries of the three categories after the whole function. *)
Lemma outlook_elem_of_never_opened (d : Dict.t stats) (kv : string * stats) :
  kv ∈ senders (never_opened (categorize_senders d))
  <-> kv ∈ d /\ is_never_opened kv.2 = true.
Proof.
  unfold categorize_senders. cbn. rewrite elem_of_sort_desc.
  destruct (outlook_fold_appends d empty_categories) as (-> & _ & _).
  cbn. rewrite list_elem_of_In, List.filter_In, <- list_elem_of_In. reflexivity.
Qed.

Lemma outlook_elem_of_rarely_opened (d : Dict.t stats) (kv : string * stats) :
  kv ∈ senders (rarely_opened (categorize_senders d))
  <-> kv ∈ d /\ is_never_opened kv.2 = false /\ is_rarely_opened kv.2 = true.
Proof.
  unfold categorize_senders. cbn. rewrite elem_of_sort_desc.
  destruct (outlook_fold_appends d empty_categories) as (_ & -> & _).
  cbn. rewrite list_elem_of_In, List.filter_In, <- list_elem_of_In.
  rewrite andb_true_iff, negb_true_iff. reflexivity.
Qed.

Lemma outlook_elem_of_old_unread (d : Dict.t stats) (kv : string * stats) :
  kv ∈ senders (old_unread (categorize_senders d))
  <-> exists st, (kv.1, st) ∈ d /\ old_unread_of st <> []
                 /\ kv.2 = make_old_stats st (old_unread_of st).
Proof.
  unfold categorize_senders. cbn. rewrite elem_of_sort_desc.
  destruct (outlook_fold_appends d empty_categories) as (_ & _ & ->).
  cbn. rewrite list_elem_of_omap. split.
  - intros ([addr st] & Hin & Hentry). unfold old_unread_entry in Hentry.
    exists st. destruct (old_unread_of st) eqn:Hold; [discriminate|].
    injection Hentry as <-. cbn. auto.
  - intros (st & Hin & Hne & Heq). exists (kv.1, st). split; [exact Hin|].
    unfold old_unread_entry. destruct (old_unread_of st) eqn:Hold; [done|].
    rewrite <- Heq. by destruct kv.
Qed.

Lemma outlook_is_never_opened_iff (st : stats) :
  is_never_opened st = true <-> 5 <= total st /\ read st = 0.
Proof.
  unfold is_never_opened. by rewrite andb_true_iff, Nat.leb_le, Nat.eqb_eq.
Qed.

Lemma outlook_is_rarely_opened_iff (st : stats) :
  is_rarely_opened st = true
  <-> 3 <= total st /\ (0 < read_rate st)%Q /\ (read_rate st < 0.2)%Q.
Proof.
  unfold is_rarely_opened.
  rewrite !andb_true_iff, Nat.leb_le, !py_lt_iff. tauto.
Qed.

(** The categories other than [old_unread] list records of [sender_stats]
    itself. *)
Lemma outlook_global_records (d : Dict.t stats) (cat : category) (kv : string * stats) :
  cat ∈ other_categories (categorize_senders d)
        ++ [never_opened (categorize_senders d); rarely_opened (categorize_senders d)] ->
  kv ∈ senders cat -> kv ∈ d.
Proof.
  rewrite elem_of_app. intros [Hcat|Hcat] Hkv.
  - pose proof (outlook_fold_others d empty_categories) as Hall.
    unfold categorize_senders in Hcat.
    set (c := fold_left categorize_sender d empty_categories) in *.
    assert (Hsorted : exists cat0, cat0 ∈ other_categories c
                                   /\ senders cat = sort_desc (fun x => total x.2) (senders cat0)).
    { unfold other_categories, sort_categories in *. cbn in Hcat.
      set_unfold. naive_solver. }
    destruct Hsorted as (cat0 & Hcat0 & Hs).
    rewrite Hs, elem_of_sort_desc in Hkv.
    apply list_elem_of_lookup in Hcat0 as [i Hi].
    destruct (Forall2_lookup_l _ _ _ _ _ Hall Hi) as (cat1 & Hi1 & Hrel).
    destruct (Hrel kv Hkv) as [Hempty|Hd]; [|exact Hd].
    exfalso. apply list_elem_of_lookup_2 in Hi1.
    unfold other_categories, empty_categories in Hi1. cbn in Hi1.
    set_unfold. destruct_or!; subst; cbn in Hempty; by apply elem_of_nil in Hempty.
  - set_unfold. destruct Hcat as [->|[->|[]]].
    + by apply outlook_elem_of_never_opened in Hkv as [? _].
    + by apply outlook_elem_of_rarely_opened in Hkv as [? _].
Qed.

End OutlookCategorize.

(** *** never_opened and rarely_opened *)

(** C4.  For every entry [(addr, st)] of [sender_stats]: it is listed in
    [never_opened] iff [total >= 5] and [read = 0]; it is listed in
    [rarely_opened] iff it is not listed in [never_opened] and [total >= 3]
    and [0 < read_rate < 0.2].  So a record with [total = 6] and [read = 0]
    is in [never_opened] and not in [rarely_opened]; and a record with
    [total = 3] and [read = 0], its rate being the one that [analyze_emails]
    leaves, is in neither. *)
Theorem never_and_rarely_opened_rules :
  (forall utcnow strptime (sender_stats : Dict.t Gmail.stats) addr st,
     (addr, st) ∈ sender_stats ->
     let cats := Gmail.categorize_senders utcnow strptime sender_stats in
     let in_never := (addr, st) ∈ Gmail.senders (Gmail.never_opened cats) in
     let in_rarely := (addr, st) ∈ Gmail.senders (Gmail.rarely_opened cats) in
     (in_never <-> 5 <= Gmail.total st /\ Gmail.read st = 0)
     /\ (in_rarely <-> ~ in_never /\ 3 <= Gmail.total st
                       /\ (0 < Gmail.read_rate st)%Q /\ (Gmail.read_rate st < 0.2)%Q)
     /\ (Gmail.total st = 6 -> Gmail.read st = 0 -> in_never /\ ~ in_rarely)
     /\ (Gmail.analyzed st -> Gmail.total st = 3 -> Gmail.read st = 0 ->
         ~ in_never /\ ~ in_rarely))
  /\
  (forall utcnow fromisoformat (sender_stats : Dict.t Outlook.stats) addr st,
     (addr, st) ∈ sender_stats ->
     let cats := Outlook.categorize_senders utcnow fromisoformat sender_stats in
     let in_never := (addr, st) ∈ Outlook.senders (Outlook.never_opened cats) in
     let in_rarely := (addr, st) ∈ Outlook.senders (Outlook.rarely_opened cats) in
     (in_never <-> 5 <= Outlook.total st /\ Outlook.read st = 0)
     /\ (in_rarely <-> ~ in_never /\ 3 <= Outlook.total st
                       /\ (0 < Outlook.read_rate st)%Q /\ (Outlook.read_rate st < 0.2)%Q)
     /\ (Outlook.total st = 6 -> Outlook.read st = 0 -> in_never /\ ~ in_rarely)
     /\ (Outlook.analyzed st -> Outlook.total st = 3 -> Outlook.read st = 0 ->
         ~ in_never /\ ~ in_rarely)).
Proof.
  split.
  - intros utcnow strptime d addr st Hin cats in_never in_rarely.
    assert (Hnever : in_never <-> 5 <= Gmail.total st /\ Gmail.read st = 0).
    { subst in_never cats. rewrite gmail_elem_of_never_opened. cbn [snd].
      rewrite gmail_is_never_opened_iff. tauto. }
    assert (Hrarely : in_rarely <-> ~ in_never /\ 3 <= Gmail.total st
                      /\ (0 < Gmail.read_rate st)%Q /\ (Gmail.read_rate st < 0.2)%Q).
    { rewrite Hnever. subst in_rarely cats. rewrite gmail_elem_of_rarely_opened.
      cbn [snd]. rewrite <- gmail_is_never_opened_iff, gmail_is_rarely_opened_iff.
      rewrite not_true_iff_false. tauto. }
    split; [exact Hnever|]. split; [exact Hrarely|]. split.
    + intros Ht Hr. rewrite Hrarely, Hnever. split; [lia|]. intros [Hn _]. lia.
    + intros [_ Hrate] Ht Hr. rewrite Hrarely, Hnever. split; [lia|].
      intros (_ & _ & Hpos & _). rewrite Hrate, Ht, Hr in Hpos. by vm_compute in Hpos.
  - intros utcnow fromisoformat d addr st Hin cats in_never in_rarely.
    assert (Hnever : in_never <-> 5 <= Outlook.total st /\ Outlook.read st = 0).
    { subst in_never cats. rewrite outlook_elem_of_never_opened. cbn [snd].
      rewrite outlook_is_never_opened_iff. tauto. }
    assert (Hrarely : in_rarely <-> ~ in_never /\ 3 <= Outlook.total st
                      /\ (0 < Outlook.read_rate st)%Q /\ (Outlook.read_rate st < 0.2)%Q).
    { rewrite Hnever. subst in_rarely cats. rewrite outlook_elem_of_rarely_opened.
      cbn [snd]. rewrite <- outlook_is_never_opened_iff, outlook_is_rarely_opened_iff.
      rewrite not_true_iff_false. tauto. }
    split; [exact Hnever|]. split; [exact Hrarely|]. split.
    + intros Ht Hr. rewrite Hrarely, Hnever. split; [lia|]. intros [Hn _]. lia.
    + intros [_ Hrate] Ht Hr. rewrite Hrarely, Hnever. split; [lia|].
      intros (_ & _ & Hpos & _). rewrite Hrate, Ht, Hr in Hpos. by vm_compute in Hpos.
Qed.

Lemma never_and_rarely_opened_rules_witness :
  let mk i := {| Gmail.id := i; Gmail.threadId := None; Gmail.from := "shop@x.org";
                 Gmail.subject := ""; Gmail.date := ""; Gmail.snippet := "";
                 Gmail.labelIds := []; Gmail.isRead := false |} in
  let st := {| Gmail.total := 6; Gmail.unread := 6; Gmail.read := 0;
               Gmail.marketing_score := 0;
               Gmail.emails := map mk ["1"; "2"; "3"; "4"; "5"; "6"];
               Gmail.name := "shop@x.org"; Gmail.oldest := None;
               Gmail.newest := None; Gmail.read_rate := 0;
               Gmail.is_promotional := false |} in
  let nothing_parses (_ _ : string) : result datetime := Raise ValueError in
  ("shop@x.org", st) ∈ [("shop@x.org", st)]
  /\ ("shop@x.org", st) ∈
       Gmail.senders (Gmail.never_opened
                        (Gmail.categorize_senders 0 nothing_parses [("shop@x.org", st)])).
Proof.
  intros mk st nothing_parses.
  assert (Hin : ("shop@x.org", st) ∈ [("shop@x.org", st)]) by left.
  split; [exact Hin|].
  apply (proj1 (proj1 never_and_rarely_opened_rules 0%Z nothing_parses
                  [("shop@x.org", st)] "shop@x.org" st Hin)).
  split; [cbn; lia|reflexivity].
Defined.

(** *** old_unread *)

Lemma gmail_try_formats_all_fail utcnow strptime (fmts : list string) (date_str : string) :
  (forall fmt, fmt ∈ fmts -> exists err, strptime (Py.take 31 date_str) fmt = Raise err) ->
  Gmail.try_formats utcnow strptime fmts date_str = Ok false.
Proof.
  induction fmts as [|fmt fmts IH]; intros Hfail; [reflexivity|].
  cbn [Gmail.try_formats].
  destruct (Hfail fmt) as [err Herr]; [left|]. rewrite Herr. cbn.
  apply IH. intros fmt' Hin. apply Hfail. by right.
Qed.

Lemma filter_skip {A} (f : A -> bool) (before after : list A) (x : A) :
  f x = false ->
  List.filter f (before ++ x :: after) = List.filter f before ++ List.filter f after.
Proof. intros Hx. rewrite List.filter_app. cbn. by rewrite Hx. Qed.

Lemma not_elem_of_filter {A} (f : A -> bool) (l : list A) (x : A) :
  f x = false -> x ∉ List.filter f l.
Proof.
  intros Hx Hin. apply list_elem_of_In, List.filter_In in Hin as [_ Hfx]. congruence.
Qed.

Example gmail_old_unread_skips_bad_dates :
  let mk i d := {| Gmail.id := i; Gmail.threadId := None; Gmail.from := "a@x.org";
                   Gmail.subject := ""; Gmail.date := d; Gmail.snippet := "";
                   Gmail.labelIds := []; Gmail.isRead := false |} in
  (* a parser that knows one string, in the second format only *)
  let strptime (s fmt : string) : result datetime :=
    if String.eqb s "01 Jan 2020 10:00:00 +0000" && String.eqb fmt "%d %b %Y %H:%M:%S %z"
    then Ok {| naive := 0; tzinfo := Some 0%Z |} else Raise ValueError in
  let st := Gmail.make_old_stats Gmail.new_stats
              [mk "1" "yesterday"; mk "2" "01 Jan 2020 10:00:00 +0000"; mk "3" ""] in
  map Gmail.id (Gmail.old_unread_of 5000000000000 strptime st) = ["2"].
Proof. vm_compute. reflexivity. Qed.

(** C5.  Take a message whose date no format parses ([strptime] raises on
    the first 31 characters for each of the two formats; for Outlook,
    [fromisoformat] raises).  The loop over the formats ends without an
    exception and without appending; the message is not old; it is in no
    record of [old_unread]; the messages around it are filtered as if it
    were not there; and every other message that is old and unread is still
    listed under its sender in [old_unread]. *)
Theorem unparsable_date_is_skipped :
  (forall utcnow strptime (e : Gmail.email),
     (forall fmt, fmt ∈ Gmail.DATE_FORMATS ->
        exists err, strptime (Py.take 31 (Gmail.date e)) fmt = Raise err) ->
     Gmail.try_formats utcnow strptime Gmail.DATE_FORMATS (Gmail.date e) = Ok false
     /\ Gmail.is_old_unread utcnow strptime e = false
     /\ (forall st before after, Gmail.emails st = before ++ e :: after ->
           Gmail.old_unread_of utcnow strptime st
           = List.filter (Gmail.is_old_unread utcnow strptime) before
             ++ List.filter (Gmail.is_old_unread utcnow strptime) after)
     /\ (forall sender_stats,
           let cats := Gmail.categorize_senders utcnow strptime sender_stats in
           (forall addr old_stats,
              (addr, old_stats) ∈ Gmail.senders (Gmail.old_unread cats) ->
              e ∉ Gmail.emails old_stats)
           /\ (forall addr st e',
                 (addr, st) ∈ sender_stats -> e' ∈ Gmail.emails st ->
                 Gmail.is_old_unread utcnow strptime e' = true ->
                 exists old_stats,
                   (addr, old_stats) ∈ Gmail.senders (Gmail.old_unread cats)
                   /\ e' ∈ Gmail.emails old_stats)))
  /\
  (forall utcnow fromisoformat (e : Outlook.email),
     (exists err, fromisoformat (Py.replace "Z" "+00:00" (Outlook.receivedDateTime e))
                  = Raise err) ->
     Outlook.is_old_unread utcnow fromisoformat e = false
     /\ (forall st before after, Outlook.emails st = before ++ e :: after ->
           Outlook.old_unread_of utcnow fromisoformat st
           = List.filter (Outlook.is_old_unread utcnow fromisoformat) before
             ++ List.filter (Outlook.is_old_unread utcnow fromisoformat) after)
     /\ (forall sender_stats,
           let cats := Outlook.categorize_senders utcnow fromisoformat sender_stats in
           (forall addr old_stats,
              (addr, old_stats) ∈ Outlook.senders (Outlook.old_unread cats) ->
              e ∉ Outlook.emails old_stats)
           /\ (forall addr st e',
                 (addr, st) ∈ sender_stats -> e' ∈ Outlook.emails st ->
                 Outlook.is_old_unread utcnow fromisoformat e' = true ->
                 exists old_stats,
                   (addr, old_stats) ∈ Outlook.senders (Outlook.old_unread cats)
                   /\ e' ∈ Outlook.emails old_stats))).
Proof.
  split.
  - intros utcnow strptime e Hfail.
    pose proof (gmail_try_formats_all_fail utcnow strptime _ _ Hfail) as Htry.
    assert (Hnot : Gmail.is_old_unread utcnow strptime e = false).
    { unfold Gmail.is_old_unread. rewrite Htry.
      destruct (negb (Gmail.isRead e)), (negb (String.eqb (Gmail.date e) "")); reflexivity. }
    split; [exact Htry|]. split; [exact Hnot|]. split.
    + intros st before after Hst. unfold Gmail.old_unread_of. rewrite Hst.
      by apply filter_skip.
    + intros d cats. split.
      * intros addr old_stats (st & _ & _ & Hold)%gmail_elem_of_old_unread.
        cbn [snd] in Hold. rewrite Hold. cbn. by apply not_elem_of_filter.
      * intros addr st e' Hin He' Hold.
        assert (Hmem : e' ∈ Gmail.old_unread_of utcnow strptime st).
        { apply list_elem_of_In, List.filter_In. by rewrite <- list_elem_of_In. }
        exists (Gmail.make_old_stats st (Gmail.old_unread_of utcnow strptime st)).
        split; [|exact Hmem].
        apply gmail_elem_of_old_unread. exists st. cbn [fst snd].
        split; [exact Hin|]. split; [|reflexivity].
        intros Hnil. rewrite Hnil in Hmem. by apply elem_of_nil in Hmem.
  - intros utcnow fromisoformat e [err Hfail].
    assert (Hnot : Outlook.is_old_unread utcnow fromisoformat e = false).
    { unfold Outlook.is_old_unread, Outlook.parse_and_compare. rewrite Hfail.
      destruct (negb (Outlook.isRead e)),
               (negb (String.eqb (Outlook.receivedDateTime e) "")); reflexivity. }
    split; [exact Hnot|]. split.
    + intros st before after Hst. unfold Outlook.old_unread_of. rewrite Hst.
      by apply filter_skip.
    + intros d cats. split.
      * intros addr old_stats (st & _ & _ & Hold)%outlook_elem_of_old_unread.
        cbn [snd] in Hold. rewrite Hold. cbn. by apply not_elem_of_filter.
      * intros addr st e' Hin He' Hold.
        assert (Hmem : e' ∈ Outlook.old_unread_of utcnow fromisoformat st).
        { apply list_elem_of_In, List.filter_In. by rewrite <- list_elem_of_In. }
        exists (Outlook.make_old_stats st (Outlook.old_unread_of utcnow fromisoformat st)).
        split; [|exact Hmem].
        apply outlook_elem_of_old_unread. exists st. cbn [fst snd].
        split; [exact Hin|]. split; [|reflexivity].
        intros Hnil. rewrite Hnil in Hmem. by apply elem_of_nil in Hmem.
Qed.

Lemma unparsable_date_is_skipped_witness :
  let e := {| Gmail.id := "1"; Gmail.threadId := None; Gmail.from := "a@x.org";
              Gmail.subject := ""; Gmail.date := "yesterday"; Gmail.snippet := "";
              Gmail.labelIds := []; Gmail.isRead := false |} in
  let strptime (s fmt : string) : result datetime :=
    if String.eqb s "01 Jan 2020 10:00:00 +0000" && String.eqb fmt "%d %b %Y %H:%M:%S %z"
    then Ok {| naive := 0; tzinfo := Some 0%Z |} else Raise ValueError in
  (forall fmt, fmt ∈ Gmail.DATE_FORMATS ->
     exists err, strptime (Py.take 31 (Gmail.date e)) fmt = Raise err)
  /\ Gmail.is_old_unread 5000000000000 strptime e = false.
Proof.
  intros e strptime.
  assert (Hfail : forall fmt, fmt ∈ Gmail.DATE_FORMATS ->
            exists err, strptime (Py.take 31 (Gmail.date e)) fmt = Raise err).
  { intros fmt _. exists ValueError. reflexivity. }
  split; [exact Hfail|].
  exact (proj1 (proj2 (proj1 unparsable_date_is_skipped 5000000000000%Z strptime e Hfail))).
Defined.

(** *** The derived record of old_unread *)

Section StoreFacts.
Context {V : Type}.

Lemma store_copy_fresh (h : Store.heap V) (obj : Store.loc) (v : V) :
  h !! obj = Some v ->
  exists new, Store.copy h obj = Some (<[new := v]> h, new) /\ h !! new = None.
Proof.
  intros Hobj. unfold Store.copy. rewrite Hobj. eexists. split; [reflexivity|].
  unfold Store.heap, Store.loc in *. apply not_elem_of_dom, is_fresh.
Qed.

(** A copy followed by two assignments to the copy: the object copied and
    every other object of the heap are as before, and the new object is
    the old one with the two items changed. *)
Lemma store_copy_set_set (h : Store.heap V) (obj : Store.loc) (v : V) (f g : V -> V) :
  h !! obj = Some v ->
  exists new,
    Store.copy h obj = Some (<[new := v]> h, new)
    /\ h !! new = None
    /\ Store.setitem (Store.setitem (<[new := v]> h) new f) new g !! new = Some (g (f v))
    /\ (forall r, is_Some (h !! r) ->
          Store.setitem (Store.setitem (<[new := v]> h) new f) new g !! r = h !! r).
Proof.
  intros Hobj. destruct (store_copy_fresh h obj v Hobj) as (new & Hcopy & Hnew).
  exists new. split; [exact Hcopy|]. split; [exact Hnew|].
  unfold Store.setitem, Store.heap, Store.loc in *. split.
  - rewrite !lookup_alter_eq, lookup_insert_eq. reflexivity.
  - intros r [w Hr]. assert (r <> new) by congruence.
    rewrite !lookup_alter_ne, lookup_insert_ne by done. reflexivity.
Qed.

End StoreFacts.

Example gmail_copy_does_not_touch_the_original :
  let st := Gmail.set_total 7 Gmail.new_stats in
  let h : Store.heap Gmail.stats := {[ 1%positive := st ]} in
  ('(h', old_stats) ← Gmail.make_old_stats_ref h 1%positive [];
   Some (Gmail.total <$> h' !! 1%positive, Gmail.total <$> h' !! old_stats))
  = Some (Some 7, Some 0).
Proof. vm_compute. reflexivity. Qed.

(** C10.  Every entry [(addr, old_stats)] of [old_unread] comes from an
    entry [(addr, st)] of [sender_stats]: its [emails] are the old unread
    messages of [st], its [total] is their number, and every other item has
    the value it has in [st].  The other categories list records of
    [sender_stats] itself, so the record of the sender is not changed by
    the derivation.  On the heap: [stats.copy()] followed by the two
    assignments yields a new object, one that was not in the heap, with the
    value of [make_old_stats], and leaves the object copied and every other
    object as they were. *)
Theorem old_unread_record_is_a_changed_copy :
  (forall utcnow strptime (sender_stats : Dict.t Gmail.stats),
     let cats := Gmail.categorize_senders utcnow strptime sender_stats in
     (forall addr old_stats,
        (addr, old_stats) ∈ Gmail.senders (Gmail.old_unread cats) ->
        exists st,
          (addr, st) ∈ sender_stats
          /\ Gmail.emails old_stats = Gmail.old_unread_of utcnow strptime st
          /\ Gmail.total old_stats = length (Gmail.emails old_stats)
          /\ Gmail.read old_stats = Gmail.read st
          /\ Gmail.unread old_stats = Gmail.unread st
          /\ Gmail.read_rate old_stats = Gmail.read_rate st
          /\ Gmail.name old_stats = Gmail.name st
          /\ Gmail.oldest old_stats = Gmail.oldest st
          /\ Gmail.newest old_stats = Gmail.newest st
          /\ Gmail.marketing_score old_stats = Gmail.marketing_score st
          /\ Gmail.is_promotional old_stats = Gmail.is_promotional st)
     /\ (forall cat kv,
           cat ∈ Gmail.other_categories cats
                 ++ [Gmail.never_opened cats; Gmail.rarely_opened cats] ->
           kv ∈ Gmail.senders cat -> kv ∈ sender_stats))
  /\
  (forall (h : Store.heap Gmail.stats) stats_ref st old_unread_emails,
     h !! stats_ref = Some st ->
     exists h' old_stats_ref,
       Gmail.make_old_stats_ref h stats_ref old_unread_emails = Some (h', old_stats_ref)
       /\ h !! old_stats_ref = None
       /\ h' !! old_stats_ref = Some (Gmail.make_old_stats st old_unread_emails)
       /\ h' !! stats_ref = Some st
       /\ (forall r, is_Some (h !! r) -> h' !! r = h !! r))
  /\
  (forall utcnow fromisoformat (sender_stats : Dict.t Outlook.stats),
     let cats := Outlook.categorize_senders utcnow fromisoformat sender_stats in
     (forall addr old_stats,
        (addr, old_stats) ∈ Outlook.senders (Outlook.old_unread cats) ->
        exists st,
          (addr, st) ∈ sender_stats
          /\ Outlook.emails old_stats = Outlook.old_unread_of utcnow fromisoformat st
          /\ Outlook.total old_stats = length (Outlook.emails old_stats)
          /\ Outlook.read old_stats = Outlook.read st
          /\ Outlook.unread old_stats = Outlook.unread st
          /\ Outlook.read_rate old_stats = Outlook.read_rate st
          /\ Outlook.name old_stats = Outlook.name st
          /\ Outlook.oldest old_stats = Outlook.oldest st
          /\ Outlook.newest old_stats = Outlook.newest st
          /\ Outlook.marketing_score old_stats = Outlook.marketing_score st)
     /\ (forall cat kv,
           cat ∈ Outlook.other_categories cats
                 ++ [Outlook.never_opened cats; Outlook.rarely_opened cats] ->
           kv ∈ Outlook.senders cat -> kv ∈ sender_stats))
  /\
  (forall (h : Store.heap Outlook.stats) stats_ref st old_unread_emails,
     h !! stats_ref = Some st ->
     exists h' old_stats_ref,
       Outlook.make_old_stats_ref h stats_ref old_unread_emails = Some (h', old_stats_ref)
       /\ h !! old_stats_ref = None
       /\ h' !! old_stats_ref = Some (Outlook.make_old_stats st old_unread_emails)
       /\ h' !! stats_ref = Some st
       /\ (forall r, is_Some (h !! r) -> h' !! r = h !! r)).
Proof.
  split; [|split; [|split]].
  - intros utcnow parser d cats. split.
    + intros addr old_stats (st & Hin & _ & Hold)%gmail_elem_of_old_unread.
      cbn [fst snd] in *. subst old_stats. exists st.
      split; [exact Hin|]. cbn. repeat split.
    + intros cat kv. apply gmail_global_records.
  - intros h stats_ref st olds Hst.
    destruct (store_copy_set_set h stats_ref st (Gmail.set_emails olds)
                (Gmail.set_total (length olds)) Hst)
      as (new & Hcopy & Hnew & Hread & Hframe).
    eexists _, new. unfold Gmail.make_old_stats_ref. rewrite Hcopy. cbn.
    split; [reflexivity|]. split; [exact Hnew|]. split; [exact Hread|].
    split; [|exact Hframe]. rewrite Hframe by eauto. exact Hst.
  - intros utcnow parser d cats. split.
    + intros addr old_stats (st & Hin & _ & Hold)%outlook_elem_of_old_unread.
      cbn [fst snd] in *. subst old_stats. exists st.
      split; [exact Hin|]. cbn. repeat split.
    + intros cat kv. apply outlook_global_records.
  - intros h stats_ref st olds Hst.
    destruct (store_copy_set_set h stats_ref st (Outlook.set_emails olds)
                (Outlook.set_total (length olds)) Hst)
      as (new & Hcopy & Hnew & Hread & Hframe).
    eexists _, new. unfold Outlook.make_old_stats_ref. rewrite Hcopy. cbn.
    split; [reflexivity|]. split; [exact Hnew|]. split; [exact Hread|].
    split; [|exact Hframe]. rewrite Hframe by eauto. exact Hst.
Qed.

Lemma old_unread_record_is_a_changed_copy_witness :
  let st := Outlook.set_total 7 Outlook.new_stats in
  let h : Store.heap Outlook.stats := {[ 1%positive := st ]} in
  h !! 1%positive = Some st
  /\ exists h' old_stats_ref,
       Outlook.make_old_stats_ref h 1%positive [] = Some (h', old_stats_ref)
       /\ h' !! 1%positive = Some st.
Proof.
  intros st h.
  assert (Hst : h !! 1%positive = Some st) by reflexivity.
  split; [exact Hst|].
  destruct (proj2 (proj2 (proj2 old_unread_record_is_a_changed_copy))
              h 1%positive st [] Hst) as (h' & new & Hrun & _ & _ & Hsame & _).
  exists h', new. split; [exact Hrun|exact Hsame].
Defined.

(** ** The selection expression *)

Example select_examples :
  Selection.select "2-4" ["a"; "b"; "c"; "d"; "e"] = ["b"; "c"; "d"]
  /\ Selection.select " 1, 3,5,9, 0" ["a"; "b"; "c"; "d"; "e"] = ["a"; "c"; "e"]
  /\ Selection.select "ALL" ["a"; "b"; "c"; "d"; "e"] = ["a"; "b"; "c"; "d"; "e"]
  /\ Selection.select "1-2-3" ["a"; "b"; "c"; "d"; "e"] = []
  /\ Selection.select "two" ["a"; "b"; "c"; "d"; "e"] = []
  /\ Selection.select "-2" ["a"; "b"; "c"; "d"; "e"] = []
  /\ Selection.select "7-9" ["a"; "b"; "c"; "d"; "e"] = []
  /\ Selection.select "4-9" ["a"; "b"; "c"; "d"; "e"] = ["d"; "e"].
Proof. repeat split; reflexivity. Qed.

Lemma getitem_in_range {A} (l : list A) (i : Z) :
  (0 <= i < Z.of_nat (length l))%Z -> exists x, getitem l i = Ok x.
Proof.
  intros Hi. unfold getitem.
  destruct (i <? 0)%Z eqn:Hneg; [apply Z.ltb_lt in Hneg; lia|]. rewrite Hneg.
  destruct (nth_error l (Z.to_nat i)) as [x|] eqn:Hnth; [by eexists|].
  apply nth_error_None in Hnth. lia.
Qed.

(** The guard [0 < n <= len(displayed)] keeps [displayed[n-1]] in range. *)
Lemma pick_never_raises {A} (displayed : list A) (nums : list Z) :
  exists selected, Selection.pick displayed nums = Ok selected.
Proof.
  unfold Selection.pick.
  induction nums as [|n nums [l IH]]; cbn [List.filter for_each]; [by eexists|].
  destruct ((0 <? n)%Z && (n <=? Z.of_nat (length displayed))%Z) eqn:Hguard;
    [|by eexists].
  apply andb_true_iff in Hguard as [Hlo%Z.ltb_lt Hhi%Z.leb_le].
  cbn [for_each].
  destruct (getitem_in_range displayed (n - 1)) as [x ->]; [lia|].
  cbn. rewrite IH. by eexists.
Qed.

(** The first half of C7 holds: an expression that is not [all] and that
    the branch chosen for it cannot parse selects nothing, and nothing is
    raised. *)
Lemma select_malformed_is_empty {A} (raw : string) (displayed : list A) :
  let sel := Py.lower (Py.strip raw) in
  sel <> "all" ->
  (if Py.has_char "-" sel && negb (Py.has_char "," sel)
   then exists err, Selection.parse_range sel = Raise err
   else exists err, Selection.parse_list sel = Raise err) ->
  Selection.select raw displayed = [].
Proof.
  intros sel Hall Hbad. unfold Selection.select. fold sel.
  destruct (String.eqb sel "all") eqn:Heq; [by apply String.eqb_eq in Heq|].
  destruct (Py.has_char "-" sel && negb (Py.has_char "," sel));
    destruct Hbad as [err ->]; reflexivity.
Qed.

(** The comma list drops the number 0 ... *)
Example select_list_drops_zero {A} (d1 d2 d3 d4 d5 : A) :
  Selection.select "0,1" [d1; d2; d3; d4; d5] = [d1].
Proof. reflexivity. Qed.

(** C7, second half, on the code.  ... but the range does not: for [0-10]
    the slice is [displayed[-1:10]], and on five entries that is the last
    entry alone. *)
Theorem select_range_from_zero_is_the_last_entry {A} (d1 d2 d3 d4 d5 : A) :
  Selection.parse_range "0-10" = Ok (0, 10)%Z
  /\ Py.slice (0 - 1) 10 [d1; d2; d3; d4; d5] = [d5]
  /\ Selection.select "0-10" [d1; d2; d3; d4; d5] = [d5].
Proof. repeat split; reflexivity. Qed.

(** ** The marketing classifier *)

Lemma prefix_app_l (k a b : string) :
  String.prefix k a = true -> String.prefix k (a +:+ b) = true.
Proof.
  revert k. induction a as [|c a IH]; intros [|d k]; simpl; try done.
  - by destruct b.
  - destruct (ascii_dec d c); [apply IH|done].
Qed.

Lemma contains_app_l (k a b : string) :
  Py.contains k a = true -> Py.contains k (a +:+ b) = true.
Proof.
  induction a as [|c a IH]; cbn [Py.contains].
  - rewrite orb_false_r. intros H. destruct k; [|discriminate H].
    by destruct b.
  - intros [H|H]%orb_true_iff; change (String c a +:+ b) with (String c (a +:+ b));
      cbn [Py.contains]; apply orb_true_iff.
    + left. by apply (prefix_app_l k (String c a) b).
    + right. by apply IH.
Qed.

Lemma contains_app_r (k a b : string) :
  Py.contains k b = true -> Py.contains k (a +:+ b) = true.
Proof.
  intros H. induction a as [|c a IH]; [exact H|].
  change (String c a +:+ b) with (String c (a +:+ b)).
  cbn [Py.contains]. rewrite IH. apply orb_true_r.
Qed.

Lemma prefix_lower (k s : string) :
  String.prefix k s = true -> String.prefix (Py.lower k) (Py.lower s) = true.
Proof.
  revert k. induction s as [|c s IH]; intros [|d k]; cbn; try done.
  destruct (ascii_dec d c) as [->|]; [|done]. intros H.
  destruct (ascii_dec (Py.lower_char c) (Py.lower_char c)); [by apply IH|done].
Qed.

Lemma contains_lower (k s : string) :
  Py.contains k s = true -> Py.contains (Py.lower k) (Py.lower s) = true.
Proof.
  induction s as [|c s IH]; cbn [Py.contains Py.lower].
  - rewrite !orb_false_r. apply (prefix_lower k "").
  - intros [H|H]%orb_true_iff; apply orb_true_iff.
    + left. by apply (prefix_lower k (String c s)).
    + right. by apply IH.
Qed.

Lemma keyword_matches_count (text : string) :
  keyword_matches text = count_true (fun k => Py.contains k text) MARKETING_KEYWORDS.
Proof.
  unfold keyword_matches.
  assert (H : forall l n,
             fold_left (fun n k => if Py.contains k text then n + 1 else n) l n
             = n + count_true (fun k => Py.contains k text) l).
  { induction l as [|k l IH]; intros n; cbn [fold_left count_true]; [lia|].
    rewrite IH. destruct (Py.contains k text); lia. }
  apply H.
Qed.

(** The score is a sum of four terms, one per rule. *)
Lemma score_rules_sum (domains : list string) (sender_email sender_name text : string) :
  (score_rules domains sender_email sender_name text).1
  = (match find (fun pattern => Py.contains pattern sender_email
                                || Py.contains pattern sender_name)
                MARKETING_SENDER_PATTERNS with Some _ => 2 | None => 0 end)
    + (match find (fun domain => Py.contains domain sender_email) domains with
       | Some _ => 3 | None => 0 end)
    + (if 3 <=? keyword_matches text then 4
       else if 1 <=? keyword_matches text then 2 else 0)
    + (if Py.contains "unsubscribe" text then 3 else 0).
Proof.
  unfold score_rules.
  destruct (find _ MARKETING_SENDER_PATTERNS), (find _ domains),
    (3 <=? keyword_matches text), (1 <=? keyword_matches text),
    (Py.contains "unsubscribe" text); reflexivity.
Qed.

(** Four of the keywords are in the text whatever else the snippet says. *)
Lemma offer_text_keywords (subject snippet : string) :
  Py.contains "exclusive offer" subject = true ->
  Py.contains "don't miss" subject = true ->
  Py.contains "sale" subject = true ->
  Py.contains "unsubscribe" snippet = true ->
  let text := subject +:+ " " +:+ snippet in
  Py.contains "unsubscribe" text = true /\ 3 <= keyword_matches text.
Proof.
  intros Hoffer Hmiss Hsale Hunsub text.
  assert (Hu : Py.contains "unsubscribe" text = true).
  { apply contains_app_r. by apply (contains_app_r _ " "). }
  split; [exact Hu|].
  rewrite keyword_matches_count. unfold MARKETING_KEYWORDS. cbn [count_true].
  rewrite Hu.
  rewrite (contains_app_l "exclusive offer" subject _ Hoffer : Py.contains _ text = true).
  rewrite (contains_app_l "don't miss" subject _ Hmiss : Py.contains _ text = true).
  rewrite (contains_app_l "sale" subject _ Hsale : Py.contains _ text = true).
  repeat match goal with
         | |- context [if Py.contains ?k text then 1 else 0] =>
             generalize (if Py.contains k text then 1 else 0); intro
         end.
  lia.
Qed.

Lemma find_is_some {A} (f : A -> bool) (l : list A) (x : A) :
  In x l -> f x = true -> exists y, find f l = Some y.
Proof.
  intros Hin Hfx. destruct (find f l) as [y|] eqn:Hfind; [by eexists|].
  pose proof (find_none f l Hfind x Hin). congruence.
Qed.

(** C8.  The message from [newsletter@shein.com] with the subject of the
    scenario, a snippet that contains [unsubscribe] and no label scores 12
    (2 for the sender pattern, 3 for the domain, 4 for the keywords, 3 for
    [unsubscribe]), hence at least 10, and is classified as marketing; for
    Outlook whatever the display name is. *)
Theorem shein_offer_is_marketing :
  (forall (i : string) (t : option string) (d snippet : string) (r : bool),
     Py.contains "unsubscribe" snippet = true ->
     let e := {| Gmail.id := i; Gmail.threadId := t;
                 Gmail.from := "newsletter@shein.com";
                 Gmail.subject := "Exclusive Offer — Don't Miss This Sale!";
                 Gmail.date := d; Gmail.snippet := snippet;
                 Gmail.labelIds := []; Gmail.isRead := r |} in
     (Gmail.is_marketing_email e).1.1 = true
     /\ 10 <= (Gmail.is_marketing_email e).1.2
     /\ (Gmail.is_marketing_email e).1.2 = 12)
  /\
  (forall (i d snippet : string) (display_name : option string) (r : bool),
     Py.contains "unsubscribe" snippet = true ->
     let e := {| Outlook.id := i;
                 Outlook.subject := Some "Exclusive Offer — Don't Miss This Sale!";
                 Outlook.from :=
                   Some {| Outlook.emailAddress :=
                             Some {| Outlook.address := Some "newsletter@shein.com";
                                     Outlook.name_ := display_name |} |};
                 Outlook.receivedDateTime := d; Outlook.isRead := r;
                 Outlook.bodyPreview := Some snippet |} in
     (Outlook.is_marketing_email e).1.1 = true
     /\ 10 <= (Outlook.is_marketing_email e).1.2
     /\ (Outlook.is_marketing_email e).1.2 = 12).
Proof.
  split.
  - intros i t d snippet r Hunsub e.
    destruct (offer_text_keywords
                (Py.lower "Exclusive Offer — Don't Miss This Sale!") (Py.lower snippet))
      as [Hu Hk]; try reflexivity.
    { by apply (contains_lower "unsubscribe"). }
    assert (Hscore : (Gmail.is_marketing_email e).1.2 = 12).
    { unfold Gmail.is_marketing_email. subst e. cbn [Gmail.from Gmail.labelIds
        Gmail.subject Gmail.snippet].
      change (Gmail.parse_sender "newsletter@shein.com")
        with ("newsletter@shein.com", "newsletter@shein.com").
      cbn [bool_decide decide_rel].
      rewrite !bool_decide_eq_false_2 by (apply not_elem_of_nil).
      pose proof (score_rules_sum Gmail.KNOWN_MARKETING_DOMAINS
                    "newsletter@shein.com" (Py.lower "newsletter@shein.com")
                    (Py.lower "Exclusive Offer — Don't Miss This Sale!"
                     +:+ " " +:+ Py.lower snippet)) as Hsum.
      destruct (score_rules _ _ _ _) as [score reasons]. cbn [fst snd] in *.
      rewrite Hsum, Hu. apply Nat.leb_le in Hk. rewrite Hk. reflexivity. }
    assert (Hflag : (Gmail.is_marketing_email e).1.1
                    = (3 <=? (Gmail.is_marketing_email e).1.2)).
    { unfold Gmail.is_marketing_email. subst e. cbn [Gmail.from Gmail.labelIds].
      change (Gmail.parse_sender "newsletter@shein.com")
        with ("newsletter@shein.com", "newsletter@shein.com").
      rewrite !bool_decide_eq_false_2 by (apply not_elem_of_nil).
      by destruct (score_rules _ _ _ _). }
    rewrite Hflag, Hscore. repeat split. lia.
  - intros i d snippet display_name r Hunsub e.
    destruct (offer_text_keywords
                (Py.lower "Exclusive Offer — Don't Miss This Sale!") (Py.lower snippet))
      as [Hu Hk]; try reflexivity.
    { by apply (contains_lower "unsubscribe"). }
    assert (Hscore : (Outlook.is_marketing_email e).1.2 = 12).
    { unfold Outlook.is_marketing_email, Outlook.sender_of. subst e.
      cbn [Outlook.from Outlook.subject Outlook.bodyPreview Outlook.emailAddress
           Outlook.address Outlook.name_ default].
      pose proof (score_rules_sum Outlook.KNOWN_MARKETING_DOMAINS
                    (Py.lower "newsletter@shein.com")
                    (Py.lower (default "" display_name))
                    (Py.lower "Exclusive Offer — Don't Miss This Sale!"
                     +:+ " " +:+ Py.lower snippet)) as Hsum.
      destruct (score_rules _ _ _ _) as [score reasons]. cbn [fst snd] in *.
      rewrite Hsum, Hu. apply Nat.leb_le in Hk. rewrite Hk.
      destruct (find_is_some
                  (fun pattern => Py.contains pattern (Py.lower "newsletter@shein.com")
                                  || Py.contains pattern (Py.lower (default "" display_name)))
                  MARKETING_SENDER_PATTERNS "newsletter") as [y ->].
      { cbn. tauto. }
      { reflexivity. }
      reflexivity. }
    assert (Hflag : (Outlook.is_marketing_email e).1.1
                    = (3 <=? (Outlook.is_marketing_email e).1.2)).
    { unfold Outlook.is_marketing_email. by destruct (score_rules _ _ _ _). }
    rewrite Hflag, Hscore. repeat split. lia.
Qed.

Lemma shein_offer_is_marketing_witness :
  Py.contains "unsubscribe" "Click to unsubscribe from these emails" = true
  /\ (Gmail.is_marketing_email
        {| Gmail.id := "18c2"; Gmail.threadId := None;
           Gmail.from := "newsletter@shein.com";
           Gmail.subject := "Exclusive Offer — Don't Miss This Sale!";
           Gmail.date := ""; Gmail.snippet := "Click to unsubscribe from these emails";
           Gmail.labelIds := []; Gmail.isRead := false |}).1.2 = 12.
Proof.
  split; [reflexivity|].
  apply (proj1 shein_offer_is_marketing "18c2" None ""
           "Click to unsubscribe from these emails" false).
  reflexivity.
Defined.

(** * Further properties of the code *)

(** ** Dictionaries filled by a loop *)

Section DictGetFacts.
Context {V : Type}.

Lemma dict_get_update (a k : string) (dflt : V) (f : V -> V) (d : Dict.t V) :
  Dict.get a (Dict.update k dflt f d)
  = if String.eqb k a then Some (f (default dflt (Dict.get k d))) else Dict.get a d.
Proof.
  induction d as [|[k0 v] d IH]; cbn [Dict.update Dict.get].
  - destruct (String.eqb k a); reflexivity.
  - destruct (String.eqb k0 k) eqn:Hk0; cbn [Dict.get default].
    + apply String.eqb_eq in Hk0 as ->. destruct (String.eqb k a); reflexivity.
    + rewrite IH. destruct (String.eqb k0 a) eqn:Ha; [|reflexivity].
      apply String.eqb_eq in Ha as ->. rewrite String.eqb_sym, Hk0. reflexivity.
Qed.

Lemma dict_keys_update (k : string) (dflt : V) (f : V -> V) (d : Dict.t V) :
  Dict.keys (Dict.update k dflt f d)
  = if bool_decide (k ∈ Dict.keys d) then Dict.keys d else Dict.keys d ++ [k].
Proof.
  unfold Dict.keys. induction d as [|[k0 v] d IH]; cbn [Dict.update map fst].
  - rewrite bool_decide_eq_false_2 by apply not_elem_of_nil. reflexivity.
  - destruct (String.eqb k0 k) eqn:Hk0; cbn [map fst].
    + apply String.eqb_eq in Hk0 as ->.
      rewrite bool_decide_eq_true_2 by left. reflexivity.
    + apply String.eqb_neq in Hk0. rewrite IH.
      destruct (bool_decide (k ∈ map fst d)) eqn:Hin.
      * apply bool_decide_eq_true in Hin.
        rewrite bool_decide_eq_true_2 by (by right). reflexivity.
      * apply bool_decide_eq_false in Hin.
        rewrite bool_decide_eq_false_2; [reflexivity|].
        intros [?|?]%elem_of_cons; congruence.
Qed.

Lemma dict_keys_update_NoDup (k : string) (dflt : V) (f : V -> V) (d : Dict.t V) :
  NoDup (Dict.keys d) -> NoDup (Dict.keys (Dict.update k dflt f d)).
Proof.
  intros Hd. rewrite dict_keys_update. case_bool_decide as Hin; [exact Hd|].
  apply NoDup_app. split; [exact Hd|]. split; [|apply NoDup_singleton].
  intros x Hx ->%list_elem_of_singleton. by apply Hin.
Qed.

Lemma dict_get_None (a : string) (d : Dict.t V) :
  Dict.get a d = None <-> a ∉ Dict.keys d.
Proof.
  unfold Dict.keys. induction d as [|[k v] d IH]; cbn [Dict.get map fst].
  - split; [intros _; apply not_elem_of_nil|reflexivity].
  - rewrite not_elem_of_cons. destruct (String.eqb k a) eqn:Hk.
    + apply String.eqb_eq in Hk as ->. split; [discriminate|]. by intros [? _].
    + apply String.eqb_neq in Hk. rewrite IH. split; [|tauto].
      intros ?. split; [congruence|done].
Qed.

(** With distinct keys the entries are what [get] finds. *)
Lemma dict_elem_of_get (a : string) (v : V) (d : Dict.t V) :
  NoDup (Dict.keys d) -> (a, v) ∈ d <-> Dict.get a d = Some v.
Proof.
  unfold Dict.keys. induction d as [|[k w] d IH]; cbn [Dict.get map fst].
  - intros _. split; [intros []%elem_of_nil|discriminate].
  - intros [Hk Hd]%NoDup_cons. rewrite elem_of_cons.
    destruct (String.eqb k a) eqn:Hka.
    + apply String.eqb_eq in Hka as ->. split.
      * intros [[= ->]|Hin]; [reflexivity|].
        exfalso. apply Hk. apply (list_elem_of_fmap_2 fst) in Hin. exact Hin.
      * intros [= ->]. by left.
    + apply String.eqb_neq in Hka. rewrite <- (IH Hd). split.
      * intros [[= -> ->]|Hin]; [done|exact Hin].
      * by right.
Qed.

Lemma dict_get_map (h : V -> V) (a : string) (d : Dict.t V) :
  Dict.get a (map (fun kv => (kv.1, h kv.2)) d) = h <$> Dict.get a d.
Proof.
  induction d as [|[k v] d IH]; cbn [map Dict.get fst snd]; [reflexivity|].
  destruct (String.eqb k a); [reflexivity|exact IH].
Qed.

Lemma dict_keys_map (h : V -> V) (d : Dict.t V) :
  Dict.keys (map (fun kv => (kv.1, h kv.2)) d) = Dict.keys d.
Proof. unfold Dict.keys. rewrite map_map. reflexivity. Qed.

End DictGetFacts.

Section DictLoopFacts.
Context {E V : Type}.
Variable key : E -> string.
Variable dflt : V.
Variable step : E -> V -> V.
Variable loop_body : Dict.t V -> E -> Dict.t V.
Hypothesis loop_body_update :
  forall d e, loop_body d e = Dict.update (key e) dflt (step e) d.

Local Notation filed a l := (List.filter (fun e => String.eqb (key e) a) l).

Lemma dict_loop_NoDup (l : list E) : forall d,
  NoDup (Dict.keys d) -> NoDup (Dict.keys (fold_left loop_body l d)).
Proof.
  induction l as [|e l IH]; intros d Hd; [exact Hd|].
  cbn [fold_left]. apply IH. rewrite loop_body_update.
  by apply dict_keys_update_NoDup.
Qed.

(** The object of a key after the loop: the updates of the elements filed
    under the key, applied in order to what the key held (or to the default
    object). *)
Lemma dict_loop_get (a : string) (l : list E) : forall d,
  Dict.get a (fold_left loop_body l d)
  = match filed a l with
    | [] => Dict.get a d
    | _ :: _ => Some (fold_left (fun v e => step e v) (filed a l)
                                (default dflt (Dict.get a d)))
    end.
Proof.
  induction l as [|e l IH]; intros d; [reflexivity|].
  cbn [fold_left List.filter]. rewrite IH, loop_body_update, dict_get_update.
  destruct (String.eqb (key e) a) eqn:Hk.
  - apply String.eqb_eq in Hk as <-. cbn [fold_left default].
    destruct (List.filter _ l); reflexivity.
  - reflexivity.
Qed.

Lemma dict_loop_keys (a : string) (l : list E) :
  a ∈ Dict.keys (fold_left loop_body l []) <-> exists e, e ∈ l /\ key e = a.
Proof.
  assert (Hiff : a ∈ Dict.keys (fold_left loop_body l [])
                 <-> Dict.get a (fold_left loop_body l []) <> None).
  { rewrite dict_get_None. split; [auto|apply dec_stable]. }
  rewrite Hiff, dict_loop_get. cbn [Dict.get]. split.
  - intros Hsome. destruct (filed a l) as [|e l'] eqn:Hf; [done|].
    assert (Hin : In e (filed a l)) by (rewrite Hf; left; reflexivity).
    apply List.filter_In in Hin as [Hin Hk]. exists e.
    split; [by apply list_elem_of_In|by apply String.eqb_eq].
  - intros (e & Hin & Hk) Hnone.
    assert (Hf : In e (filed a l)).
    { apply List.filter_In. split; [by apply list_elem_of_In|by apply String.eqb_eq]. }
    destruct (filed a l); [destruct Hf|discriminate].
Qed.

End DictLoopFacts.

Lemma fold_left_snoc {E : Type} (l : list E) (acc : list E) :
  fold_left (fun t e => t ++ [e]) l acc = acc ++ l.
Proof.
  revert acc. induction l as [|e l IH]; intros acc; cbn [fold_left];
    [by rewrite app_nil_r|].
  rewrite IH, <- app_assoc. reflexivity.
Qed.

(** What a loop leaves in one item of a record, when each turn changes the
    item by [g] whatever the rest of the record is. *)
Lemma fold_left_item {E V T : Type} (step : E -> V -> V) (item : V -> T)
    (g : E -> T -> T) (l : list E) :
  (forall e v, item (step e v) = g e (item v)) ->
  forall v, item (fold_left (fun v e => step e v) l v)
            = fold_left (fun t e => g e t) l (item v).
Proof.
  intros Hg. induction l as [|e l IH]; intros v; [reflexivity|].
  cbn [fold_left]. rewrite IH, Hg. reflexivity.
Qed.

(** ** What [analyze_emails] files under a sender (Gmail) *)

Section GmailFiling.
Import Gmail.

Local Notation filed a l := (List.filter (fun e => String.eqb (addr_of e) a) l).
Local Notation record_all l := (fold_left (fun v e => record_email e v) l new_stats).

Lemma gmail_analyze_step_update (d : Dict.t stats) (e : email) :
  analyze_step d e = Dict.update (addr_of e) new_stats (record_email e) d.
Proof.
  unfold analyze_step, addr_of. destruct (parse_sender (from e)). reflexivity.
Qed.

(** The dictionary returned: distinct keys, the senders of the messages,
    and under each the record of its own messages, in order, with the read
    rate set. *)
Lemma gmail_analyze_emails_structure (emails : list email) :
  exists d,
    analyze_emails emails = Ok d
    /\ NoDup (Dict.keys d)
    /\ (forall a, a ∈ Dict.keys d <-> exists e, e ∈ emails /\ addr_of e = a)
    /\ (forall a st, (a, st) ∈ d ->
          filed a emails <> [] /\ st = with_read_rate (record_all (filed a emails))).
Proof.
  eexists. split; [apply gmail_analyze_emails_ok|].
  set (d0 := fold_left analyze_step emails []).
  assert (Hnd : NoDup (Dict.keys d0)).
  { apply (dict_loop_NoDup addr_of new_stats record_email analyze_step
             gmail_analyze_step_update). constructor. }
  split; [by rewrite dict_keys_map|]. split.
  - intros a. rewrite dict_keys_map.
    apply (dict_loop_keys addr_of new_stats record_email analyze_step
             gmail_analyze_step_update).
  - intros a st Hin. apply dict_elem_of_get in Hin; [|by rewrite dict_keys_map].
    rewrite dict_get_map in Hin. subst d0.
    rewrite (dict_loop_get addr_of new_stats record_email analyze_step
               gmail_analyze_step_update) in Hin.
    cbn [Dict.get default] in Hin.
    destruct (filed a emails) as [|e l]; [discriminate|].
    injection Hin as <-. split; [discriminate|reflexivity].
Qed.

Lemma gmail_record_all_emails (l : list email) : emails (record_all l) = l.
Proof.
  rewrite (fold_left_item _ emails (fun e t => t ++ [e]))
    by (intros; apply gmail_record_email_counts).
  apply fold_left_snoc.
Qed.

Lemma gmail_with_read_rate_items (st : stats) :
  emails (with_read_rate st) = emails st
  /\ read (with_read_rate st) = read st
  /\ unread (with_read_rate st) = unread st
  /\ marketing_score (with_read_rate st) = marketing_score st
  /\ name (with_read_rate st) = name st
  /\ oldest (with_read_rate st) = oldest st
  /\ newest (with_read_rate st) = newest st
  /\ is_promotional (with_read_rate st) = is_promotional st.
Proof. unfold with_read_rate. destruct (0 <? total st); repeat split. Qed.

Lemma gmail_record_email_items (e : email) (st : stats) :
  marketing_score (record_email e st)
    = Py.max (marketing_score st) (is_marketing_email e).1.2
  /\ read (record_email e st) = (if isRead e then read st + 1 else read st)
  /\ unread (record_email e st) = (if isRead e then unread st else unread st + 1)
  /\ name (record_email e st) = (parse_sender (from e)).2
  /\ is_promotional (record_email e st)
     = (if bool_decide ("CATEGORY_PROMOTIONS" ∈ labelIds e) then true
        else is_promotional st).
Proof.
  unfold record_email. destruct (parse_sender (from e)) as [sender_email sender_name].
  destruct (is_marketing_email e) as [[is_marketing score] reasons].
  repeat split.
Qed.

End GmailFiling.

(** ** What [analyze_emails] files under a sender (Outlook) *)

Section OutlookFiling.
Import Outlook.

Local Notation filed a l := (List.filter (fun e => String.eqb (addr_of e) a) l).
Local Notation record_all l := (fold_left (fun v e => record_email e v) l new_stats).

Lemma outlook_analyze_step_update (d : Dict.t stats) (e : email) :
  analyze_step d e = Dict.update (addr_of e) new_stats (record_email e) d.
Proof.
  unfold analyze_step. reflexivity.
Qed.

(** The dictionary returned: distinct keys, the senders of the messages,
    and under each the record of its own messages, in order, with the read
    rate set. *)
Lemma outlook_analyze_emails_structure (emails : list email) :
  exists d,
    analyze_emails emails = Ok d
    /\ NoDup (Dict.keys d)
    /\ (forall a, a ∈ Dict.keys d <-> exists e, e ∈ emails /\ addr_of e = a)
    /\ (forall a st, (a, st) ∈ d ->
          filed a emails <> [] /\ st = with_read_rate (record_all (filed a emails))).
Proof.
  eexists. split; [apply outlook_analyze_emails_ok|].
  set (d0 := fold_left analyze_step emails []).
  assert (Hnd : NoDup (Dict.keys d0)).
  { apply (dict_loop_NoDup addr_of new_stats record_email analyze_step
             outlook_analyze_step_update). constructor. }
  split; [by rewrite dict_keys_map|]. split.
  - intros a. rewrite dict_keys_map.
    apply (dict_loop_keys addr_of new_stats record_email analyze_step
             outlook_analyze_step_update).
  - intros a st Hin. apply dict_elem_of_get in Hin; [|by rewrite dict_keys_map].
    rewrite dict_get_map in Hin. subst d0.
    rewrite (dict_loop_get addr_of new_stats record_email analyze_step
               outlook_analyze_step_update) in Hin.
    cbn [Dict.get default] in Hin.
    destruct (filed a emails) as [|e l]; [discriminate|].
    injection Hin as <-. split; [discriminate|reflexivity].
Qed.

Lemma outlook_record_all_emails (l : list email) : emails (record_all l) = l.
Proof.
  rewrite (fold_left_item _ emails (fun e t => t ++ [e]))
    by (intros; apply outlook_record_email_counts).
  apply fold_left_snoc.
Qed.

Lemma outlook_with_read_rate_items (st : stats) :
  emails (with_read_rate st) = emails st
  /\ read (with_read_rate st) = read st
  /\ unread (with_read_rate st) = unread st
  /\ marketing_score (with_read_rate st) = marketing_score st
  /\ name (with_read_rate st) = name st
  /\ oldest (with_read_rate st) = oldest st
  /\ newest (with_read_rate st) = newest st.
Proof. unfold with_read_rate. destruct (0 <? total st); repeat split. Qed.

Lemma outlook_record_email_items (e : email) (st : stats) :
  marketing_score (record_email e st)
    = Py.max (marketing_score st) (is_marketing_email e).1.2
  /\ read (record_email e st) = (if isRead e then read st + 1 else read st)
  /\ unread (record_email e st) = (if isRead e then unread st else unread st + 1)
  /\ name (record_email e st) = default (addr_of e) (name_ (sender_of e)).
Proof.
  unfold record_email.
  destruct (is_marketing_email e) as [[is_marketing score] reasons].
  repeat split.
Qed.

End OutlookFiling.

(** ** Items of a sender's record *)

Lemma py_max_spec (a b : nat) : Py.max a b = Nat.max a b.
Proof. unfold Py.max. destruct (a <? b) eqn:H; [apply Nat.ltb_lt in H|apply Nat.ltb_ge in H]; lia. Qed.

Lemma fold_left_max {E : Type} (f : E -> nat) (l : list E) (t0 : nat) :
  let m := fold_left (fun t e => Py.max t (f e)) l t0 in
  t0 <= m /\ (forall e, e ∈ l -> f e <= m) /\ (m = t0 \/ exists e, e ∈ l /\ m = f e).
Proof.
  revert t0. induction l as [|e l IH]; intros t0; cbn [fold_left].
  - split; [lia|]. split; [intros e []%elem_of_nil|by left].
  - destruct (IH (Py.max t0 (f e))) as (Hge & Hall & Hatt).
    rewrite py_max_spec in *. cbn zeta.
    set (m := fold_left _ l (t0 `max` f e)) in *. split; [lia|]. split.
    + intros e' [->|Hin]%elem_of_cons; [lia|by apply Hall].
    + destruct Hatt as [Heq|(e' & Hin & Heq)].
      * destruct (Nat.max_spec t0 (f e)) as [[_ Hm]|[_ Hm]].
        -- right. exists e. split; [left|lia].
        -- left. lia.
      * right. exists e'. split; [by right|exact Heq].
Qed.

Lemma fold_left_count {E : Type} (b : E -> bool) (l : list E) (t0 : nat) :
  fold_left (fun t e => if b e then t + 1 else t) l t0 = t0 + count_true b l.
Proof.
  revert t0. induction l as [|e l IH]; intros t0; cbn [fold_left count_true]; [lia|].
  rewrite IH. destruct (b e); lia.
Qed.

Lemma fold_left_last {E T : Type} (f : E -> T) (l : list E) (t0 : T) :
  fold_left (fun _ e => f e) l t0 = from_option f t0 (last l).
Proof.
  induction l as [|e l _] using rev_ind; [reflexivity|].
  rewrite fold_left_app, last_snoc. reflexivity.
Qed.

Lemma fold_left_any {E : Type} (b : E -> bool) (l : list E) (t0 : bool) :
  fold_left (fun t e => if b e then true else t) l t0 = true
  <-> t0 = true \/ exists e, e ∈ l /\ b e = true.
Proof.
  revert t0. induction l as [|e l IH]; intros t0; cbn [fold_left].
  - split; [by left|]. intros [?|(e & []%elem_of_nil & _)]; done.
  - rewrite IH. split.
    + intros [Ht|(e' & Hin & Hb)].
      * destruct (b e) eqn:Hbe; [|by left]. right. exists e. split; [left|done].
      * right. exists e'. split; [by right|done].
    + intros [->|(e' & [->|Hin]%elem_of_cons & Hb)].
      * left. by destruct (b e).
      * left. by rewrite Hb.
      * right. eauto.
Qed.

Section GmailItems.
Import Gmail.

Local Notation filed a l := (List.filter (fun e => String.eqb (addr_of e) a) l).
Local Notation record_all l := (fold_left (fun v e => record_email e v) l new_stats).

Lemma gmail_record_all_score (l : list email) :
  marketing_score (record_all l)
  = fold_left (fun t e => Py.max t (is_marketing_email e).1.2) l 0.
Proof.
  by rewrite (fold_left_item _ marketing_score
                (fun e t => Py.max t (is_marketing_email e).1.2))
    by (intros; apply gmail_record_email_items).
Qed.

Lemma gmail_record_all_read (l : list email) :
  read (record_all l) = count_true isRead l
  /\ unread (record_all l) = count_true (fun e => negb (isRead e)) l.
Proof.
  split.
  - rewrite (fold_left_item _ read (fun e t => if isRead e then t + 1 else t))
      by (intros; apply gmail_record_email_items).
    apply (fold_left_count isRead l 0).
  - rewrite (fold_left_item _ unread (fun e t => if negb (isRead e) then t + 1 else t)).
    + apply (fold_left_count (fun e => negb (isRead e)) l 0).
    + intros e v. destruct (gmail_record_email_items e v) as (_ & _ & -> & _).
      by destruct (isRead e).
Qed.

Lemma gmail_record_all_name (l : list email) :
  name (record_all l) = from_option (fun e => (parse_sender (from e)).2) "" (last l).
Proof.
  rewrite (fold_left_item _ name (fun e _ => (parse_sender (from e)).2))
    by (intros; apply gmail_record_email_items).
  apply fold_left_last.
Qed.

Lemma gmail_record_all_promotional (l : list email) :
  is_promotional (record_all l) = true
  <-> exists e, e ∈ l /\ "CATEGORY_PROMOTIONS" ∈ labelIds e.
Proof.
  rewrite (fold_left_item _ is_promotional
             (fun e t => if bool_decide ("CATEGORY_PROMOTIONS" ∈ labelIds e)
                         then true else t))
    by (intros; apply gmail_record_email_items).
  rewrite fold_left_any. cbn [is_promotional new_stats]. split.
  - intros [?|(e & Hin & Hb%bool_decide_eq_true)]; [done|eauto].
  - intros (e & Hin & Hb). right. exists e. by rewrite bool_decide_eq_true.
Qed.

End GmailItems.

Section OutlookItems.
Import Outlook.

Local Notation filed a l := (List.filter (fun e => String.eqb (addr_of e) a) l).
Local Notation record_all l := (fold_left (fun v e => record_email e v) l new_stats).

Lemma outlook_record_all_score (l : list email) :
  marketing_score (record_all l)
  = fold_left (fun t e => Py.max t (is_marketing_email e).1.2) l 0.
Proof.
  by rewrite (fold_left_item _ marketing_score
                (fun e t => Py.max t (is_marketing_email e).1.2))
    by (intros; apply outlook_record_email_items).
Qed.

Lemma outlook_record_all_read (l : list email) :
  read (record_all l) = count_true isRead l
  /\ unread (record_all l) = count_true (fun e => negb (isRead e)) l.
Proof.
  split.
  - rewrite (fold_left_item _ read (fun e t => if isRead e then t + 1 else t))
      by (intros; apply outlook_record_email_items).
    apply (fold_left_count isRead l 0).
  - rewrite (fold_left_item _ unread (fun e t => if negb (isRead e) then t + 1 else t)).
    + apply (fold_left_count (fun e => negb (isRead e)) l 0).
    + intros e v. destruct (outlook_record_email_items e v) as (_ & _ & -> & _).
      by destruct (isRead e).
Qed.

Lemma outlook_record_all_name (l : list email) :
  name (record_all l) = from_option (fun e => default (addr_of e) (name_ (sender_of e))) "" (last l).
Proof.
  rewrite (fold_left_item _ name (fun e _ => default (addr_of e) (name_ (sender_of e))))
    by (intros; apply outlook_record_email_items).
  apply fold_left_last.
Qed.

End OutlookItems.

Section GmailEntry.
Import Gmail.

Local Notation filed a l := (List.filter (fun e => String.eqb (addr_of e) a) l).

(** The items of an entry of the dictionary returned, read off the
    messages filed under its key. *)
Lemma gmail_analyzed_entry (input : list email) (d : Dict.t stats) (a : string) (st : stats) :
  analyze_emails input = Ok d -> (a, st) ∈ d ->
  emails st = filed a input
  /\ emails st <> []
  /\ marketing_score st
     = fold_left (fun t e => Py.max t (is_marketing_email e).1.2) (emails st) 0
  /\ read st = count_true isRead (emails st)
  /\ unread st = count_true (fun e => negb (isRead e)) (emails st)
  /\ name st = from_option (fun e => (parse_sender (from e)).2) "" (last (emails st))
  /\ (is_promotional st = true
      <-> exists e, e ∈ emails st /\ "CATEGORY_PROMOTIONS" ∈ labelIds e).
Proof.
  intros Hrun Hin.
  destruct (gmail_analyze_emails_structure input) as (d' & Hrun' & _ & _ & Hentry).
  rewrite Hrun in Hrun'. injection Hrun' as <-.
  destruct (Hentry a st Hin) as [Hne ->].
  destruct (gmail_with_read_rate_items
              (fold_left (fun v e => record_email e v) (filed a input) new_stats))
    as (-> & -> & -> & -> & -> & _ & _ & ->).
  rewrite gmail_record_all_emails.
  split; [reflexivity|]. split; [exact Hne|].
  split; [apply gmail_record_all_score|].
  split; [apply gmail_record_all_read|].
  split; [apply gmail_record_all_read|].
  split; [apply gmail_record_all_name|apply gmail_record_all_promotional].
Qed.

End GmailEntry.

Section OutlookEntry.
Import Outlook.

Local Notation filed a l := (List.filter (fun e => String.eqb (addr_of e) a) l).

(** The items of an entry of the dictionary returned, read off the
    messages filed under its key. *)
Lemma outlook_analyzed_entry (input : list email) (d : Dict.t stats) (a : string) (st : stats) :
  analyze_emails input = Ok d -> (a, st) ∈ d ->
  emails st = filed a input
  /\ emails st <> []
  /\ marketing_score st
     = fold_left (fun t e => Py.max t (is_marketing_email e).1.2) (emails st) 0
  /\ read st = count_true isRead (emails st)
  /\ unread st = count_true (fun e => negb (isRead e)) (emails st)
  /\ name st = from_option (fun e => default (addr_of e) (name_ (sender_of e))) "" (last (emails st)).
Proof.
  intros Hrun Hin.
  destruct (outlook_analyze_emails_structure input) as (d' & Hrun' & _ & _ & Hentry).
  rewrite Hrun in Hrun'. injection Hrun' as <-.
  destruct (Hentry a st Hin) as [Hne ->].
  destruct (outlook_with_read_rate_items
              (fold_left (fun v e => record_email e v) (filed a input) new_stats))
    as (-> & -> & -> & -> & -> & _ & _).
  rewrite outlook_record_all_emails.
  split; [reflexivity|]. split; [exact Hne|].
  split; [apply outlook_record_all_score|].
  split; [apply outlook_record_all_read|].
  split; [apply outlook_record_all_read|].
  apply outlook_record_all_name.
Qed.

End OutlookEntry.

(** ** Properties of the aggregation *)

Example analyze_emails_empty :
  Gmail.analyze_emails [] = Ok [] /\ Outlook.analyze_emails [] = Ok [].
Proof. split; reflexivity. Qed.

(** X1.  [analyze_emails] files every message under exactly one key, the
    address of its sender: the keys of the dictionary returned are distinct,
    every message of the input is among the messages of the entry of its
    sender, and the messages of an entry are the messages of the input with
    that sender, in the order of the input, and there is at least one. *)
Theorem analyze_emails_files_by_sender :
  (forall input : list Gmail.email, exists d,
     Gmail.analyze_emails input = Ok d
     /\ NoDup (Dict.keys d)
     /\ (forall e, e ∈ input ->
           exists st, (Gmail.addr_of e, st) ∈ d /\ e ∈ Gmail.emails st)
     /\ (forall a st, (a, st) ∈ d ->
           Gmail.emails st
           = List.filter (fun e => String.eqb (Gmail.addr_of e) a) input
           /\ Gmail.emails st <> []))
  /\
  (forall input : list Outlook.email, exists d,
     Outlook.analyze_emails input = Ok d
     /\ NoDup (Dict.keys d)
     /\ (forall e, e ∈ input ->
           exists st, (Outlook.addr_of e, st) ∈ d /\ e ∈ Outlook.emails st)
     /\ (forall a st, (a, st) ∈ d ->
           Outlook.emails st
           = List.filter (fun e => String.eqb (Outlook.addr_of e) a) input
           /\ Outlook.emails st <> [])).
Proof.
  split.
  - intros input.
    destruct (gmail_analyze_emails_structure input) as (d & Hrun & Hnd & Hkeys & _).
    exists d. split; [exact Hrun|]. split; [exact Hnd|]. split.
    + intros e He.
      assert (Hk : Gmail.addr_of e ∈ Dict.keys d) by (apply Hkeys; eauto).
      apply list_elem_of_fmap in Hk as ([a st] & Ha & Hin). cbn in Ha. subst a.
      exists st. split; [exact Hin|].
      destruct (gmail_analyzed_entry input d _ st Hrun Hin) as (-> & _).
      apply list_elem_of_In, List.filter_In.
      split; [by apply list_elem_of_In|apply String.eqb_refl].
    + intros a st Hin.
      destruct (gmail_analyzed_entry input d a st Hrun Hin) as (H1 & H2 & _). auto.
  - intros input.
    destruct (outlook_analyze_emails_structure input) as (d & Hrun & Hnd & Hkeys & _).
    exists d. split; [exact Hrun|]. split; [exact Hnd|]. split.
    + intros e He.
      assert (Hk : Outlook.addr_of e ∈ Dict.keys d) by (apply Hkeys; eauto).
      apply list_elem_of_fmap in Hk as ([a st] & Ha & Hin). cbn in Ha. subst a.
      exists st. split; [exact Hin|].
      destruct (outlook_analyzed_entry input d _ st Hrun Hin) as (-> & _).
      apply list_elem_of_In, List.filter_In.
      split; [by apply list_elem_of_In|apply String.eqb_refl].
    + intros a st Hin.
      destruct (outlook_analyzed_entry input d a st Hrun Hin) as (H1 & H2 & _). auto.
Qed.

(** X2.  In every entry returned by [analyze_emails] the marketing score is
    the largest classifier score of the sender's messages: no message of
    the entry scores higher and one of them scores exactly that.  For
    Gmail the promotional flag of the entry is set exactly when one of its
    messages carries the label CATEGORY_PROMOTIONS. *)
Theorem analyze_emails_score_is_the_largest :
  (forall input : list Gmail.email, exists d,
     Gmail.analyze_emails input = Ok d
     /\ forall a st, (a, st) ∈ d ->
          (forall e, e ∈ Gmail.emails st ->
             (Gmail.is_marketing_email e).1.2 <= Gmail.marketing_score st)
          /\ (exists e, e ∈ Gmail.emails st
                        /\ Gmail.marketing_score st = (Gmail.is_marketing_email e).1.2)
          /\ (Gmail.is_promotional st = true
              <-> exists e, e ∈ Gmail.emails st
                            /\ "CATEGORY_PROMOTIONS" ∈ Gmail.labelIds e))
  /\
  (forall input : list Outlook.email, exists d,
     Outlook.analyze_emails input = Ok d
     /\ forall a st, (a, st) ∈ d ->
          (forall e, e ∈ Outlook.emails st ->
             (Outlook.is_marketing_email e).1.2 <= Outlook.marketing_score st)
          /\ (exists e, e ∈ Outlook.emails st
                        /\ Outlook.marketing_score st = (Outlook.is_marketing_email e).1.2)).
Proof.
  split.
  - intros input.
    destruct (gmail_analyze_emails_structure input) as (d & Hrun & _).
    exists d. split; [exact Hrun|]. intros a st Hin.
    destruct (gmail_analyzed_entry input d a st Hrun Hin)
      as (_ & Hne & Hscore & _ & _ & _ & Hpromo).
    destruct (fold_left_max (fun e => (Gmail.is_marketing_email e).1.2)
                (Gmail.emails st) 0) as (_ & Hall & Hatt).
    cbn zeta in Hall, Hatt. rewrite <- Hscore in Hall, Hatt.
    split; [exact Hall|]. split; [|exact Hpromo].
    destruct Hatt as [Hzero|Hatt]; [|exact Hatt].
    destruct (Gmail.emails st) as [|e l] eqn:Hl; [done|].
    exists e. split; [left|]. specialize (Hall e ltac:(left)). lia.
  - intros input.
    destruct (outlook_analyze_emails_structure input) as (d & Hrun & _).
    exists d. split; [exact Hrun|]. intros a st Hin.
    destruct (outlook_analyzed_entry input d a st Hrun Hin)
      as (_ & Hne & Hscore & _ & _ & _).
    destruct (fold_left_max (fun e => (Outlook.is_marketing_email e).1.2)
                (Outlook.emails st) 0) as (_ & Hall & Hatt).
    cbn zeta in Hall, Hatt. rewrite <- Hscore in Hall, Hatt.
    split; [exact Hall|]. 
    destruct Hatt as [Hzero|Hatt]; [|exact Hatt].
    destruct (Outlook.emails st) as [|e l] eqn:Hl; [done|].
    exists e. split; [left|]. specialize (Hall e ltac:(left)). lia.
Qed.

(** X3.  In every entry returned by [analyze_emails], [read] is the number
    of the sender's messages that are read and [unread] the number of those
    that are not. *)
Theorem analyze_emails_counts_read_messages :
  (forall input : list Gmail.email, exists d,
     Gmail.analyze_emails input = Ok d
     /\ forall a st, (a, st) ∈ d ->
          Gmail.read st = count_true Gmail.isRead (Gmail.emails st)
          /\ Gmail.unread st
             = count_true (fun e => negb (Gmail.isRead e)) (Gmail.emails st))
  /\
  (forall input : list Outlook.email, exists d,
     Outlook.analyze_emails input = Ok d
     /\ forall a st, (a, st) ∈ d ->
          Outlook.read st = count_true Outlook.isRead (Outlook.emails st)
          /\ Outlook.unread st
             = count_true (fun e => negb (Outlook.isRead e)) (Outlook.emails st)).
Proof.
  split.
  - intros input.
    destruct (gmail_analyze_emails_structure input) as (d & Hrun & _).
    exists d. split; [exact Hrun|]. intros a st Hin.
    destruct (gmail_analyzed_entry input d a st Hrun Hin)
      as (_ & _ & _ & Hread & Hunread & _). auto.
  - intros input.
    destruct (outlook_analyze_emails_structure input) as (d & Hrun & _).
    exists d. split; [exact Hrun|]. intros a st Hin.
    destruct (outlook_analyzed_entry input d a st Hrun Hin)
      as (_ & _ & _ & Hread & Hunread & _). auto.
Qed.

(** X4.  The display name kept for a sender is the one of the last of its
    messages in the input (for Outlook the address when that message has
    no name). *)
Theorem analyze_emails_keeps_the_last_name :
  (forall input : list Gmail.email, exists d,
     Gmail.analyze_emails input = Ok d
     /\ forall a st, (a, st) ∈ d ->
          exists e, last (Gmail.emails st) = Some e
                    /\ Gmail.name st = (Gmail.parse_sender (Gmail.from e)).2)
  /\
  (forall input : list Outlook.email, exists d,
     Outlook.analyze_emails input = Ok d
     /\ forall a st, (a, st) ∈ d ->
          exists e, last (Outlook.emails st) = Some e
                    /\ Outlook.name st
                       = default (Outlook.addr_of e)
                                 (Outlook.name_ (Outlook.sender_of e))).
Proof.
  split.
  - intros input.
    destruct (gmail_analyze_emails_structure input) as (d & Hrun & _).
    exists d. split; [exact Hrun|]. intros a st Hin.
    destruct (gmail_analyzed_entry input d a st Hrun Hin)
      as (_ & Hne & _ & _ & _ & Hname & _).
    destruct (last (Gmail.emails st)) as [e|] eqn:Hlast.
    + exists e. split; [reflexivity|exact Hname].
    + by apply last_None in Hlast.
  - intros input.
    destruct (outlook_analyze_emails_structure input) as (d & Hrun & _).
    exists d. split; [exact Hrun|]. intros a st Hin.
    destruct (outlook_analyzed_entry input d a st Hrun Hin)
      as (_ & Hne & _ & _ & _ & Hname).
    destruct (last (Outlook.emails st)) as [e|] eqn:Hlast.
    + exists e. split; [reflexivity|exact Hname].
    + by apply last_None in Hlast.
Qed.

(** ** Properties of the classifier *)

Lemma count_true_le_length {A} (f : A -> bool) (l : list A) :
  count_true f l <= length l.
Proof. induction l as [|x l IH]; cbn; [lia|destruct (f x); lia]. Qed.

Lemma count_true_pos {A} (f : A -> bool) (l : list A) (x : A) :
  x ∈ l -> f x = true -> 1 <= count_true f l.
Proof.
  induction l as [|y l IH]; [intros []%elem_of_nil|].
  intros [->|Hin]%elem_of_cons Hx; cbn [count_true].
  - rewrite Hx. lia.
  - specialize (IH Hin Hx). lia.
Qed.

Lemma count_true_zero {A} (f : A -> bool) (l : list A) :
  count_true f l = 0 <-> forall x, x ∈ l -> f x = false.
Proof.
  induction l as [|y l IH]; cbn [count_true].
  - split; [intros _ x []%elem_of_nil|reflexivity].
  - split.
    + intros H x [->|Hin]%elem_of_cons.
      * destruct (f y); [lia|reflexivity].
      * apply IH; [lia|exact Hin].
    + intros H. rewrite (H y) by left. cbn. apply IH. intros x Hx. apply H. by right.
Qed.

Lemma keyword_matches_bound (text : string) : keyword_matches text <= 28.
Proof. rewrite keyword_matches_count. apply (count_true_le_length _ MARKETING_KEYWORDS). Qed.

Lemma keyword_matches_unsubscribe (text : string) :
  Py.contains "unsubscribe" text = true -> 1 <= keyword_matches text.
Proof.
  intros H. rewrite keyword_matches_count.
  apply (count_true_pos _ _ "unsubscribe"); [left|exact H].
Qed.

Lemma find_some_iff {A} (f : A -> bool) (l : list A) :
  (exists y, find f l = Some y) <-> exists x, x ∈ l /\ f x = true.
Proof.
  split.
  - intros [y Hy]. apply find_some in Hy as [Hin Hf].
    exists y. split; [by apply list_elem_of_In|exact Hf].
  - intros (x & Hin & Hf). apply (find_is_some f l x); [by apply list_elem_of_In|exact Hf].
Qed.

(** The score of the rules: never above 12, at least 5 with [unsubscribe]
    in the text, at least 3 with a known domain in the address, and at most
    2 with neither a known domain nor a keyword. *)
Lemma score_rules_bounds (domains : list string) (sender_email sender_name text : string) :
  let score := (score_rules domains sender_email sender_name text).1 in
  score <= 12
  /\ (Py.contains "unsubscribe" text = true -> 5 <= score)
  /\ ((exists domain, domain ∈ domains /\ Py.contains domain sender_email = true) ->
      3 <= score)
  /\ ((forall domain, domain ∈ domains -> Py.contains domain sender_email = false) ->
      keyword_matches text = 0 -> score <= 2).
Proof.
  cbn zeta. rewrite score_rules_sum.
  set (by_pattern := find _ MARKETING_SENDER_PATTERNS).
  set (by_domain := find _ domains).
  split; [|split; [|split]].
  - clearbody by_pattern by_domain.
    destruct by_pattern, by_domain, (3 <=? keyword_matches text),
      (1 <=? keyword_matches text), (Py.contains "unsubscribe" text); cbn; lia.
  - intros Hu. rewrite Hu. apply keyword_matches_unsubscribe in Hu.
    destruct (3 <=? keyword_matches text) eqn:H3; [lia|].
    apply Nat.leb_le in Hu. rewrite Hu. lia.
  - intros Hd. apply find_some_iff in Hd as [y Hy]. subst by_domain. rewrite Hy. lia.
  - intros Hnone Hzero.
    assert (Hd : by_domain = None).
    { subst by_domain. destruct (find _ domains) as [y|] eqn:Hf; [|reflexivity].
      apply find_some in Hf as [Hin Hf]. apply list_elem_of_In in Hin.
      rewrite (Hnone y Hin) in Hf. discriminate. }
    assert (Hu : Py.contains "unsubscribe" text = false).
    { destruct (Py.contains "unsubscribe" text) eqn:Hu; [|reflexivity].
      apply keyword_matches_unsubscribe in Hu. exfalso. lia. }
    rewrite Hd, Hu, Hzero. clearbody by_pattern. destruct by_pattern; cbn; lia.
Qed.

(** The three ways out of the Gmail classifier. *)
Lemma gmail_is_marketing_email_cases (e : Gmail.email) :
  let text := Py.lower (Gmail.subject e) +:+ " " +:+ Py.lower (Gmail.snippet e) in
  let score := (score_rules Gmail.KNOWN_MARKETING_DOMAINS
                  (Gmail.parse_sender (Gmail.from e)).1
                  (Py.lower (Gmail.parse_sender (Gmail.from e)).2) text).1 in
  ("CATEGORY_PROMOTIONS" ∈ Gmail.labelIds e
   /\ (Gmail.is_marketing_email e).1 = (true, 5))
  \/ ("CATEGORY_PROMOTIONS" ∉ Gmail.labelIds e
      /\ "CATEGORY_SOCIAL" ∈ Gmail.labelIds e
      /\ (Gmail.is_marketing_email e).1 = (true, 4))
  \/ ("CATEGORY_PROMOTIONS" ∉ Gmail.labelIds e
      /\ "CATEGORY_SOCIAL" ∉ Gmail.labelIds e
      /\ (Gmail.is_marketing_email e).1 = (3 <=? score, score)).
Proof.
  cbn zeta. unfold Gmail.is_marketing_email.
  destruct (Gmail.parse_sender (Gmail.from e)) as [sender_email sender_name].
  cbn [fst snd].
  case_bool_decide as Hp; [by left|]. right.
  case_bool_decide as Hs; [by left|]. right.
  split; [exact Hp|]. split; [exact Hs|].
  by destruct (score_rules _ _ _ _).
Qed.

Lemma outlook_is_marketing_email_score (e : Outlook.email) :
  let text := Py.lower (default "" (Outlook.subject e)) +:+ " "
              +:+ Py.lower (default "" (Outlook.bodyPreview e)) in
  let score := (score_rules Outlook.KNOWN_MARKETING_DOMAINS
                  (Py.lower (default "" (Outlook.address (Outlook.sender_of e))))
                  (Py.lower (default "" (Outlook.name_ (Outlook.sender_of e)))) text).1 in
  (Outlook.is_marketing_email e).1 = (3 <=? score, score).
Proof.
  cbn zeta. unfold Outlook.is_marketing_email. by destruct (score_rules _ _ _ _).
Qed.

(** X5.  For every message the flag returned by [is_marketing_email] is
    true exactly when the score returned is at least 3, also on the two
    label shortcuts of Gmail, and the score is never above 12. *)
Theorem is_marketing_email_flag_and_bound :
  (forall e : Gmail.email,
     (Gmail.is_marketing_email e).1.1 = (3 <=? (Gmail.is_marketing_email e).1.2)
     /\ (Gmail.is_marketing_email e).1.2 <= 12)
  /\
  (forall e : Outlook.email,
     (Outlook.is_marketing_email e).1.1 = (3 <=? (Outlook.is_marketing_email e).1.2)
     /\ (Outlook.is_marketing_email e).1.2 <= 12).
Proof.
  split; intros e.
  - destruct (gmail_is_marketing_email_cases e)
      as [(_ & ->)|[(_ & _ & ->)|(_ & _ & ->)]]; cbn [fst snd]; try (split; [reflexivity|lia]).
    split; [reflexivity|apply score_rules_bounds].
  - rewrite outlook_is_marketing_email_score. cbn [fst snd].
    split; [reflexivity|apply score_rules_bounds].
Qed.

(** X6.  A message whose subject and snippet (body preview), put in lower
    case, contain [unsubscribe] is always classified as marketing: the
    keyword and the unsubscribe rule together give at least 5 (on Gmail a
    label shortcut may give 5 or 4 instead). *)
Theorem unsubscribe_is_always_marketing :
  (forall e : Gmail.email,
     Py.contains "unsubscribe"
       (Py.lower (Gmail.subject e) +:+ " " +:+ Py.lower (Gmail.snippet e)) = true ->
     (Gmail.is_marketing_email e).1.1 = true
     /\ 4 <= (Gmail.is_marketing_email e).1.2)
  /\
  (forall e : Outlook.email,
     Py.contains "unsubscribe"
       (Py.lower (default "" (Outlook.subject e)) +:+ " "
        +:+ Py.lower (default "" (Outlook.bodyPreview e))) = true ->
     (Outlook.is_marketing_email e).1.1 = true
     /\ 5 <= (Outlook.is_marketing_email e).1.2).
Proof.
  split; intros e Hu.
  - destruct (gmail_is_marketing_email_cases e)
      as [(_ & ->)|[(_ & _ & ->)|(_ & _ & ->)]]; cbn [fst snd]; try (split; [reflexivity|lia]).
    pose proof (proj1 (proj2 (score_rules_bounds Gmail.KNOWN_MARKETING_DOMAINS
                  (Gmail.parse_sender (Gmail.from e)).1
                  (Py.lower (Gmail.parse_sender (Gmail.from e)).2) _)) Hu) as H5.
    cbn zeta in H5. split; [apply Nat.leb_le|]; lia.
  - rewrite outlook_is_marketing_email_score. cbn [fst snd].
    pose proof (proj1 (proj2 (score_rules_bounds Outlook.KNOWN_MARKETING_DOMAINS
                  (Py.lower (default "" (Outlook.address (Outlook.sender_of e))))
                  (Py.lower (default "" (Outlook.name_ (Outlook.sender_of e)))) _)) Hu) as H5.
    cbn zeta in H5. split; [apply Nat.leb_le; lia|exact H5].
Qed.

Lemma unsubscribe_is_always_marketing_witness :
  let e := {| Outlook.id := "m1"; Outlook.subject := Some "Your receipt";
              Outlook.from := None; Outlook.receivedDateTime := "";
              Outlook.isRead := true;
              Outlook.bodyPreview := Some "Thanks. UNSUBSCRIBE here." |} in
  Py.contains "unsubscribe"
    (Py.lower (default "" (Outlook.subject e)) +:+ " "
     +:+ Py.lower (default "" (Outlook.bodyPreview e))) = true
  /\ (Outlook.is_marketing_email e).1.1 = true.
Proof.
  intros e. split; [reflexivity|].
  apply (proj2 unsubscribe_is_always_marketing e). reflexivity.
Defined.

(** X7.  A message whose sender address contains one of the known
    marketing domains is always classified as marketing, whatever its
    subject and text. *)
Theorem known_domain_is_always_marketing :
  (forall (e : Gmail.email) (domain : string),
     domain ∈ Gmail.KNOWN_MARKETING_DOMAINS ->
     Py.contains domain (Gmail.parse_sender (Gmail.from e)).1 = true ->
     (Gmail.is_marketing_email e).1.1 = true)
  /\
  (forall (e : Outlook.email) (domain : string),
     domain ∈ Outlook.KNOWN_MARKETING_DOMAINS ->
     Py.contains domain
       (Py.lower (default "" (Outlook.address (Outlook.sender_of e)))) = true ->
     (Outlook.is_marketing_email e).1.1 = true).
Proof.
  split; intros e domain Hin Hdom.
  - destruct (gmail_is_marketing_email_cases e)
      as [(_ & ->)|[(_ & _ & ->)|(_ & _ & ->)]]; cbn [fst snd]; try reflexivity.
    apply Nat.leb_le. apply score_rules_bounds. eauto.
  - rewrite outlook_is_marketing_email_score. cbn [fst snd].
    apply Nat.leb_le. apply score_rules_bounds. eauto.
Qed.

Lemma known_domain_is_always_marketing_witness :
  let e := {| Gmail.id := "m2"; Gmail.threadId := None;
              Gmail.from := "Jane <jane@mail.Spotify.com>";
              Gmail.subject := "hello"; Gmail.date := ""; Gmail.snippet := "";
              Gmail.labelIds := []; Gmail.isRead := true |} in
  "spotify.com" ∈ Gmail.KNOWN_MARKETING_DOMAINS
  /\ Py.contains "spotify.com" (Gmail.parse_sender (Gmail.from e)).1 = true
  /\ (Gmail.is_marketing_email e).1.1 = true.
Proof.
  intros e.
  assert (Hin : "spotify.com" ∈ Gmail.KNOWN_MARKETING_DOMAINS).
  { apply (bool_decide_eq_true_1 _). vm_compute. reflexivity. }
  assert (Hdom : Py.contains "spotify.com" (Gmail.parse_sender (Gmail.from e)).1 = true)
    by reflexivity.
  split; [exact Hin|]. split; [exact Hdom|].
  exact (proj1 known_domain_is_always_marketing e "spotify.com" Hin Hdom).
Defined.



(** ** Properties of the sender normaliser *)

Lemma has_char_cons (c a : ascii) (s : string) :
  Py.has_char c (String a s) = (if ascii_dec c a then true else false) || Py.has_char c s.
Proof.
  unfold Py.has_char. cbn [Py.contains String.prefix].
  destruct (ascii_dec c a); [|reflexivity]. by destruct s.
Qed.

Lemma has_char_nil (c : ascii) : Py.has_char c "" = false.
Proof. reflexivity. Qed.

Lemma has_char_nonempty (c : ascii) (s : string) : Py.has_char c s = true -> s <> "".
Proof. by destruct s. Qed.

Lemma lstrip_by_keeps (p : ascii -> bool) (c : ascii) (s : string) :
  p c = false -> Py.has_char c s = true -> Py.has_char c (Py.lstrip_by p s) = true.
Proof.
  intros Hp. induction s as [|a s IH]; [done|].
  cbn [Py.lstrip_by]. destruct (p a) eqn:Hpa; [|done].
  rewrite has_char_cons. destruct (ascii_dec c a) as [->|]; [congruence|exact IH].
Qed.

Lemma rstrip_by_keeps (p : ascii -> bool) (c : ascii) (s : string) :
  p c = false -> Py.has_char c s = true -> Py.has_char c (Py.rstrip_by p s) = true.
Proof.
  intros Hp. induction s as [|a s IH]; [done|].
  rewrite has_char_cons. cbn [Py.rstrip_by].
  destruct (ascii_dec c a) as [->|Hne]; cbn [orb].
  - intros _. destruct (Py.rstrip_by p s); rewrite ?Hp, has_char_cons;
      by destruct (ascii_dec a a).
  - intros Hs. specialize (IH Hs).
    destruct (Py.rstrip_by p s) as [|b r] eqn:Hr; [done|].
    rewrite has_char_cons, IH. apply orb_true_r.
Qed.

Lemma strip_keeps (c : ascii) (s : string) :
  Py.is_space c = false -> Py.has_char c s = true -> Py.has_char c (Py.strip s) = true.
Proof.
  intros Hp Hs. unfold Py.strip, Py.strip_by.
  by apply rstrip_by_keeps, lstrip_by_keeps.
Qed.

Lemma lower_nonempty (s : string) : s <> "" -> Py.lower s <> "".
Proof. by destruct s. Qed.

Lemma search_angle_nonempty (s g : string) : Re.search_angle s = Some g -> g <> "".
Proof.
  induction s as [|c s IH]; [done|]. cbn [Re.search_angle].
  destruct (Ascii.eqb c "<"); [|exact IH].
  destruct (Re.until_gt s) as [[|d g']|]; [exact IH| |exact IH].
  by intros [= <-].
Qed.

(** X9.  [parse_sender] never returns an empty address or an empty name,
    whatever the header. *)
Theorem parse_sender_never_empty (from_header : string) :
  (Gmail.parse_sender from_header).1 <> "" /\ (Gmail.parse_sender from_header).2 <> "".
Proof.
  unfold Gmail.parse_sender.
  destruct (String.eqb from_header "") eqn:Hempty; [by split|].
  apply String.eqb_neq in Hempty.
  destruct (Re.search_angle from_header) as [g|] eqn:Hre.
  - apply search_angle_nonempty in Hre. cbn [fst snd].
    assert (Hl : Py.lower g <> "") by by apply lower_nonempty.
    split; [exact Hl|].
    destruct (String.eqb _ "") eqn:Hname; [exact Hl|by apply String.eqb_neq].
  - destruct (Py.has_char "@" from_header) eqn:Hat; cbn [fst snd]; [|by split].
    assert (Hne : Py.strip (Py.lower from_header) <> "").
    { apply (has_char_nonempty "@"), strip_keeps; [reflexivity|].
      apply (contains_lower "@" from_header Hat). }
    by split.
Qed.

Lemma lower_char_idem (c : ascii) : Py.lower_char (Py.lower_char c) = Py.lower_char c.
Proof. destruct c as [[] [] [] [] [] [] [] []]; reflexivity. Qed.


Lemma lower_idem (s : string) : Py.lower (Py.lower s) = Py.lower s.
Proof. induction s as [|c s IH]; cbn; [reflexivity|]. by rewrite lower_char_idem, IH. Qed.








Lemma prefix_app_self (s t : string) : String.prefix s (s +:+ t) = true.
Proof.
  induction s as [|c s IH]; [by destruct t|].
  simpl. destruct (ascii_dec c c); [exact IH|done].
Qed.




Example parse_sender_quoted_name :
  Gmail.parse_sender
    (String (ascii_of_nat 34) "Shop News" +:+ String (ascii_of_nat 34) " <News@Shop.com>")
  = ("news@shop.com", "Shop News").
Proof. reflexivity. Qed.



(** ** Properties of the Gmail message normaliser *)

Lemma get_email_header_missing (headers : list Gmail.header) (name : string) :
  (forall h, h ∈ headers -> Py.lower (Gmail.header_name h) <> Py.lower name) ->
  Gmail.get_email_header headers name = "".
Proof.
  induction headers as [|h headers IH]; intros Hnone; [reflexivity|].
  cbn [Gmail.get_email_header].
  destruct (String.eqb _ _) eqn:Heq.
  - apply String.eqb_eq in Heq. exfalso. apply (Hnone h); [left|exact Heq].
  - apply IH. intros h' Hin. apply Hnone. by right.
Qed.

(** X12.  [get_email_header] looks the name up without regard to case, in
    the query as in the headers: the lower-cased query finds the same
    value; the value is the one of the first header whose name matches;
    and when no header matches the result is the empty string. *)
Theorem get_email_header_ignores_case :
  (forall headers name,
     Gmail.get_email_header headers (Py.lower name)
     = Gmail.get_email_header headers name)
  /\ (forall before h after name,
        (forall h', h' ∈ before ->
           Py.lower (Gmail.header_name h') <> Py.lower name) ->
        Py.lower (Gmail.header_name h) = Py.lower name ->
        Gmail.get_email_header (before ++ h :: after) name = Gmail.header_value h)
  /\ (forall headers name,
        (forall h, h ∈ headers -> Py.lower (Gmail.header_name h) <> Py.lower name) ->
        Gmail.get_email_header headers name = "").
Proof.
  split; [|split].
  - intros headers name. induction headers as [|h headers IH]; [reflexivity|].
    cbn [Gmail.get_email_header]. by rewrite lower_idem, IH.
  - intros before h after name Hbefore Hh.
    induction before as [|h' before IH]; cbn [app Gmail.get_email_header].
    + by rewrite Hh, String.eqb_refl.
    + destruct (String.eqb _ _) eqn:Heq.
      * apply String.eqb_eq in Heq. exfalso. apply (Hbefore h'); [left|exact Heq].
      * apply IH. intros h'' Hin. apply Hbefore. by right.
  - apply get_email_header_missing.
Qed.

Example email_of_example :
  let data := {| Gmail.msg_data_headers :=
                   [ {| Gmail.header_name := "Subject"; Gmail.header_value := "Hi" |};
                     {| Gmail.header_name := "FROM"; Gmail.header_value := "Al <AL@x.org>" |} ];
                 Gmail.msg_data_snippet := "hello";
                 Gmail.msg_data_labelIds := ["INBOX"; "UNREAD"] |} in
  let e := Gmail.email_of {| Gmail.msg_id := "17"; Gmail.msg_threadId := Some "t" |} data in
  (Gmail.from e, Gmail.subject e, Gmail.date e, Gmail.isRead e, Gmail.addr_of e)
  = ("Al <AL@x.org>", "Hi", "", false, "al@x.org").
Proof. reflexivity. Qed.

(** X13.  A Gmail message that has no From header (or an empty one) is
    given the sender [unknown] twice over, so [analyze_emails] files it
    under the key [unknown]; and it counts as read exactly when it does not
    carry the label UNREAD. *)
Theorem email_without_from_is_unknown (m : Gmail.msg) (data : Gmail.msg_data) :
  Gmail.get_email_header (Gmail.msg_data_headers data) "From" = "" ->
  let e := Gmail.email_of m data in
  Gmail.parse_sender (Gmail.from e) = ("unknown", "unknown")
  /\ Gmail.addr_of e = "unknown"
  /\ (Gmail.isRead e = true <-> "UNREAD" ∉ Gmail.msg_data_labelIds data)
  /\ exists d st, Gmail.analyze_emails [e] = Ok d /\ d = [("unknown", st)].
Proof.
  intros Hfrom e.
  assert (Hparse : Gmail.parse_sender (Gmail.from e) = ("unknown", "unknown")).
  { subst e. unfold Gmail.email_of. cbn [Gmail.from]. by rewrite Hfrom. }
  split; [exact Hparse|].
  assert (Haddr : Gmail.addr_of e = "unknown") by (unfold Gmail.addr_of; by rewrite Hparse).
  split; [exact Haddr|]. split.
  - subst e. cbn [Gmail.email_of Gmail.isRead].
    rewrite negb_true_iff, bool_decide_eq_false. reflexivity.
  - rewrite gmail_analyze_emails_ok. cbn [fold_left].
    rewrite gmail_analyze_step_update, Haddr. cbn [Dict.update map fst snd]. eauto.
Qed.

Lemma email_without_from_is_unknown_witness :
  let data := {| Gmail.msg_data_headers :=
                   [ {| Gmail.header_name := "Subject"; Gmail.header_value := "Hi" |} ];
                 Gmail.msg_data_snippet := ""; Gmail.msg_data_labelIds := [] |} in
  Gmail.get_email_header (Gmail.msg_data_headers data) "From" = ""
  /\ Gmail.addr_of
       (Gmail.email_of {| Gmail.msg_id := "9"; Gmail.msg_threadId := None |} data)
     = "unknown".
Proof.
  intros data. split; [reflexivity|].
  apply (email_without_from_is_unknown
           {| Gmail.msg_id := "9"; Gmail.msg_threadId := None |} data).
  reflexivity.
Defined.

(** ** Properties of the sort *)

Section SortMoreFacts.
Context {A : Type} (key : A -> nat).

Lemma insert_desc_sorted (x : A) (l : list A) :
  StronglySorted (fun a b => key b <= key a) l ->
  StronglySorted (fun a b => key b <= key a) (insert_desc key x l).
Proof.
  induction 1 as [|y l Hl IH Hy]; cbn [insert_desc].
  - repeat constructor.
  - destruct (key y <=? key x) eqn:Hle.
    + apply Nat.leb_le in Hle. constructor; [by constructor|].
      constructor; [exact Hle|].
      eapply Forall_impl; [exact Hy|]. cbn. intros z Hz. lia.
    + apply Nat.leb_gt in Hle. constructor; [exact IH|].
      rewrite insert_desc_perm. constructor; [lia|exact Hy].
Qed.

Lemma sort_desc_sorted (l : list A) :
  StronglySorted (fun a b => key b <= key a) (sort_desc key l).
Proof.
  induction l as [|x l IH]; cbn [sort_desc foldr]; [constructor|].
  by apply insert_desc_sorted.
Qed.

(** Elements with the key [k] keep their order: [x] goes in front of the
    elements of its own key. *)
Lemma insert_desc_stable (k : nat) (x : A) (l : list A) :
  StronglySorted (fun a b => key b <= key a) l ->
  List.filter (fun a => key a =? k) (insert_desc key x l)
  = List.filter (fun a => key a =? k) (x :: l).
Proof.
  induction 1 as [|y l Hl IH Hy]; cbn [insert_desc]; [reflexivity|].
  destruct (key y <=? key x) eqn:Hle; [reflexivity|].
  apply Nat.leb_gt in Hle. cbn [List.filter] in *. rewrite IH.
  destruct (key x =? k) eqn:Hx, (key y =? k) eqn:Hyk; try reflexivity.
  apply Nat.eqb_eq in Hx, Hyk. lia.
Qed.

Lemma sort_desc_stable (k : nat) (l : list A) :
  List.filter (fun a => key a =? k) (sort_desc key l)
  = List.filter (fun a => key a =? k) l.
Proof.
  induction l as [|x l IH]; [reflexivity|]. cbn [sort_desc foldr].
  rewrite insert_desc_stable by apply sort_desc_sorted.
  cbn [List.filter]. fold (sort_desc key l). by rewrite IH.
Qed.

End SortMoreFacts.

Example sort_desc_example :
  sort_desc snd [("a", 2); ("b", 5); ("c", 2); ("d", 5); ("e", 1)]
  = [("b", 5); ("d", 5); ("a", 2); ("c", 2); ("e", 1)].
Proof. reflexivity. Qed.

(** [list.sort(key=..., reverse=True)] as the scripts use it: the result is
    a rearrangement of the list, in descending order of the key, in which
    the elements of equal key are in the order they had. *)
Lemma sort_desc_is_a_stable_descending_sort {A : Type} (key : A -> nat) (l : list A) :
  sort_desc key l ≡ₚ l
  /\ StronglySorted (fun a b => key b <= key a) (sort_desc key l)
  /\ (forall k, List.filter (fun a => key a =? k) (sort_desc key l)
                = List.filter (fun a => key a =? k) l).
Proof.
  split; [apply sort_desc_perm|]. split; [apply sort_desc_sorted|].
  intros k. apply sort_desc_stable.
Qed.

Section GmailCategoryLists.
Import Gmail.
Variable utcnow : Z.
Variable strptime : string -> string -> result datetime.

Local Notation categorize_sender := (categorize_sender utcnow strptime).
Local Notation categorize_senders := (categorize_senders utcnow strptime).
Local Notation old_unread_of := (old_unread_of utcnow strptime).

Lemma gmail_receives_nothing (k : string) (cat : category) : receives [k] cat cat.
Proof.
  exists []. rewrite app_nil_r. cbn. split; [done|]. split; [lia|apply sublist_nil_l].
Qed.

Lemma gmail_receives_one (k : string) (cat : category) (st : stats) (n : nat) :
  n = total st -> receives [k] (add_sender cat k st n) cat.
Proof. intros ->. exists [(k, st)]. cbn. split; [done|]. split; [lia|done]. Qed.

Lemma gmail_categorize_sender_values (c : categories) (kv : string * stats) :
  Forall2 (receives [kv.1]) (values (categorize_sender c kv)) (values c).
Proof.
  destruct kv as [addr st]. unfold categorize_sender, values, items.
  cbn [map snd fst promotional marketing never_opened rarely_opened old_unread bulk_senders].
  repeat match goal with
         | |- Forall2 _ (_ :: _) (_ :: _) => constructor
         | |- Forall2 _ [] [] => constructor
         end;
    repeat match goal with
           | |- receives _ (if ?b then _ else _) _ => destruct b
           | |- receives _ (match ?l with [] => _ | _ :: _ => _ end) _ =>
               destruct l eqn:?
           end;
    first [apply gmail_receives_nothing | by apply gmail_receives_one].
Qed.

Lemma gmail_fold_values (d : Dict.t stats) : forall c,
  Forall2 (receives (Dict.keys d))
          (values (fold_left categorize_sender d c)) (values c).
Proof.
  induction d as [|kv d IH]; intros c; cbn [fold_left].
  - apply Forall2_same_length_lookup_2; [reflexivity|].
    intros i cat cat' H1 H2. assert (cat = cat') as -> by congruence.
    exists []. rewrite app_nil_r. cbn. split; [done|]. split; [lia|done].
  - eapply Forall2_trans; [|apply IH|apply gmail_categorize_sender_values].
    intros cat'' cat' cat (l2 & Hs2 & Hc2 & Hk2) (l1 & Hs1 & Hc1 & Hk1).
    exists (l1 ++ l2). rewrite Hs2, Hs1, Hc2, Hc1, <- app_assoc, !map_app, sum_list_with_app.
    split; [done|]. split; [lia|].
    change (Dict.keys (kv :: d)) with ([kv.1] ++ Dict.keys d).
    by apply sublist_app.
Qed.

(** Every category returned: its senders are the entries received, sorted;
    their keys were received in the order of [sender_stats]; and
    [email_count] is the sum of their counts. *)
Lemma gmail_categorize_senders_values (d : Dict.t stats) (cat : category) :
  cat ∈ values (categorize_senders d) ->
  exists entries,
    senders cat = sort_desc (fun x => total x.2) entries
    /\ email_count cat = sum_list (map (fun x => total x.2) entries)
    /\ map fst entries `sublist_of` Dict.keys d.
Proof.
  intros Hcat.
  assert (Hv : values (categorize_senders d)
               = map sort_senders (values (fold_left categorize_sender d empty_categories)))
    by reflexivity.
  rewrite Hv in Hcat. apply list_elem_of_fmap in Hcat as (cat0 & -> & Hin).
  apply list_elem_of_lookup in Hin as [i Hi].
  destruct (Forall2_lookup_l _ _ _ _ _ (gmail_fold_values d empty_categories) Hi)
    as (cat1 & Hi1 & entries & Hs & Hc & Hk).
  assert (Hempty : senders cat1 = [] /\ email_count cat1 = 0).
  { assert (Hall : Forall (fun cat => senders cat = [] /\ email_count cat = 0)
                          (values empty_categories))
      by (repeat constructor).
    exact (proj1 (Forall_lookup _ _) Hall _ _ Hi1). }
  destruct Hempty as [He1 He2]. rewrite He1 in Hs. rewrite He2 in Hc.
  exists entries. cbn [sort_senders senders email_count]. rewrite Hs. auto.
Qed.

End GmailCategoryLists.

Section OutlookCategoryLists.
Import Outlook.
Variable utcnow : Z.
Variable fromisoformat : string -> result datetime.

Local Notation categorize_sender := (categorize_sender utcnow fromisoformat).
Local Notation categorize_senders := (categorize_senders utcnow fromisoformat).
Local Notation old_unread_of := (old_unread_of utcnow fromisoformat).

Lemma outlook_receives_nothing (k : string) (cat : category) : receives [k] cat cat.
Proof.
  exists []. rewrite app_nil_r. cbn. split; [done|]. split; [lia|apply sublist_nil_l].
Qed.

Lemma outlook_receives_one (k : string) (cat : category) (st : stats) (n : nat) :
  n = total st -> receives [k] (add_sender cat k st n) cat.
Proof. intros ->. exists [(k, st)]. cbn. split; [done|]. split; [lia|done]. Qed.

Lemma outlook_categorize_sender_values (c : categories) (kv : string * stats) :
  Forall2 (receives [kv.1]) (values (categorize_sender c kv)) (values c).
Proof.
  destruct kv as [addr st]. unfold categorize_sender, values, items.
  cbn [map snd fst marketing never_opened rarely_opened old_unread bulk_senders].
  repeat match goal with
         | |- Forall2 _ (_ :: _) (_ :: _) => constructor
         | |- Forall2 _ [] [] => constructor
         end;
    repeat match goal with
           | |- receives _ (if ?b then _ else _) _ => destruct b
           | |- receives _ (match ?l with [] => _ | _ :: _ => _ end) _ =>
               destruct l eqn:?
           end;
    first [apply outlook_receives_nothing | by apply outlook_receives_one].
Qed.

Lemma outlook_fold_values (d : Dict.t stats) : forall c,
  Forall2 (receives (Dict.keys d))
          (values (fold_left categorize_sender d c)) (values c).
Proof.
  induction d as [|kv d IH]; intros c; cbn [fold_left].
  - apply Forall2_same_length_lookup_2; [reflexivity|].
    intros i cat cat' H1 H2. assert (cat = cat') as -> by congruence.
    exists []. rewrite app_nil_r. cbn. split; [done|]. split; [lia|done].
  - eapply Forall2_trans; [|apply IH|apply outlook_categorize_sender_values].
    intros cat'' cat' cat (l2 & Hs2 & Hc2 & Hk2) (l1 & Hs1 & Hc1 & Hk1).
    exists (l1 ++ l2). rewrite Hs2, Hs1, Hc2, Hc1, <- app_assoc, !map_app, sum_list_with_app.
    split; [done|]. split; [lia|].
    change (Dict.keys (kv :: d)) with ([kv.1] ++ Dict.keys d).
    by apply sublist_app.
Qed.

(** Every category returned: its senders are the entries received, sorted;
    their keys were received in the order of [sender_stats]; and
    [email_count] is the sum of their counts. *)
Lemma outlook_categorize_senders_values (d : Dict.t stats) (cat : category) :
  cat ∈ values (categorize_senders d) ->
  exists entries,
    senders cat = sort_desc (fun x => total x.2) entries
    /\ email_count cat = sum_list (map (fun x => total x.2) entries)
    /\ map fst entries `sublist_of` Dict.keys d.
Proof.
  intros Hcat.
  assert (Hv : values (categorize_senders d)
               = map sort_senders (values (fold_left categorize_sender d empty_categories)))
    by reflexivity.
  rewrite Hv in Hcat. apply list_elem_of_fmap in Hcat as (cat0 & -> & Hin).
  apply list_elem_of_lookup in Hin as [i Hi].
  destruct (Forall2_lookup_l _ _ _ _ _ (outlook_fold_values d empty_categories) Hi)
    as (cat1 & Hi1 & entries & Hs & Hc & Hk).
  assert (Hempty : senders cat1 = [] /\ email_count cat1 = 0).
  { assert (Hall : Forall (fun cat => senders cat = [] /\ email_count cat = 0)
                          (values empty_categories))
      by (repeat constructor).
    exact (proj1 (Forall_lookup _ _) Hall _ _ Hi1). }
  destruct Hempty as [He1 He2]. rewrite He1 in Hs. rewrite He2 in Hc.
  exists entries. cbn [sort_senders senders email_count]. rewrite Hs. auto.
Qed.

End OutlookCategoryLists.

(** ** Properties of the categories *)

Lemma map_filter_sublist {A B} (f : A -> B) (p : A -> bool) (l : list A) :
  map f (List.filter p l) `sublist_of` map f l.
Proof.
  induction l as [|x l IH]; cbn; [constructor|].
  destruct (p x); cbn; by constructor.
Qed.

Example categorize_two_senders :
  let mk i := {| Outlook.id := i; Outlook.subject := None; Outlook.from := None;
                 Outlook.receivedDateTime := ""; Outlook.isRead := false;
                 Outlook.bodyPreview := None |} in
  let st n := {| Outlook.total := n; Outlook.unread := n; Outlook.read := 0;
                 Outlook.marketing_score := 0;
                 Outlook.emails := map mk (replicate n "m");
                 Outlook.name := ""; Outlook.oldest := None; Outlook.newest := None;
                 Outlook.read_rate := 0 |} in
  let cats := Outlook.categorize_senders 0 (fun _ => Raise ValueError)
                [("a", st 5); ("b", st 21); ("c", st 5); ("d", st 2)] in
  (map fst (Outlook.senders (Outlook.never_opened cats)),
   Outlook.email_count (Outlook.never_opened cats),
   map fst (Outlook.senders (Outlook.bulk_senders cats)),
   Outlook.email_count (Outlook.bulk_senders cats))
  = (["b"; "a"; "c"], 31, ["b"], 21).
Proof. vm_compute. reflexivity. Qed.

(** X14.  In every category that [categorize_senders] returns the senders
    are in descending order of their count, and the senders with the same
    count are in the order in which [sender_stats] lists them. *)
Theorem categories_are_sorted_by_count :
  (forall utcnow strptime (d : Dict.t Gmail.stats) (cat : Gmail.category),
     cat ∈ Gmail.values (Gmail.categorize_senders utcnow strptime d) ->
     StronglySorted (fun x y => Gmail.total y.2 <= Gmail.total x.2) (Gmail.senders cat)
     /\ forall k, map fst (List.filter (fun x => Gmail.total x.2 =? k) (Gmail.senders cat))
                  `sublist_of` Dict.keys d)
  /\
  (forall utcnow fromisoformat (d : Dict.t Outlook.stats) (cat : Outlook.category),
     cat ∈ Outlook.values (Outlook.categorize_senders utcnow fromisoformat d) ->
     StronglySorted (fun x y => Outlook.total y.2 <= Outlook.total x.2) (Outlook.senders cat)
     /\ forall k, map fst (List.filter (fun x => Outlook.total x.2 =? k) (Outlook.senders cat))
                  `sublist_of` Dict.keys d).
Proof.
  split.
  - intros utcnow parser d cat Hcat.
    destruct (gmail_categorize_senders_values utcnow parser d cat Hcat)
      as (entries & -> & _ & Hkeys).
    split; [apply (sort_desc_sorted (fun x => Gmail.total x.2))|].
    intros k. rewrite (sort_desc_stable (fun x => Gmail.total x.2)).
    etrans; [apply map_filter_sublist|exact Hkeys].
  - intros utcnow parser d cat Hcat.
    destruct (outlook_categorize_senders_values utcnow parser d cat Hcat)
      as (entries & -> & _ & Hkeys).
    split; [apply (sort_desc_sorted (fun x => Outlook.total x.2))|].
    intros k. rewrite (sort_desc_stable (fun x => Outlook.total x.2)).
    etrans; [apply map_filter_sublist|exact Hkeys].
Qed.

(** X15.  In every category that [categorize_senders] returns,
    [email_count] is the sum of the counts of the senders listed (for
    [old_unread], of the numbers of old unread messages). *)
Theorem email_count_is_the_sum_of_the_entries :
  (forall utcnow strptime (d : Dict.t Gmail.stats) (cat : Gmail.category),
     cat ∈ Gmail.values (Gmail.categorize_senders utcnow strptime d) ->
     Gmail.email_count cat
     = sum_list (map (fun x => Gmail.total x.2) (Gmail.senders cat)))
  /\
  (forall utcnow fromisoformat (d : Dict.t Outlook.stats) (cat : Outlook.category),
     cat ∈ Outlook.values (Outlook.categorize_senders utcnow fromisoformat d) ->
     Outlook.email_count cat
     = sum_list (map (fun x => Outlook.total x.2) (Outlook.senders cat))).
Proof.
  split.
  - intros utcnow parser d cat Hcat.
    destruct (gmail_categorize_senders_values utcnow parser d cat Hcat)
      as (entries & -> & -> & _).
    by rewrite (sort_desc_perm (fun x => Gmail.total x.2)).
  - intros utcnow parser d cat Hcat.
    destruct (outlook_categorize_senders_values utcnow parser d cat Hcat)
      as (entries & -> & -> & _).
    by rewrite (sort_desc_perm (fun x => Outlook.total x.2)).
Qed.

(** A list that each turn of a loop extends by the element of the turn
    when [p] holds of it is, after the loop, extended by the elements on
    which [p] holds. *)
Lemma fold_left_appends {C A : Type} (step : C -> A -> C) (proj : C -> list A)
    (p : A -> bool) (l : list A) :
  (forall c x, proj (step c x) = proj c ++ (if p x then [x] else [])) ->
  forall c, proj (fold_left step l c) = proj c ++ List.filter p l.
Proof.
  intros Hstep. induction l as [|x l IH]; intros c; cbn [fold_left List.filter].
  - by rewrite app_nil_r.
  - rewrite IH, Hstep, <- app_assoc. by destruct (p x).
Qed.

Section GmailOtherCategories.
Import Gmail.
Variable utcnow : Z.
Variable strptime : string -> string -> result datetime.

Local Notation categorize_sender := (categorize_sender utcnow strptime).
Local Notation categorize_senders := (categorize_senders utcnow strptime).

Lemma gmail_elem_of_promotional (d : Dict.t stats) (kv : string * stats) :
  kv ∈ senders (promotional (categorize_senders d))
  <-> kv ∈ d /\ is_promotional kv.2 = true.
Proof.
  unfold categorize_senders. cbn [sort_categories promotional sort_senders senders].
  rewrite elem_of_sort_desc.
  rewrite (fold_left_appends categorize_sender (fun c => senders (promotional c))
             (fun kv => is_promotional kv.2)).
  - cbn. by rewrite list_elem_of_In, List.filter_In, <- list_elem_of_In.
  - intros c [addr st]. unfold categorize_sender. cbn [promotional snd].
    destruct (is_promotional st); cbn; by rewrite ?app_nil_r.
Qed.

Lemma gmail_elem_of_marketing (d : Dict.t stats) (kv : string * stats) :
  kv ∈ senders (marketing (categorize_senders d))
  <-> kv ∈ d /\ (negb (is_promotional kv.2) && (3 <=? marketing_score kv.2)) = true.
Proof.
  unfold categorize_senders. cbn [sort_categories marketing sort_senders senders].
  rewrite elem_of_sort_desc.
  rewrite (fold_left_appends categorize_sender (fun c => senders (marketing c))
             (fun kv => (negb (is_promotional kv.2) && (3 <=? marketing_score kv.2)))).
  - cbn. by rewrite list_elem_of_In, List.filter_In, <- list_elem_of_In.
  - intros c [addr st]. unfold categorize_sender. cbn [marketing snd].
    destruct (is_promotional st); [|destruct (3 <=? marketing_score st)]; cbn;
      by rewrite ?app_nil_r.
Qed.

Lemma gmail_elem_of_bulk_senders (d : Dict.t stats) (kv : string * stats) :
  kv ∈ senders (bulk_senders (categorize_senders d))
  <-> kv ∈ d /\ (20 <=? total kv.2) = true.
Proof.
  unfold categorize_senders. cbn [sort_categories bulk_senders sort_senders senders].
  rewrite elem_of_sort_desc.
  rewrite (fold_left_appends categorize_sender (fun c => senders (bulk_senders c))
             (fun kv => 20 <=? total kv.2)).
  - cbn. by rewrite list_elem_of_In, List.filter_In, <- list_elem_of_In.
  - intros c [addr st]. unfold categorize_sender. cbn [bulk_senders snd].
    destruct (20 <=? total st); cbn; by rewrite ?app_nil_r.
Qed.

End GmailOtherCategories.

Section OutlookOtherCategories.
Import Outlook.
Variable utcnow : Z.
Variable fromisoformat : string -> result datetime.

Local Notation categorize_sender := (categorize_sender utcnow fromisoformat).
Local Notation categorize_senders := (categorize_senders utcnow fromisoformat).

Lemma outlook_elem_of_marketing (d : Dict.t stats) (kv : string * stats) :
  kv ∈ senders (marketing (categorize_senders d))
  <-> kv ∈ d /\ (3 <=? marketing_score kv.2) = true.
Proof.
  unfold categorize_senders. cbn [sort_categories marketing sort_senders senders].
  rewrite elem_of_sort_desc.
  rewrite (fold_left_appends categorize_sender (fun c => senders (marketing c))
             (fun kv => (3 <=? marketing_score kv.2))).
  - cbn. by rewrite list_elem_of_In, List.filter_In, <- list_elem_of_In.
  - intros c [addr st]. unfold categorize_sender. cbn [marketing snd].
    destruct (3 <=? marketing_score st); cbn; by rewrite ?app_nil_r.
Qed.

Lemma outlook_elem_of_bulk_senders (d : Dict.t stats) (kv : string * stats) :
  kv ∈ senders (bulk_senders (categorize_senders d))
  <-> kv ∈ d /\ (20 <=? total kv.2) = true.
Proof.
  unfold categorize_senders. cbn [sort_categories bulk_senders sort_senders senders].
  rewrite elem_of_sort_desc.
  rewrite (fold_left_appends categorize_sender (fun c => senders (bulk_senders c))
             (fun kv => 20 <=? total kv.2)).
  - cbn. by rewrite list_elem_of_In, List.filter_In, <- list_elem_of_In.
  - intros c [addr st]. unfold categorize_sender. cbn [bulk_senders snd].
    destruct (20 <=? total st); cbn; by rewrite ?app_nil_r.
Qed.

End OutlookOtherCategories.

(** X16.  The other rules of [categorize_senders], for an entry
    [(addr, st)] of [sender_stats].  Gmail: it is listed in [promotional]
    iff its promotional flag is set, and in [marketing] iff the flag is not
    set and the score is at least 3, so never in both.  Outlook: it is
    listed in [marketing] iff the score is at least 3.  Both: it is listed
    in [bulk_senders] iff [total >= 20], whatever the other categories say:
    with [total >= 20] and [read = 0] it is in [never_opened] as well. *)
Theorem promotional_marketing_and_bulk_rules :
  (forall utcnow strptime (d : Dict.t Gmail.stats) addr st,
     (addr, st) ∈ d ->
     let cats := Gmail.categorize_senders utcnow strptime d in
     let listed cat := (addr, st) ∈ Gmail.senders cat in
     (listed (Gmail.promotional cats) <-> Gmail.is_promotional st = true)
     /\ (listed (Gmail.marketing cats)
         <-> Gmail.is_promotional st = false /\ 3 <= Gmail.marketing_score st)
     /\ ~ (listed (Gmail.promotional cats) /\ listed (Gmail.marketing cats))
     /\ (listed (Gmail.bulk_senders cats) <-> 20 <= Gmail.total st)
     /\ (20 <= Gmail.total st -> Gmail.read st = 0 ->
         listed (Gmail.bulk_senders cats) /\ listed (Gmail.never_opened cats)))
  /\
  (forall utcnow fromisoformat (d : Dict.t Outlook.stats) addr st,
     (addr, st) ∈ d ->
     let cats := Outlook.categorize_senders utcnow fromisoformat d in
     let listed cat := (addr, st) ∈ Outlook.senders cat in
     (listed (Outlook.marketing cats) <-> 3 <= Outlook.marketing_score st)
     /\ (listed (Outlook.bulk_senders cats) <-> 20 <= Outlook.total st)
     /\ (20 <= Outlook.total st -> Outlook.read st = 0 ->
         listed (Outlook.bulk_senders cats) /\ listed (Outlook.never_opened cats))).
Proof.
  split.
  - intros utcnow parser d addr st Hin cats listed. subst listed cats. cbn beta.
    rewrite gmail_elem_of_promotional, gmail_elem_of_marketing,
      gmail_elem_of_bulk_senders, gmail_elem_of_never_opened,
      gmail_is_never_opened_iff.
    cbn [snd]. rewrite andb_true_iff, negb_true_iff, !Nat.leb_le.
    repeat split; try tauto; try lia.
    intros [[_ H1] [_ [H2 _]]]. congruence.
  - intros utcnow parser d addr st Hin cats listed. subst listed cats. cbn beta.
    rewrite outlook_elem_of_marketing, outlook_elem_of_bulk_senders,
      outlook_elem_of_never_opened, outlook_is_never_opened_iff.
    cbn [snd]. rewrite !Nat.leb_le.
    repeat split; try tauto; try lia.
Qed.

Lemma promotional_marketing_and_bulk_rules_witness :
  let mk i := {| Outlook.id := i; Outlook.subject := None; Outlook.from := None;
                 Outlook.receivedDateTime := ""; Outlook.isRead := false;
                 Outlook.bodyPreview := None |} in
  let st := {| Outlook.total := 21; Outlook.unread := 21; Outlook.read := 0;
               Outlook.marketing_score := 0;
               Outlook.emails := map mk (replicate 21 "m");
               Outlook.name := ""; Outlook.oldest := None; Outlook.newest := None;
               Outlook.read_rate := 0 |} in
  let cats := Outlook.categorize_senders 0 (fun _ => Raise ValueError) [("b", st)] in
  ("b", st) ∈ [("b", st)]
  /\ ("b", st) ∈ Outlook.senders (Outlook.bulk_senders cats)
  /\ ("b", st) ∈ Outlook.senders (Outlook.never_opened cats).
Proof.
  intros mk st cats.
  assert (Hin : ("b", st) ∈ [("b", st)]) by left.
  split; [exact Hin|].
  apply (proj2 promotional_marketing_and_bulk_rules 0%Z (fun _ => Raise ValueError)
           [("b", st)] "b" st Hin); [cbn; lia|reflexivity].
Defined.

Lemma rate_rarely_iff (r t : nat) :
  0 < t ->
  ((0 < Z.of_nat r # Pos.of_nat t)%Q /\ (Z.of_nat r # Pos.of_nat t < 0.2)%Q)
  <-> 1 <= r /\ 5 * r < t.
Proof.
  intros Ht. unfold Qlt. cbn [Qnum Qden].
  assert (Hpos : Z.pos (Pos.of_nat t) = Z.of_nat t).
  { rewrite <- positive_nat_Z, Nat2Pos.id by lia. reflexivity. }
  rewrite Hpos. lia.
Qed.

Lemma gmail_analyzed_rarely (st : Gmail.stats) :
  Gmail.analyzed st ->
  (Gmail.is_never_opened st = false /\ Gmail.is_rarely_opened st = true)
  <-> 1 <= Gmail.read st /\ 5 * Gmail.read st < Gmail.total st.
Proof.
  intros [[Hsum _] Hrate].
  rewrite <- not_true_iff_false, gmail_is_never_opened_iff, gmail_is_rarely_opened_iff, Hrate.
  destruct (0 <? Gmail.total st) eqn:Hpos.
  - apply Nat.ltb_lt in Hpos. rewrite (rate_rarely_iff _ _ Hpos). lia.
  - apply Nat.ltb_ge in Hpos. split; [|lia]. intros (_ & _ & H & _). by vm_compute in H.
Qed.

Lemma outlook_analyzed_rarely (st : Outlook.stats) :
  Outlook.analyzed st ->
  (Outlook.is_never_opened st = false /\ Outlook.is_rarely_opened st = true)
  <-> 1 <= Outlook.read st /\ 5 * Outlook.read st < Outlook.total st.
Proof.
  intros [[Hsum _] Hrate].
  rewrite <- not_true_iff_false, outlook_is_never_opened_iff,
    outlook_is_rarely_opened_iff, Hrate.
  destruct (0 <? Outlook.total st) eqn:Hpos.
  - apply Nat.ltb_lt in Hpos. rewrite (rate_rarely_iff _ _ Hpos). lia.
  - apply Nat.ltb_ge in Hpos. split; [|lia]. intros (_ & _ & H & _). by vm_compute in H.
Qed.

(** X17.  On the dictionary that [analyze_emails] returns, a sender is
    listed in [rarely_opened] iff it has at least one read message and more
    than five times as many messages as read ones.  Such a sender has at
    least 6 messages: the bound [total >= 3] of the rule never decides. *)
Theorem rarely_opened_needs_six_messages :
  (forall input : list Gmail.email, exists d,
     Gmail.analyze_emails input = Ok d
     /\ forall utcnow strptime addr st, (addr, st) ∈ d ->
          let listed :=
            (addr, st) ∈ Gmail.senders
                           (Gmail.rarely_opened (Gmail.categorize_senders utcnow strptime d)) in
          (listed <-> 1 <= Gmail.read st /\ 5 * Gmail.read st < Gmail.total st)
          /\ (listed -> 6 <= Gmail.total st))
  /\
  (forall input : list Outlook.email, exists d,
     Outlook.analyze_emails input = Ok d
     /\ forall utcnow fromisoformat addr st, (addr, st) ∈ d ->
          let listed :=
            (addr, st) ∈ Outlook.senders
                           (Outlook.rarely_opened
                              (Outlook.categorize_senders utcnow fromisoformat d)) in
          (listed <-> 1 <= Outlook.read st /\ 5 * Outlook.read st < Outlook.total st)
          /\ (listed -> 6 <= Outlook.total st)).
Proof.
  split.
  - intros input.
    destruct (gmail_analyze_emails_analyzed input) as (d & Hrun & Hall & _).
    exists d. split; [exact Hrun|]. intros utcnow parser addr st Hin listed.
    assert (Han : Gmail.analyzed st).
    { rewrite Forall_forall in Hall. apply (Hall (addr, st)). exact Hin. }
    assert (Hiff : listed <-> 1 <= Gmail.read st /\ 5 * Gmail.read st < Gmail.total st).
    { subst listed. rewrite gmail_elem_of_rarely_opened. cbn [snd].
      rewrite <- (gmail_analyzed_rarely st Han). tauto. }
    split; [exact Hiff|]. rewrite Hiff. lia.
  - intros input.
    destruct (outlook_analyze_emails_analyzed input) as (d & Hrun & Hall & _).
    exists d. split; [exact Hrun|]. intros utcnow parser addr st Hin listed.
    assert (Han : Outlook.analyzed st).
    { rewrite Forall_forall in Hall. apply (Hall (addr, st)). exact Hin. }
    assert (Hiff : listed <-> 1 <= Outlook.read st /\ 5 * Outlook.read st < Outlook.total st).
    { subst listed. rewrite outlook_elem_of_rarely_opened. cbn [snd].
      rewrite <- (outlook_analyzed_rarely st Han). tauto. }
    split; [exact Hiff|]. rewrite Hiff. lia.
Qed.

(** ** Properties of the old_unread rule *)

Lemma datetime_lt_naive (d : datetime) (utcnow : Z) :
  datetime_lt (replace_tzinfo_none d) (minus_days {| naive := utcnow; tzinfo := None |} 30)
  = Ok (naive d <? utcnow - 30 * 86400 * 1000000)%Z.
Proof. reflexivity. Qed.

(** X18.  What makes a message old and unread.  Gmail: it is unread, its
    date is not empty, and the first of the two formats that parses the
    first 31 characters of the date gives calendar fields that lie more
    than 30 days before [utcnow]; the zone offset of the date plays no
    part.  Outlook: the same with [fromisoformat] on the date with [Z]
    replaced by [+00:00].  And the records of [old_unread] hold such
    messages only. *)
Theorem old_unread_rule :
  (forall utcnow strptime (e : Gmail.email),
     let s := Py.take 31 (Gmail.date e) in
     let f1 := "%a, %d %b %Y %H:%M:%S %z" in
     let f2 := "%d %b %Y %H:%M:%S %z" in
     (Gmail.is_old_unread utcnow strptime e = true
      <-> Gmail.isRead e = false /\ Gmail.date e <> ""
          /\ exists dt,
               (strptime s f1 = Ok dt
                \/ ((exists err, strptime s f1 = Raise err) /\ strptime s f2 = Ok dt))
               /\ (naive dt < utcnow - 30 * 86400 * 1000000)%Z)
     /\ forall d addr old_stats e',
          (addr, old_stats) ∈ Gmail.senders
             (Gmail.old_unread (Gmail.categorize_senders utcnow strptime d)) ->
          e' ∈ Gmail.emails old_stats ->
          Gmail.is_old_unread utcnow strptime e' = true)
  /\
  (forall utcnow fromisoformat (e : Outlook.email),
     let s := Py.replace "Z" "+00:00" (Outlook.receivedDateTime e) in
     (Outlook.is_old_unread utcnow fromisoformat e = true
      <-> Outlook.isRead e = false /\ Outlook.receivedDateTime e <> ""
          /\ exists dt, fromisoformat s = Ok dt
                        /\ (naive dt < utcnow - 30 * 86400 * 1000000)%Z)
     /\ forall d addr old_stats e',
          (addr, old_stats) ∈ Outlook.senders
             (Outlook.old_unread (Outlook.categorize_senders utcnow fromisoformat d)) ->
          e' ∈ Outlook.emails old_stats ->
          Outlook.is_old_unread utcnow fromisoformat e' = true).
Proof.
  split.
  - intros utcnow strptime e s f1 f2. split.
    + unfold Gmail.is_old_unread.
      destruct (Gmail.isRead e); cbn [negb]; [by split; [|intros [? _]]|].
      destruct (String.eqb (Gmail.date e) "") eqn:Hd; cbn [negb].
      { apply String.eqb_eq in Hd. split; [done|]. by intros (_ & ? & _). }
      apply String.eqb_neq in Hd.
      unfold Gmail.DATE_FORMATS. cbn [Gmail.try_formats]. fold s f1 f2.
      unfold Gmail.thirty_days_ago, Gmail.now.
      destruct (strptime s f1) as [dt1|err1] eqn:H1.
      * cbn [mbind result_bind try_except]. rewrite datetime_lt_naive.
        cbn [try_except try_or]. rewrite Z.ltb_lt. split.
        -- intros Hlt. repeat split; try done. exists dt1. split; [by left|exact Hlt].
        -- intros (_ & _ & dt & [[= ->]|[[err Herr] _]] & Hlt); [exact Hlt|discriminate].
      * cbn [mbind result_bind try_except].
        destruct (strptime s f2) as [dt2|err2] eqn:H2.
        -- cbn [mbind result_bind try_except]. rewrite datetime_lt_naive.
           cbn [try_except try_or]. rewrite Z.ltb_lt. split.
           ++ intros Hlt. repeat split; try done. exists dt2. split; [|exact Hlt].
              right. split; [by eexists|reflexivity].
           ++ intros (_ & _ & dt & [?|[_ [= ->]]] & Hlt); [discriminate|exact Hlt].
        -- cbn. split; [done|]. intros (_ & _ & dt & [?|[_ ?]] & _); discriminate.
    + intros d addr old_stats e' (st & _ & _ & Hold)%gmail_elem_of_old_unread Hin.
      cbn [snd] in Hold. subst old_stats. cbn in Hin.
      by apply list_elem_of_In, List.filter_In in Hin as [_ ?].
  - intros utcnow fromisoformat e s. split.
    + unfold Outlook.is_old_unread.
      destruct (Outlook.isRead e); cbn [negb]; [by split; [|intros [? _]]|].
      destruct (String.eqb (Outlook.receivedDateTime e) "") eqn:Hd; cbn [negb].
      { apply String.eqb_eq in Hd. split; [done|]. by intros (_ & ? & _). }
      apply String.eqb_neq in Hd.
      unfold Outlook.parse_and_compare. fold s.
      unfold Outlook.thirty_days_ago, Outlook.now.
      destruct (fromisoformat s) as [dt1|err1] eqn:H1.
      * cbn [mbind result_bind]. rewrite datetime_lt_naive.
        cbn [try_or]. rewrite Z.ltb_lt. split.
        -- intros Hlt. repeat split; try done. by exists dt1.
        -- by intros (_ & _ & dt & [= ->] & Hlt).
      * cbn. split; [done|]. by intros (_ & _ & dt & ? & _).
    + intros d addr old_stats e' (st & _ & _ & Hold)%outlook_elem_of_old_unread Hin.
      cbn [snd] in Hold. subst old_stats. cbn in Hin.
      by apply list_elem_of_In, List.filter_In in Hin as [_ ?].
Qed.

(** ** Properties of the selection expression *)

Lemma slice_subseteq {A} (lo hi : Z) (l : list A) (x : A) :
  x ∈ Py.slice lo hi l -> x ∈ l.
Proof.
  unfold Py.slice. intros Hx.
  by eapply subseteq_drop, subseteq_take.
Qed.

Lemma getitem_elem_of {A} (l : list A) (i : Z) (x : A) : getitem l i = Ok x -> x ∈ l.
Proof.
  unfold getitem. destruct (_ <? 0)%Z; [discriminate|].
  destruct (nth_error l _) as [y|] eqn:Hnth; [|discriminate].
  intros [= <-]. apply list_elem_of_In. by eapply nth_error_In.
Qed.

Lemma for_each_getitem_subseteq {A} (l : list A) (ns : list Z) (ys : list A) (x : A) :
  for_each (fun i => getitem l i) ns = Ok ys -> x ∈ ys -> x ∈ l.
Proof.
  revert ys. induction ns as [|i ns IH]; intros ys; cbn [for_each].
  - intros [= <-] []%elem_of_nil.
  - destruct (getitem l i) as [y|] eqn:Hy; [|discriminate]. cbn.
    destruct (for_each _ ns) as [ys'|]; [|discriminate]. cbn.
    intros [= <-] [->|Hin]%elem_of_cons; [by eapply getitem_elem_of|by eapply IH].
Qed.

(** X19.  Whatever is typed, the selection only holds entries that were
    displayed. *)
Theorem select_only_displayed {A} (raw : string) (displayed : list A) (x : A) :
  x ∈ Selection.select raw displayed -> x ∈ displayed.
Proof.
  unfold Selection.select.
  destruct (String.eqb _ "all"); [done|].
  destruct (Py.has_char "-" _ && negb (Py.has_char "," _)).
  - destruct (Selection.parse_range _) as [[a b]|]; cbn; [apply slice_subseteq|].
    by intros []%elem_of_nil.
  - destruct (Selection.parse_list _) as [nums|]; cbn; [|by intros []%elem_of_nil].
    destruct (Selection.pick displayed nums) as [ys|] eqn:Hpick; cbn;
      [|by intros []%elem_of_nil].
    unfold Selection.pick in Hpick.
    apply (for_each_getitem_subseteq displayed
             (map (fun n => (n - 1)%Z)
                  (List.filter (fun n => (0 <? n)%Z
                                         && (n <=? Z.of_nat (length displayed))%Z) nums))).
    rewrite <- Hpick. clear. induction (List.filter _ nums) as [|n l IH]; [reflexivity|].
    cbn [map for_each]. by rewrite IH.
Qed.

Lemma select_only_displayed_witness :
  "c" ∈ Selection.select "3, 9" ["a"; "b"; "c"] /\ "c" ∈ ["a"; "b"; "c"].
Proof.
  assert (H : "c" ∈ Selection.select "3, 9" ["a"; "b"; "c"]) by (vm_compute; left).
  split; [exact H|].
  exact (select_only_displayed "3, 9" ["a"; "b"; "c"] "c" H).
Defined.




Lemma nth_error_is_lookup {A} (l : list A) (n : nat) : nth_error l n = l !! n.
Proof. revert n. induction l as [|x l IH]; intros [|n]; cbn; auto. Qed.

Lemma getitem_lookup {A} (l : list A) (n : Z) :
  (0 < n <= Z.of_nat (length l))%Z ->
  exists x, getitem l (n - 1) = Ok x /\ l !! Z.to_nat (n - 1) = Some x.
Proof.
  intros Hn. unfold getitem.
  destruct (n - 1 <? 0)%Z eqn:Hneg; [apply Z.ltb_lt in Hneg; lia|]. rewrite Hneg.
  destruct (nth_error l (Z.to_nat (n - 1))) as [x|] eqn:Hnth.
  - exists x. split; [reflexivity|]. by rewrite <- nth_error_is_lookup.
  - apply nth_error_None in Hnth. lia.
Qed.

(** X21.  A comma list selects, in the order typed, the displayed entry of
    each number between 1 and the length of the list, once for each time
    the number is typed; the other numbers are dropped. *)
Theorem select_list_in_order {A} (raw : string) (displayed : list A) (nums : list Z) :
  let sel := Py.lower (Py.strip raw) in
  sel <> "all" ->
  Py.has_char "-" sel && negb (Py.has_char "," sel) = false ->
  Selection.parse_list sel = Ok nums ->
  Selection.select raw displayed
  = omap (fun n => if (0 <? n)%Z && (n <=? Z.of_nat (length displayed))%Z
                   then displayed !! Z.to_nat (n - 1) else None) nums.
Proof.
  intros sel Hall Hbranch Hparse. unfold Selection.select. fold sel.
  apply String.eqb_neq in Hall. rewrite Hall, Hbranch, Hparse. cbn [mbind result_bind].
  unfold Selection.pick.
  assert (Hpick : for_each (fun n => getitem displayed (n - 1))
                    (List.filter (fun n => (0 <? n)%Z
                                           && (n <=? Z.of_nat (length displayed))%Z) nums)
                  = Ok (omap (fun n => if (0 <? n)%Z
                                          && (n <=? Z.of_nat (length displayed))%Z
                                       then displayed !! Z.to_nat (n - 1) else None) nums)).
  { clear. induction nums as [|n nums IH]; [reflexivity|].
    cbn [List.filter omap list_omap].
    destruct ((0 <? n)%Z && (n <=? Z.of_nat (length displayed))%Z) eqn:Hg; [|exact IH].
    apply andb_true_iff in Hg as [Hlo%Z.ltb_lt Hhi%Z.leb_le].
    destruct (getitem_lookup displayed n) as (x & Hget & Hlook); [lia|].
    cbn [for_each]. rewrite Hget, Hlook. cbn. by rewrite IH. }
  by rewrite Hpick.
Qed.

Lemma select_list_in_order_witness :
  Selection.select "3,1, 3,7" ["a"; "b"; "c"] = ["c"; "a"; "c"].
Proof.
  apply (select_list_in_order "3,1, 3,7" ["a"; "b"; "c"] [3; 1; 3; 7]%Z);
    [discriminate|reflexivity|reflexivity].
Defined.

(** ** Properties of the clean-up commands *)

Section GmailCleanupFacts.
Import Eff Gmail.
Context {P : Type}.
Variable serve : P -> string -> string -> P * result unit.


Lemma gmail_cleanup_confirmed (senders_list : list (string * stats)) (answer : string)
    (w : world P) :
  Py.lower (Py.strip answer) = "yes" ->
  let reqs := expected_requests (emails_of senders_list) true in
  exists w',
    cleanup_selected_senders serve senders_list answer w
      = (w', Ok (count_true (succeeded) (answers serve (remote w) reqs)))
    /\ requests (log w') = requests (log w) ++ reqs.
Proof.
  intros Hyes reqs. unfold cleanup_selected_senders. subst reqs.
  destruct (emails_of senders_list) as [|e l] eqn:Hl.
  { exists w. cbn. by rewrite app_nil_r. }
  rewrite Hyes. cbn [String.eqb Ascii.eqb Bool.eqb negb].
  destruct (gmail_delete_from serve (length (e :: l)) true (e :: l) 0 0 0 w)
    as (w' & Hrun & Hlog).
  exists w'. split; [|exact Hlog].
  unfold delete_emails_batch. eapply eq_trans; [eapply bind_ok; exact Hrun|].
  reflexivity.
Qed.

Lemma gmail_auto_clean_confirmed (c : categories) (answer : string) (w : world P) :
  Py.lower (Py.strip answer) = "yes" ->
  let reqs := expected_requests (auto_clean_emails c) true in
  let ans := answers serve (remote w) reqs in
  exists w',
    auto_clean serve c answer w
      = (w', Ok (Some (count_true (succeeded) ans,
                       count_true (fun r => negb (succeeded r)) ans)))
    /\ requests (log w') = requests (log w) ++ reqs.
Proof.
  intros Hyes reqs ans. unfold auto_clean. rewrite Hyes. cbn [String.eqb Ascii.eqb Bool.eqb].
  destruct (gmail_delete_from serve (length (auto_clean_emails c)) true
              (auto_clean_emails c) 0 0 0 w) as (w' & Hrun & Hlog).
  exists w'. split; [|exact Hlog].
  unfold delete_emails_batch. eapply eq_trans; [eapply bind_ok; exact Hrun|].
  reflexivity.
Qed.

End GmailCleanupFacts.

Section OutlookCleanupFacts.
Import Eff Outlook.
Context {P : Type}.
Variable serve : P -> string -> string -> P * result nat.


Lemma outlook_cleanup_confirmed (senders_list : list (string * stats)) (answer : string)
    (w : world P) :
  Py.lower (Py.strip answer) = "yes" ->
  let reqs := expected_requests (emails_of senders_list) true in
  exists w',
    cleanup_selected_senders serve senders_list answer w
      = (w', Ok (count_true (succeeded true) (answers serve (remote w) reqs)))
    /\ requests (log w') = requests (log w) ++ reqs.
Proof.
  intros Hyes reqs. unfold cleanup_selected_senders. subst reqs.
  destruct (emails_of senders_list) as [|e l] eqn:Hl.
  { exists w. cbn. by rewrite app_nil_r. }
  rewrite Hyes. cbn [String.eqb Ascii.eqb Bool.eqb negb].
  destruct (outlook_delete_from serve (length (e :: l)) true (e :: l) 0 0 0 w)
    as (w' & Hrun & Hlog).
  exists w'. split; [|exact Hlog].
  unfold delete_emails_batch. eapply eq_trans; [eapply bind_ok; exact Hrun|].
  reflexivity.
Qed.

Lemma outlook_auto_clean_confirmed (c : categories) (answer : string) (w : world P) :
  Py.lower (Py.strip answer) = "yes" ->
  let reqs := expected_requests (auto_clean_emails c) true in
  let ans := answers serve (remote w) reqs in
  exists w',
    auto_clean serve c answer w
      = (w', Ok (Some (count_true (succeeded true) ans,
                       count_true (fun r => negb (succeeded true r)) ans)))
    /\ requests (log w') = requests (log w) ++ reqs.
Proof.
  intros Hyes reqs ans. unfold auto_clean. rewrite Hyes. cbn [String.eqb Ascii.eqb Bool.eqb].
  destruct (outlook_delete_from serve (length (auto_clean_emails c)) true
              (auto_clean_emails c) 0 0 0 w) as (w' & Hrun & Hlog).
  exists w'. split; [|exact Hlog].
  unfold delete_emails_batch. eapply eq_trans; [eapply bind_ok; exact Hrun|].
  reflexivity.
Qed.

End OutlookCleanupFacts.



Example cleanup_selected_twice :
  let serve (p : nat) (_ _ : string) : nat * result unit := (S p, Ok tt) in
  let e i := {| Gmail.id := i; Gmail.threadId := None; Gmail.from := "";
                Gmail.subject := ""; Gmail.date := ""; Gmail.snippet := "";
                Gmail.labelIds := []; Gmail.isRead := false |} in
  let st := Gmail.make_old_stats Gmail.new_stats [e "1"; e "2"] in
  Gmail.cleanup_selected_senders serve [("a", st); ("a", st)] " YES "
    {| Eff.remote := 0; Eff.log := [] |}
  = ({| Eff.remote := 4;
        Eff.log := [Eff.Request "trash" "1"; Eff.Request "trash" "2";
                    Eff.Request "trash" "1"; Eff.Request "trash" "2"] |}, Ok 4).
Proof. reflexivity. Qed.

(** X23.  With the answer [yes], [cleanup_selected_senders] sends one
    trash request for every message of every entry given, in order and
    without removing a message that comes twice, and returns the number of
    requests that succeeded; it raises nothing. *)
Theorem cleanup_trashes_every_listed_message :
  (forall (P : Type) (serve : P -> string -> string -> P * result unit)
          (senders_list : list (string * Gmail.stats)) (answer : string)
          (w : Eff.world P),
     Py.lower (Py.strip answer) = "yes" ->
     let reqs := map (fun e => ("trash", Gmail.id e))
                     (concat (map (fun item => Gmail.emails item.2) senders_list)) in
     exists w',
       Gmail.cleanup_selected_senders serve senders_list answer w
         = (w', Ok (count_true Gmail.succeeded (Eff.answers serve (Eff.remote w) reqs)))
       /\ Eff.requests (Eff.log w') = Eff.requests (Eff.log w) ++ reqs)
  /\
  (forall (P : Type) (serve : P -> string -> string -> P * result nat)
          (senders_list : list (string * Outlook.stats)) (answer : string)
          (w : Eff.world P),
     Py.lower (Py.strip answer) = "yes" ->
     let reqs := map (fun e => ("POST", Outlook.GRAPH_ENDPOINT +:+ "/me/messages/"
                                        +:+ Outlook.id e +:+ "/move"))
                     (concat (map (fun item => Outlook.emails item.2) senders_list)) in
     exists w',
       Outlook.cleanup_selected_senders serve senders_list answer w
         = (w', Ok (count_true (Outlook.succeeded true)
                      (Eff.answers serve (Eff.remote w) reqs)))
       /\ Eff.requests (Eff.log w') = Eff.requests (Eff.log w) ++ reqs).
Proof.
  split; intros P serve senders_list answer w Hyes reqs.
  - apply (gmail_cleanup_confirmed serve senders_list answer w Hyes).
  - apply (outlook_cleanup_confirmed serve senders_list answer w Hyes).
Qed.

Lemma cleanup_trashes_every_listed_message_witness :
  let serve (p : nat) (_ _ : string) : nat * result nat :=
    (S p, if p =? 0 then Ok 404 else Ok 201) in
  let e i := {| Outlook.id := i; Outlook.subject := None; Outlook.from := None;
                Outlook.receivedDateTime := ""; Outlook.isRead := false;
                Outlook.bodyPreview := None |} in
  let st := Outlook.make_old_stats Outlook.new_stats [e "1"; e "2"; e "3"] in
  Py.lower (Py.strip "Yes") = "yes"
  /\ exists w',
       Outlook.cleanup_selected_senders serve [("a", st)] "Yes"
         {| Eff.remote := 0; Eff.log := [] |} = (w', Ok 2).
Proof.
  intros serve e st. split; [reflexivity|].
  destruct (proj2 cleanup_trashes_every_listed_message nat serve [("a", st)] "Yes"
              {| Eff.remote := 0; Eff.log := [] |} eq_refl) as (w' & Hrun & _).
  exists w'. exact Hrun.
Defined.

(** ** Properties of a whole run: analysis, categories, auto-clean *)

Lemma sum_list_length_concat {A B} (f : A -> list B) (g : A -> nat) (l : list A) :
  (forall x, x ∈ l -> g x = length (f x)) ->
  sum_list (map g l) = length (concat (map f l)).
Proof.
  induction l as [|x l IH]; intros H; cbn [map concat sum_list_with]; [reflexivity|].
  rewrite length_app, <- IH, (H x); [reflexivity|left|].
  intros y Hy. apply H. by right.
Qed.

Lemma elem_of_concat_map {A B} (f : A -> list B) (l : list A) (y : B) :
  y ∈ concat (map f l) <-> exists x, x ∈ l /\ y ∈ f x.
Proof.
  induction l as [|x l IH]; cbn [map concat].
  - rewrite elem_of_nil. split; [done|]. by intros (x & []%elem_of_nil & _).
  - rewrite elem_of_app, IH. split.
    + intros [H|(x' & H1 & H2)]; [exists x; split; [left|done]|].
      exists x'. split; [by right|done].
    + intros (x' & [->|H1]%elem_of_cons & H2); [by left|right; eauto].
Qed.

Lemma StronglySorted_app_between {A} (R : A -> A -> Prop) (l1 l2 : list A) :
  StronglySorted R (l1 ++ l2) -> forall x y, x ∈ l1 -> y ∈ l2 -> R x y.
Proof.
  induction l1 as [|a l1 IH]; intros H x y Hx Hy; [by apply elem_of_nil in Hx|].
  cbn [app] in H. apply StronglySorted_inv in H as [H1 H2].
  apply elem_of_cons in Hx as [->|Hx]; [|by eapply IH].
  rewrite Forall_forall in H2. apply H2, elem_of_app. by right.
Qed.

Section GmailRunFacts.
Import Gmail.
Variable utcnow : Z.
Variable parser : string -> string -> result datetime.

Local Notation categorize_senders := (categorize_senders utcnow parser).

(** An entry of a category computed from the result of [analyze_emails]:
    its count is the number of its messages, which are messages of the
    input. *)
Lemma gmail_category_entry (input : list email) (d : Dict.t stats) (cat : category)
    (kv : string * stats) :
  analyze_emails input = Ok d ->
  cat ∈ values (categorize_senders d) -> kv ∈ senders cat ->
  total kv.2 = length (emails kv.2) /\ (forall e, e ∈ emails kv.2 -> e ∈ input).
Proof.
  intros Hrun Hcat Hkv.
  assert (Hd : forall a st, (a, st) ∈ d ->
            total st = length (emails st) /\ (forall e, e ∈ emails st -> e ∈ input)).
  { intros a st Hin.
    destruct (gmail_analyze_emails_analyzed input) as (d' & Hrun' & Hall & _).
    rewrite Hrun in Hrun'. injection Hrun' as <-.
    rewrite Forall_forall in Hall. destruct (Hall _ Hin) as [[_ Htot] _].
    cbn [snd] in Htot. split; [exact Htot|].
    destruct (gmail_analyzed_entry input d a st Hrun Hin) as (-> & _).
    intros e He. apply list_elem_of_In, List.filter_In in He as [He _].
    by apply list_elem_of_In. }
  assert (Hcases : cat = old_unread (categorize_senders d)
                   \/ cat ∈ other_categories (categorize_senders d)
                            ++ [never_opened (categorize_senders d);
                                rarely_opened (categorize_senders d)]).
  { revert Hcat. generalize (categorize_senders d). intros c.
    unfold values, items, other_categories. cbn [map snd app].
    rewrite !elem_of_cons, !elem_of_nil. tauto. }
  destruct Hcases as [-> | Hother].
  - apply (gmail_elem_of_old_unread utcnow parser) in Hkv as (st & Hin & _ & ->).
    destruct (Hd _ _ Hin) as [_ Hsub].
    split; [reflexivity|].
    intros e He. apply Hsub.
    change (e ∈ old_unread_of utcnow parser st) in He. unfold old_unread_of in He.
    apply list_elem_of_In, List.filter_In in He as [He _]. by apply list_elem_of_In.
  - destruct kv as [a st]. apply (Hd a).
    by eapply (gmail_global_records utcnow parser).
Qed.

(** The number announced by the auto-clean choice is the number of
    messages that the three loops meet, repetitions included. *)
Lemma gmail_total_to_clean (input : list email) (d : Dict.t stats) :
  analyze_emails input = Ok d ->
  total_to_clean (categorize_senders d)
  = length (Resolver.encountered emails senders (values (categorize_senders d))).
Proof.
  intros Hrun.
  assert (Hcount : forall cat, cat ∈ values (categorize_senders d) ->
            email_count cat
            = length (concat (map (fun item => emails item.2) (senders cat)))).
  { intros cat Hcat.
    destruct (gmail_categorize_senders_values utcnow parser d cat Hcat)
      as (entries & Hs & -> & _).
    rewrite <- (sum_list_length_concat (fun item => emails item.2)
                  (fun item => total item.2)).
    - by rewrite Hs, (sort_desc_perm (fun x => total x.2)).
    - intros kv Hkv. by apply (gmail_category_entry input d cat kv). }
  unfold total_to_clean, menu_items, Resolver.encountered, values in *.
  revert Hcount. generalize (items (categorize_senders d)). intros its Hcount.
  induction its as [|[k cat] its IH]; [reflexivity|].
  cbn [List.filter map concat snd].
  assert (Hcat : email_count cat
                 = length (concat (map (fun item => emails item.2) (senders cat))))
    by (apply Hcount; left).
  rewrite length_app, <- IH by (intros cat' Hin; apply Hcount; by right).
  destruct (senders cat) eqn:Hs; cbn [map sum_list_with snd]; [reflexivity|].
  rewrite Hcat. reflexivity.
Qed.

(** The sum of the [unread] counters follows the loop. *)
Lemma gmail_fold_unread (l : list email) : forall d,
  Dict.sum unread (fold_left analyze_step l d)
  = Dict.sum unread d + count_true (fun e => negb (isRead e)) l.
Proof.
  induction l as [|e l IH]; intros d; cbn [fold_left count_true]; [lia|].
  rewrite IH, gmail_analyze_step_update.
  rewrite (dict_update_sum unread (if negb (isRead e) then 1 else 0));
    [lia|reflexivity|].
  intros st. destruct (gmail_record_email_items e st) as (_ & _ & -> & _).
  destruct (isRead e); cbn [negb]; lia.
Qed.

Lemma gmail_statistics_counts (input : list email) (d : Dict.t stats) :
  analyze_emails input = Ok d ->
  Dict.sum total d = length input
  /\ Dict.sum unread d = count_true (fun e => negb (isRead e)) input
  /\ length d = length (remove_dups (map addr_of input)).
Proof.
  intros Hrun.
  destruct (gmail_analyze_emails_analyzed input) as (d' & Hrun' & _ & Htotal).
  rewrite Hrun in Hrun'. injection Hrun' as <-.
  split; [exact Htotal|]. split.
  - rewrite gmail_analyze_emails_ok in Hrun. injection Hrun as <-.
    rewrite (dict_sum_map unread with_read_rate)
      by (intros st; apply gmail_with_read_rate_fields).
    by rewrite gmail_fold_unread.
  - destruct (gmail_analyze_emails_structure input) as (d' & Hrun' & Hnd & Hkeys & _).
    rewrite Hrun in Hrun'. injection Hrun' as <-.
    transitivity (length (Dict.keys d)); [unfold Dict.keys; by rewrite length_map|].
    apply Permutation_length, NoDup_Permutation;
      [exact Hnd|apply NoDup_remove_dups|].
    intros a. rewrite Hkeys, elem_of_remove_dups, list_elem_of_fmap.
    split; intros (e & H1 & H2); exists e; auto.
Qed.

End GmailRunFacts.

Section OutlookRunFacts.
Import Outlook.
Variable utcnow : Z.
Variable parser : string -> result datetime.

Local Notation categorize_senders := (categorize_senders utcnow parser).

(** An entry of a category computed from the result of [analyze_emails]:
    its count is the number of its messages, which are messages of the
    input. *)
Lemma outlook_category_entry (input : list email) (d : Dict.t stats) (cat : category)
    (kv : string * stats) :
  analyze_emails input = Ok d ->
  cat ∈ values (categorize_senders d) -> kv ∈ senders cat ->
  total kv.2 = length (emails kv.2) /\ (forall e, e ∈ emails kv.2 -> e ∈ input).
Proof.
  intros Hrun Hcat Hkv.
  assert (Hd : forall a st, (a, st) ∈ d ->
            total st = length (emails st) /\ (forall e, e ∈ emails st -> e ∈ input)).
  { intros a st Hin.
    destruct (outlook_analyze_emails_analyzed input) as (d' & Hrun' & Hall & _).
    rewrite Hrun in Hrun'. injection Hrun' as <-.
    rewrite Forall_forall in Hall. destruct (Hall _ Hin) as [[_ Htot] _].
    cbn [snd] in Htot. split; [exact Htot|].
    destruct (outlook_analyzed_entry input d a st Hrun Hin) as (-> & _).
    intros e He. apply list_elem_of_In, List.filter_In in He as [He _].
    by apply list_elem_of_In. }
  assert (Hcases : cat = old_unread (categorize_senders d)
                   \/ cat ∈ other_categories (categorize_senders d)
                            ++ [never_opened (categorize_senders d);
                                rarely_opened (categorize_senders d)]).
  { revert Hcat. generalize (categorize_senders d). intros c.
    unfold values, items, other_categories. cbn [map snd app].
    rewrite !elem_of_cons, !elem_of_nil. tauto. }
  destruct Hcases as [-> | Hother].
  - apply (outlook_elem_of_old_unread utcnow parser) in Hkv as (st & Hin & _ & ->).
    destruct (Hd _ _ Hin) as [_ Hsub].
    split; [reflexivity|].
    intros e He. apply Hsub.
    change (e ∈ old_unread_of utcnow parser st) in He. unfold old_unread_of in He.
    apply list_elem_of_In, List.filter_In in He as [He _]. by apply list_elem_of_In.
  - destruct kv as [a st]. apply (Hd a).
    by eapply (outlook_global_records utcnow parser).
Qed.

(** The number announced by the auto-clean choice is the number of
    messages that the three loops meet, repetitions included. *)
Lemma outlook_total_to_clean (input : list email) (d : Dict.t stats) :
  analyze_emails input = Ok d ->
  total_to_clean (categorize_senders d)
  = length (Resolver.encountered emails senders (values (categorize_senders d))).
Proof.
  intros Hrun.
  assert (Hcount : forall cat, cat ∈ values (categorize_senders d) ->
            email_count cat
            = length (concat (map (fun item => emails item.2) (senders cat)))).
  { intros cat Hcat.
    destruct (outlook_categorize_senders_values utcnow parser d cat Hcat)
      as (entries & Hs & -> & _).
    rewrite <- (sum_list_length_concat (fun item => emails item.2)
                  (fun item => total item.2)).
    - by rewrite Hs, (sort_desc_perm (fun x => total x.2)).
    - intros kv Hkv. by apply (outlook_category_entry input d cat kv). }
  unfold total_to_clean, menu_items, Resolver.encountered, values in *.
  revert Hcount. generalize (items (categorize_senders d)). intros its Hcount.
  induction its as [|[k cat] its IH]; [reflexivity|].
  cbn [List.filter map concat snd].
  assert (Hcat : email_count cat
                 = length (concat (map (fun item => emails item.2) (senders cat))))
    by (apply Hcount; left).
  rewrite length_app, <- IH by (intros cat' Hin; apply Hcount; by right).
  destruct (senders cat) eqn:Hs; cbn [map sum_list_with snd]; [reflexivity|].
  rewrite Hcat. reflexivity.
Qed.

(** The sum of the [unread] counters follows the loop. *)
Lemma outlook_fold_unread (l : list email) : forall d,
  Dict.sum unread (fold_left analyze_step l d)
  = Dict.sum unread d + count_true (fun e => negb (isRead e)) l.
Proof.
  induction l as [|e l IH]; intros d; cbn [fold_left count_true]; [lia|].
  rewrite IH, outlook_analyze_step_update.
  rewrite (dict_update_sum unread (if negb (isRead e) then 1 else 0));
    [lia|reflexivity|].
  intros st. destruct (outlook_record_email_items e st) as (_ & _ & -> & _).
  destruct (isRead e); cbn [negb]; lia.
Qed.

Lemma outlook_statistics_counts (input : list email) (d : Dict.t stats) :
  analyze_emails input = Ok d ->
  Dict.sum total d = length input
  /\ Dict.sum unread d = count_true (fun e => negb (isRead e)) input
  /\ length d = length (remove_dups (map addr_of input)).
Proof.
  intros Hrun.
  destruct (outlook_analyze_emails_analyzed input) as (d' & Hrun' & _ & Htotal).
  rewrite Hrun in Hrun'. injection Hrun' as <-.
  split; [exact Htotal|]. split.
  - rewrite outlook_analyze_emails_ok in Hrun. injection Hrun as <-.
    rewrite (dict_sum_map unread with_read_rate)
      by (intros st; apply outlook_with_read_rate_fields).
    by rewrite outlook_fold_unread.
  - destruct (outlook_analyze_emails_structure input) as (d' & Hrun' & Hnd & Hkeys & _).
    rewrite Hrun in Hrun'. injection Hrun' as <-.
    transitivity (length (Dict.keys d)); [unfold Dict.keys; by rewrite length_map|].
    apply Permutation_length, NoDup_Permutation;
      [exact Hnd|apply NoDup_remove_dups|].
    intros a. rewrite Hkeys, elem_of_remove_dups, list_elem_of_fmap.
    split; intros (e & H1 & H2); exists e; auto.
Qed.

End OutlookRunFacts.

Lemma StronglySorted_app_l {A} (R : A -> A -> Prop) (l1 l2 : list A) :
  StronglySorted R (l1 ++ l2) -> StronglySorted R l1.
Proof.
  induction l1 as [|a l1 IH]; intros H; [constructor|].
  cbn [app] in H. apply StronglySorted_inv in H as [H1 H2].
  constructor; [by apply IH|]. apply Forall_app in H2. tauto.
Qed.

(** The ten first of a list sorted in descending order of [key]. *)
Lemma top_of_sort_desc {A} (key : A -> nat) (n : nat) (l : list A) :
  let top := take n (sort_desc key l) in
  length top = Nat.min n (length l)
  /\ StronglySorted (fun x y => key y <= key x) top
  /\ (forall x, x ∈ top -> x ∈ l)
  /\ (forall x y, x ∈ top -> y ∈ l -> y ∉ top -> key y <= key x).
Proof.
  intros top. subst top.
  pose proof (sort_desc_sorted key l) as Hsorted.
  rewrite <- (take_drop n (sort_desc key l)) in Hsorted.
  split; [by rewrite length_take, (Permutation_length (sort_desc_perm key l))|].
  split; [by eapply StronglySorted_app_l|].
  split.
  - intros x Hx. apply (elem_of_sort_desc key). by eapply subseteq_take.
  - intros x y Hx Hy Hny.
    apply (elem_of_sort_desc key) in Hy.
    rewrite <- (take_drop n (sort_desc key l)), elem_of_app in Hy.
    destruct Hy as [Hy|Hy]; [done|].
    by apply (StronglySorted_app_between _ _ _ Hsorted).
Qed.

(** X24.  A whole run: the dictionary of [analyze_emails] is given to
    [categorize_senders] and the auto-clean choice is confirmed with
    [yes].  One trash request is sent for each message kept by the three
    loops, in their order; no id is sent twice; every message sent is a
    message of the input; their number is at most the number announced
    before the question; and the two counts returned add up to it. *)
Theorem auto_clean_after_analysis :
  (forall (P : Type) (serve : P -> string -> string -> P * result unit)
          utcnow strptime (input : list Gmail.email) (answer : string)
          (w : Eff.world P),
     Py.lower (Py.strip answer) = "yes" ->
     exists d, Gmail.analyze_emails input = Ok d /\
       let cats := Gmail.categorize_senders utcnow strptime d in
       let all_emails := Gmail.auto_clean_emails cats in
       exists w' success failed,
         Gmail.auto_clean serve cats answer w = (w', Ok (Some (success, failed)))
         /\ success + failed = length all_emails
         /\ length all_emails <= Gmail.total_to_clean cats
         /\ NoDup (map Gmail.id all_emails)
         /\ (forall e, e ∈ all_emails -> e ∈ input)
         /\ Eff.requests (Eff.log w')
            = Eff.requests (Eff.log w)
              ++ map (fun e => ("trash", Gmail.id e)) all_emails)
  /\
  (forall (P : Type) (serve : P -> string -> string -> P * result nat)
          utcnow fromisoformat (input : list Outlook.email) (answer : string)
          (w : Eff.world P),
     Py.lower (Py.strip answer) = "yes" ->
     exists d, Outlook.analyze_emails input = Ok d /\
       let cats := Outlook.categorize_senders utcnow fromisoformat d in
       let all_emails := Outlook.auto_clean_emails cats in
       exists w' success failed,
         Outlook.auto_clean serve cats answer w = (w', Ok (Some (success, failed)))
         /\ success + failed = length all_emails
         /\ length all_emails <= Outlook.total_to_clean cats
         /\ NoDup (map Outlook.id all_emails)
         /\ (forall e, e ∈ all_emails -> e ∈ input)
         /\ Eff.requests (Eff.log w')
            = Eff.requests (Eff.log w)
              ++ map (fun e => ("POST", Outlook.GRAPH_ENDPOINT +:+ "/me/messages/"
                                        +:+ Outlook.id e +:+ "/move")) all_emails).
Proof.
  split.
  - intros P serve utcnow parser input answer w Hyes.
    destruct (gmail_analyze_emails_analyzed input) as (d & Hrun & _).
    exists d. split; [exact Hrun|]. intros cats all_emails.
    destruct (gmail_auto_clean_confirmed serve cats answer w Hyes)
      as (w' & Hclean & Hlog).
    cbn zeta in Hclean, Hlog. fold all_emails in Hclean, Hlog.
    eexists w', _, _. split; [exact Hclean|].
    split.
    { rewrite count_true_split, length_answers.
      unfold Gmail.expected_requests. by rewrite length_map. }
    subst all_emails. unfold Gmail.auto_clean_emails. rewrite resolve_encountered.
    split.
    { subst cats. rewrite (gmail_total_to_clean utcnow parser input d Hrun).
      apply sublist_length, resolve_list_sublist. }
    split; [apply resolve_list_NoDup|].
    split; [|unfold Gmail.auto_clean_emails in Hlog;
             rewrite resolve_encountered in Hlog; exact Hlog].
    intros e He. eapply elem_of_sublist in He; [|apply resolve_list_sublist].
    unfold Resolver.encountered in He.
    apply elem_of_concat_map in He as (cat & Hcat & He).
    apply elem_of_concat_map in He as (kv & Hkv & He).
    by eapply (gmail_category_entry utcnow parser input d cat kv).
  - intros P serve utcnow parser input answer w Hyes.
    destruct (outlook_analyze_emails_analyzed input) as (d & Hrun & _).
    exists d. split; [exact Hrun|]. intros cats all_emails.
    destruct (outlook_auto_clean_confirmed serve cats answer w Hyes)
      as (w' & Hclean & Hlog).
    cbn zeta in Hclean, Hlog. fold all_emails in Hclean, Hlog.
    eexists w', _, _. split; [exact Hclean|].
    split.
    { rewrite count_true_split, length_answers.
      unfold Outlook.expected_requests. by rewrite length_map. }
    subst all_emails. unfold Outlook.auto_clean_emails. rewrite resolve_encountered.
    split.
    { subst cats. rewrite (outlook_total_to_clean utcnow parser input d Hrun).
      apply sublist_length, resolve_list_sublist. }
    split; [apply resolve_list_NoDup|].
    split; [|unfold Outlook.auto_clean_emails in Hlog;
             rewrite resolve_encountered in Hlog; exact Hlog].
    intros e He. eapply elem_of_sublist in He; [|apply resolve_list_sublist].
    unfold Resolver.encountered in He.
    apply elem_of_concat_map in He as (cat & Hcat & He).
    apply elem_of_concat_map in He as (kv & Hkv & He).
    by eapply (outlook_category_entry utcnow parser input d cat kv).
Qed.

Lemma auto_clean_after_analysis_witness :
  let serve (p : nat) (_ _ : string) : nat * result unit :=
    (S p, if p =? 1 then Raise (ProviderError 500) else Ok tt) in
  let strptime (_ _ : string) : result datetime := Raise ValueError in
  let e i := {| Gmail.id := i; Gmail.threadId := None;
                Gmail.from := "Shop <news@shop.example>";
                Gmail.subject := "Sale"; Gmail.date := ""; Gmail.snippet := "";
                Gmail.labelIds := ["CATEGORY_PROMOTIONS"; "UNREAD"];
                Gmail.isRead := false |} in
  let input := [e "1"; e "2"; e "3"; e "4"; e "5"] in
  let w := {| Eff.remote := 0; Eff.log := [] |} in
  Py.lower (Py.strip " Yes ") = "yes"
  /\ exists d w' success failed,
       Gmail.analyze_emails input = Ok d
       /\ Gmail.auto_clean serve (Gmail.categorize_senders 0 strptime d) " Yes " w
          = (w', Ok (Some (success, failed)))
       /\ success + failed
          = length (Gmail.auto_clean_emails (Gmail.categorize_senders 0 strptime d)).
Proof.
  intros serve strptime e input w.
  assert (Hyes : Py.lower (Py.strip " Yes ") = "yes") by reflexivity.
  split; [exact Hyes|].
  destruct (proj1 auto_clean_after_analysis nat serve 0%Z strptime input " Yes " w Hyes)
    as (d & Hd & w' & success & failed & Hclean & Hsum & _).
  exists d, w', success, failed. auto.
Defined.

Example auto_clean_after_analysis_example :
  let serve (p : nat) (_ _ : string) : nat * result unit :=
    (S p, if p =? 1 then Raise (ProviderError 500) else Ok tt) in
  let strptime (_ _ : string) : result datetime := Raise ValueError in
  let e i := {| Gmail.id := i; Gmail.threadId := None;
                Gmail.from := "Shop <news@shop.example>";
                Gmail.subject := "Sale"; Gmail.date := ""; Gmail.snippet := "";
                Gmail.labelIds := ["CATEGORY_PROMOTIONS"; "UNREAD"];
                Gmail.isRead := false |} in
  let input := [e "1"; e "2"; e "3"; e "4"; e "5"] in
  exists d,
    Gmail.analyze_emails input = Ok d
    /\ Gmail.total_to_clean (Gmail.categorize_senders 0 strptime d) = 10
    /\ (Gmail.auto_clean serve (Gmail.categorize_senders 0 strptime d) "yes"
          {| Eff.remote := 0; Eff.log := [] |}).2
       = Ok (Some (4, 1)).
Proof. eexists. split; [reflexivity|]. split; vm_compute; reflexivity. Qed.

(** X25.  The statistics choice on the dictionary of [analyze_emails]: the
    total printed is the number of messages analysed, the unread total the
    number of those that are not read, and the number of senders the number
    of distinct sender addresses.  The senders shown are the first ten (or
    all, if fewer) entries of the dictionary in descending order of their
    count: no entry left out has more messages than one that is shown. *)
Theorem statistics_after_analysis :
  (forall input : list Gmail.email, exists d top,
     Gmail.analyze_emails input = Ok d
     /\ Gmail.statistics d
        = (length input, count_true (fun e => negb (Gmail.isRead e)) input,
           length (remove_dups (map Gmail.addr_of input)), top)
     /\ length top = Nat.min 10 (length d)
     /\ StronglySorted (fun x y => Gmail.total y.2 <= Gmail.total x.2) top
     /\ (forall x, x ∈ top -> x ∈ d)
     /\ (forall x y, x ∈ top -> y ∈ d -> y ∉ top ->
           Gmail.total y.2 <= Gmail.total x.2))
  /\
  (forall input : list Outlook.email, exists d top,
     Outlook.analyze_emails input = Ok d
     /\ Outlook.statistics d
        = (length input, count_true (fun e => negb (Outlook.isRead e)) input,
           length (remove_dups (map Outlook.addr_of input)), top)
     /\ length top = Nat.min 10 (length d)
     /\ StronglySorted (fun x y => Outlook.total y.2 <= Outlook.total x.2) top
     /\ (forall x, x ∈ top -> x ∈ d)
     /\ (forall x y, x ∈ top -> y ∈ d -> y ∉ top ->
           Outlook.total y.2 <= Outlook.total x.2)).
Proof.
  split; intros input.
  - destruct (gmail_analyze_emails_analyzed input) as (d & Hrun & _).
    destruct (gmail_statistics_counts input d Hrun) as (Ht & Hu & Hn).
    exists d, (take 10 (sort_desc (fun x => Gmail.total x.2) d)).
    split; [exact Hrun|].
    split; [unfold Gmail.statistics; by rewrite Ht, Hu, Hn|].
    apply (top_of_sort_desc (fun x => Gmail.total x.2) 10 d).
  - destruct (outlook_analyze_emails_analyzed input) as (d & Hrun & _).
    destruct (outlook_statistics_counts input d Hrun) as (Ht & Hu & Hn).
    exists d, (take 10 (sort_desc (fun x => Outlook.total x.2) d)).
    split; [exact Hrun|].
    split; [unfold Outlook.statistics; by rewrite Ht, Hu, Hn|].
    apply (top_of_sort_desc (fun x => Outlook.total x.2) 10 d).
Qed.

Example statistics_example :
  let e i a r := {| Outlook.id := i; Outlook.subject := None;
                    Outlook.from :=
                      Some {| Outlook.emailAddress :=
                                Some {| Outlook.address := Some a;
                                        Outlook.name_ := None |} |};
                    Outlook.receivedDateTime := ""; Outlook.isRead := r;
                    Outlook.bodyPreview := None |} in
  exists d top,
    Outlook.analyze_emails [e "1" "A@x.org" true; e "2" "b@x.org" false;
                            e "3" "a@X.org" false] = Ok d
    /\ Outlook.statistics d = (3, 2, 2, top)
    /\ map fst top = ["a@x.org"; "b@x.org"].
Proof. eexists _, _. split; [reflexivity|]. split; reflexivity. Qed.

(** ** Progress lines and pauses of a batch *)

Section BatchLogFacts.
Import Eff.
Context {P : Type}.

Lemma progress_and_pause_log (b1 b2 : bool) ev1 ev2 (w : world P) (x : nat * nat) :
  (when b1 (emit ev1);; when b2 (emit ev2);; mret x) w
  = ({| remote := remote w;
        log := log w ++ (if b1 then [ev1] else []) ++ (if b2 then [ev2] else []) |},
     Ok x).
Proof.
  destruct w as [p l].
  destruct b1, b2; unfold when, emit, mbind, M_bind, mret, M_ret; cbn [remote log app];
    rewrite <- ?app_assoc, ?app_nil_r; reflexivity.
Qed.

Lemma sleeps_app (l1 l2 : list event) : sleeps (l1 ++ l2) = sleeps l1 ++ sleeps l2.
Proof. apply omap_app. Qed.

Lemma progress_app (l1 l2 : list event) : progress (l1 ++ l2) = progress l1 ++ progress l2.
Proof. apply omap_app. Qed.

(** What the log of a batch is made of, for the turns [i] to [i + n - 1]:
    pauses of one second, progress lines at the multiples of 50 whose
    counts add up to the position, and no more of either than there are
    multiples of 100 and of 50 among the positions. *)
Local Notation batch_log count i n new :=
  ((forall s, Sleep s ∈ new -> s = 1)
   /\ (forall done cnt success failed, Progress done cnt success failed ∈ new ->
         cnt = count /\ done mod 50 = 0 /\ i < done <= i + n /\ success + failed = done)
   /\ length (sleeps new) + i / 100 <= (i + n) / 100
   /\ length (progress new) + i / 50 <= (i + n) / 50).

Lemma batch_log_nil (count i : nat) : batch_log count i 0 (@nil event).
Proof.
  split; [by intros s []%elem_of_nil|]. split; [by intros ? ? ? ? []%elem_of_nil|].
  rewrite Nat.add_0_r. cbn. lia.
Qed.

Lemma div_succ (k i : nat) :
  0 < k -> (i + 1) / k = i / k + (if (i + 1) mod k =? 0 then 1 else 0).
Proof.
  intros Hk.
  pose proof (Nat.div_mod_eq i k) as H1.
  pose proof (Nat.mod_upper_bound i k ltac:(lia)) as H2.
  pose proof (Nat.div_mod_eq (i + 1) k) as H3.
  pose proof (Nat.mod_upper_bound (i + 1) k ltac:(lia)) as H4.
  destruct (Nat.eqb_spec ((i + 1) mod k) 0) as [H|H]; nia.
Qed.

Lemma batch_log_turn (count i n success failed : nat) (quiet : bool) v u
    (new : list event) :
  success + failed = i + 1 ->
  batch_log count (i + 1) n new ->
  batch_log count i (S n)
    (Request v u
     :: (if quiet
         then (if (i + 1) mod 50 =? 0
               then [Progress (i + 1) count success failed] else [])
              ++ (if (i + 1) mod 100 =? 0 then [Sleep 1] else [])
         else [])
     ++ new).
Proof.
  intros Hsum (Hs & Hp & Hns & Hnp).
  pose proof (div_succ 50 i ltac:(lia)) as D50.
  pose proof (div_succ 100 i ltac:(lia)) as D100.
  replace (i + S n) with (i + 1 + n) by lia.
  destruct (Nat.eqb_spec ((i + 1) mod 50) 0) as [H50|H50];
    destruct (Nat.eqb_spec ((i + 1) mod 100) 0) as [H100|H100];
    destruct quiet; cbn [app sleeps progress omap list_omap length];
    fold (sleeps new); fold (progress new);
    (split; [intros s Hin; set_unfold in Hin; destruct_or?; simplify_eq; auto|]);
    (split; [intros done cnt s f Hin; set_unfold in Hin; destruct_or?; simplify_eq;
             [..|destruct (Hp _ _ _ _ Hin) as (? & ? & ? & ?); repeat split; lia];
             repeat split; auto; lia|]);
    lia.
Qed.

Lemma batch_log_turn_quiet (count i n success failed : nat) v u (new : list event) :
  length (sleeps new) + (i + 1) / 100 = (i + 1 + n) / 100
  /\ length (progress new) + (i + 1) / 50 = (i + 1 + n) / 50 ->
  let turn := Request v u
              :: ((if (i + 1) mod 50 =? 0
                   then [Progress (i + 1) count success failed] else [])
                  ++ (if (i + 1) mod 100 =? 0 then [Sleep 1] else []))
              ++ new in
  length (sleeps turn) + i / 100 = (i + S n) / 100
  /\ length (progress turn) + i / 50 = (i + S n) / 50.
Proof.
  intros [Hns Hnp] turn. subst turn.
  pose proof (div_succ 50 i ltac:(lia)) as D50.
  pose proof (div_succ 100 i ltac:(lia)) as D100.
  replace (i + S n) with (i + 1 + n) by lia.
  destruct (Nat.eqb_spec ((i + 1) mod 50) 0) as [H50|H50];
    destruct (Nat.eqb_spec ((i + 1) mod 100) 0) as [H100|H100];
    cbn [app sleeps progress omap list_omap length];
    fold (sleeps new); fold (progress new); lia.
Qed.

Section Gmail.
Import Gmail.
Variable serve : P -> string -> string -> P * result unit.

(** One turn of the Gmail loop, with its log: a request that raises is
    followed by no progress line and no pause. *)
Lemma gmail_delete_email_log count (to_trash : bool) success failed i e
    (w : world P) p' r :
  let verb := if to_trash then "trash" else "delete" in
  serve (remote w) verb (id e) = (p', r) ->
  delete_email serve count to_trash (success, failed) i e w
  = ({| remote := p';
        log := log w
               ++ Request verb (id e)
                  :: (if succeeded r
                      then (if (i + 1) mod 50 =? 0
                            then [Progress (i + 1) count (success + 1) failed]
                            else [])
                           ++ (if (i + 1) mod 100 =? 0 then [Sleep 1] else [])
                      else []) |},
     Ok (if succeeded r then (success + 1, failed) else (success, failed + 1))).
Proof.
  intros verb Hs. unfold delete_email, try_catch.
  set (w1 := {| remote := p'; log := log w ++ [Request verb (id e)] |}).
  assert (Hcall : (if to_trash then call serve "trash" (id e)
                   else call serve "delete" (id e)) w = (w1, r)).
  { subst verb w1. destruct to_trash; unfold call; rewrite Hs; reflexivity. }
  unfold mbind at 1, M_bind at 1. rewrite Hcall.
  destruct r as [[]|err]; cbn [succeeded].
  - rewrite progress_and_pause_log. subst w1. cbn [remote log].
    by rewrite <- app_assoc.
  - reflexivity.
Qed.

Lemma gmail_delete_from_log count to_trash emails :
  forall success failed i (w : world P),
  success + failed = i ->
  exists w' counts new,
    delete_from serve count to_trash (success, failed) i emails w = (w', Ok counts)
    /\ log w' = log w ++ new
    /\ batch_log count i (length emails) new
    /\ ((forall err, Raise err ∉ answers serve (remote w)
                                   (expected_requests emails to_trash)) ->
        length (sleeps new) + i / 100 = (i + length emails) / 100
        /\ length (progress new) + i / 50 = (i + length emails) / 50).
Proof.
  induction emails as [|e rest IH]; intros success failed i w Hsum;
    cbn [delete_from expected_requests map answers length].
  - exists w, (success, failed), []. rewrite app_nil_r.
    split; [reflexivity|]. split; [reflexivity|]. split; [apply batch_log_nil|].
    intros _. rewrite Nat.add_0_r. cbn. lia.
  - destruct (serve (remote w) (if to_trash then "trash" else "delete") (id e))
      as [p' r] eqn:Hs.
    pose proof (gmail_delete_email_log count to_trash success failed i e w p' r Hs)
      as Hstep.
    unfold mbind at 1, M_bind at 1. rewrite Hstep. clear Hstep.
    set (w1 := {| remote := p'; log := _ |}).
    destruct (succeeded r) eqn:Hr.
    + destruct (IH (success + 1) failed (i + 1) w1 ltac:(lia))
        as (w' & counts & new & Hrun & Hlog & Hinv & Hquiet).
      exists w', counts, (Request (if to_trash then "trash" else "delete") (id e)
                          :: ((if (i + 1) mod 50 =? 0
                               then [Progress (i + 1) count (success + 1) failed]
                               else [])
                              ++ (if (i + 1) mod 100 =? 0 then [Sleep 1] else []))
                          ++ new).
      split; [exact Hrun|].
      split; [rewrite Hlog; subst w1; cbn [log]; by rewrite <- app_assoc|].
      split.
      * apply (batch_log_turn count i (length rest) (success + 1) failed true);
          [lia|exact Hinv].
      * intros Hno. apply batch_log_turn_quiet. apply Hquiet.
        intros err Hin. apply (Hno err). by right.
    + destruct (IH success (failed + 1) (i + 1) w1 ltac:(lia))
        as (w' & counts & new & Hrun & Hlog & Hinv & Hquiet).
      exists w', counts, (Request (if to_trash then "trash" else "delete") (id e)
                          :: [] ++ new).
      split; [exact Hrun|].
      split; [rewrite Hlog; subst w1; cbn [log]; by rewrite <- app_assoc|].
      split.
      * apply (batch_log_turn count i (length rest) success (failed + 1) false);
          [lia|exact Hinv].
      * intros Hno. exfalso. destruct r as [[]|err]; [discriminate|].
        apply (Hno err). left.
Qed.

End Gmail.

Section Outlook.
Import Outlook.
Variable serve : P -> string -> string -> P * result nat.

(** One turn of the Outlook loop, with its log: an answer with an error
    status counts as a failure and is followed by the progress line and the
    pause of its position; a request that raises is followed by neither. *)
Lemma outlook_delete_email_log count (to_trash : bool) success failed i e
    (w : world P) p' r :
  let req :=
    if to_trash
    then ("POST", GRAPH_ENDPOINT +:+ "/me/messages/" +:+ id e +:+ "/move")
    else ("DELETE", GRAPH_ENDPOINT +:+ "/me/messages/" +:+ id e) in
  let counts' := if succeeded to_trash r then (success + 1, failed)
                 else (success, failed + 1) in
  serve (remote w) req.1 req.2 = (p', r) ->
  delete_email serve count to_trash (success, failed) i e w
  = ({| remote := p';
        log := log w
               ++ Request req.1 req.2
                  :: (if match r with Ok _ => true | Raise _ => false end
                      then (if (i + 1) mod 50 =? 0
                            then [Progress (i + 1) count counts'.1 counts'.2]
                            else [])
                           ++ (if (i + 1) mod 100 =? 0 then [Sleep 1] else [])
                      else []) |},
     Ok counts').
Proof.
  intros req counts' Hs.
  set (w1 := {| remote := p'; log := log w ++ [Request req.1 req.2] |}).
  assert (Hcall : call serve req.1 req.2 w = (w1, r)).
  { unfold call. rewrite Hs. reflexivity. }
  unfold delete_email. subst req counts'.
  destruct to_trash; cbn [fst snd] in *;
    (destruct r as [status_code|err];
     [ apply try_catch_ok;
       (eapply eq_trans;
        [eapply bind_ok; eapply eq_trans; [eapply bind_ok; exact Hcall|reflexivity]|]);
       cbn [succeeded]; destruct (status_code =? _);
       rewrite progress_and_pause_log; subst w1; cbn [remote log fst snd];
       by rewrite <- app_assoc
     | eapply eq_trans; [eapply try_catch_raise|reflexivity];
       apply bind_raise; apply bind_raise; exact Hcall ]).
Qed.

Lemma outlook_delete_from_log count to_trash emails :
  forall success failed i (w : world P),
  success + failed = i ->
  exists w' counts new,
    delete_from serve count to_trash (success, failed) i emails w = (w', Ok counts)
    /\ log w' = log w ++ new
    /\ batch_log count i (length emails) new
    /\ ((forall err, Raise err ∉ answers serve (remote w)
                                   (expected_requests emails to_trash)) ->
        length (sleeps new) + i / 100 = (i + length emails) / 100
        /\ length (progress new) + i / 50 = (i + length emails) / 50).
Proof.
  induction emails as [|e rest IH]; intros success failed i w Hsum;
    cbn [delete_from expected_requests map answers length].
  - exists w, (success, failed), []. rewrite app_nil_r.
    split; [reflexivity|]. split; [reflexivity|]. split; [apply batch_log_nil|].
    intros _. rewrite Nat.add_0_r. cbn. lia.
  - set (req := if to_trash
                then ("POST", GRAPH_ENDPOINT +:+ "/me/messages/" +:+ id e +:+ "/move")
                else ("DELETE", GRAPH_ENDPOINT +:+ "/me/messages/" +:+ id e)).
    destruct req as [verb url] eqn:Hreq0.
    destruct (serve (remote w) verb url) as [p' r] eqn:Hs.
    pose proof (outlook_delete_email_log count to_trash success failed i e w p' r)
      as Hstep.
    cbn zeta in Hstep. fold req in Hstep. rewrite Hreq0 in Hstep.
    specialize (Hstep Hs). cbn [fst snd] in Hstep.
    unfold mbind at 1, M_bind at 1. rewrite Hstep. clear Hstep.
    set (w1 := {| remote := p'; log := _ |}).
    set (counts' := if succeeded to_trash r then (success + 1, failed)
                    else (success, failed + 1)) in *.
    assert (Hsum' : counts'.1 + counts'.2 = i + 1).
    { subst counts'. destruct (succeeded to_trash r); cbn [fst snd]; lia. }
    destruct counts' as [success' failed'] eqn:Hc. cbn [fst snd] in *.
    destruct (IH success' failed' (i + 1) w1 Hsum')
      as (w' & counts & new & Hrun & Hlog & Hinv & Hquiet).
    exists w', counts,
      (Request verb url
       :: (if match r with Ok _ => true | Raise _ => false end
           then (if (i + 1) mod 50 =? 0
                 then [Progress (i + 1) count success' failed'] else [])
                ++ (if (i + 1) mod 100 =? 0 then [Sleep 1] else [])
           else [])
       ++ new).
    split; [exact Hrun|].
    split; [rewrite Hlog; subst w1; cbn [log]; by rewrite <- app_assoc|].
    split.
    + by apply (batch_log_turn count i (length rest) success' failed').
    + intros Hno. destruct r as [status_code|err].
      * apply batch_log_turn_quiet. apply Hquiet.
        intros err Hin. apply (Hno err). by right.
      * exfalso. apply (Hno err). left.
Qed.

End Outlook.

End BatchLogFacts.

(** X26.  The log of [delete_emails_batch].  Whatever the provider
    answers, the batch returns, and what it adds to the log holds, besides
    the requests: pauses of one second only, at most one for every 100
    messages; and progress lines, at most one for every 50 messages, each
    at a position that is a multiple of 50, with the number of messages of
    the batch and two counts that add up to the position.  When no request
    raises there are exactly [len(emails) // 100] pauses and
    [len(emails) // 50] progress lines (on Outlook an answer with an error
    status does not raise). *)
Theorem delete_emails_batch_progress_and_pauses :
  (forall (P : Type) (serve : P -> string -> string -> P * result unit)
          (emails : list Gmail.email) (to_trash : bool) (w : Eff.world P),
     exists w' counts new,
       Gmail.delete_emails_batch serve emails to_trash w = (w', Ok counts)
       /\ Eff.log w' = Eff.log w ++ new
       /\ (forall s, Eff.Sleep s ∈ new -> s = 1)
       /\ (forall done count success failed,
             Eff.Progress done count success failed ∈ new ->
             count = length emails /\ done mod 50 = 0 /\ 0 < done <= count
             /\ success + failed = done)
       /\ length (Eff.sleeps new) <= length emails / 100
       /\ length (Eff.progress new) <= length emails / 50
       /\ ((forall err, Raise err ∉ Eff.answers serve (Eff.remote w)
                                      (Gmail.expected_requests emails to_trash)) ->
           length (Eff.sleeps new) = length emails / 100
           /\ length (Eff.progress new) = length emails / 50))
  /\
  (forall (P : Type) (serve : P -> string -> string -> P * result nat)
          (emails : list Outlook.email) (to_trash : bool) (w : Eff.world P),
     exists w' counts new,
       Outlook.delete_emails_batch serve emails to_trash w = (w', Ok counts)
       /\ Eff.log w' = Eff.log w ++ new
       /\ (forall s, Eff.Sleep s ∈ new -> s = 1)
       /\ (forall done count success failed,
             Eff.Progress done count success failed ∈ new ->
             count = length emails /\ done mod 50 = 0 /\ 0 < done <= count
             /\ success + failed = done)
       /\ length (Eff.sleeps new) <= length emails / 100
       /\ length (Eff.progress new) <= length emails / 50
       /\ ((forall err, Raise err ∉ Eff.answers serve (Eff.remote w)
                                      (Outlook.expected_requests emails to_trash)) ->
           length (Eff.sleeps new) = length emails / 100
           /\ length (Eff.progress new) = length emails / 50)).
Proof.
  split; intros P serve emails to_trash w.
  - destruct (gmail_delete_from_log serve (length emails) to_trash emails 0 0 0 w eq_refl)
      as (w' & counts & new & Hrun & Hlog & (Hs & Hp & Hns & Hnp) & Hq).
    change (0 / 100) with 0 in *. change (0 / 50) with 0 in *.
    change (0 + length emails) with (length emails) in *.
    exists w', counts, new. split; [exact Hrun|]. split; [exact Hlog|].
    split; [exact Hs|]. split.
    { intros done count success failed Hin.
      destruct (Hp _ _ _ _ Hin) as (-> & ? & ? & ?). repeat split; lia. }
    split; [lia|]. split; [lia|].
    intros Hno. destruct (Hq Hno). lia.
  - destruct (outlook_delete_from_log serve (length emails) to_trash emails 0 0 0 w eq_refl)
      as (w' & counts & new & Hrun & Hlog & (Hs & Hp & Hns & Hnp) & Hq).
    change (0 / 100) with 0 in *. change (0 / 50) with 0 in *.
    change (0 + length emails) with (length emails) in *.
    exists w', counts, new. split; [exact Hrun|]. split; [exact Hlog|].
    split; [exact Hs|]. split.
    { intros done count success failed Hin.
      destruct (Hp _ _ _ _ Hin) as (-> & ? & ? & ?). repeat split; lia. }
    split; [lia|]. split; [lia|].
    intros Hno. destruct (Hq Hno). lia.
Qed.

(** A batch of 120 messages whose 100th request is answered with the
    status 404 and whose 50th request raises: the 100th message is
    followed by its progress line and its pause, the 50th by neither. *)
Example outlook_batch_of_120 :
  let serve (p : nat) (_ _ : string) : nat * result nat :=
    (S p, if p =? 99 then Ok 404
          else if p =? 49 then Raise (ProviderError 0) else Ok 201) in
  let e (n : nat) := {| Outlook.id := pretty n; Outlook.subject := None;
                        Outlook.from := None; Outlook.receivedDateTime := "";
                        Outlook.isRead := false; Outlook.bodyPreview := None |} in
  let run := Outlook.delete_emails_batch serve (map e (seq 0 120)) true
               {| Eff.remote := 0; Eff.log := [] |} in
  run.2 = Ok (118, 2)
  /\ Eff.sleeps (Eff.log run.1) = [1]
  /\ Eff.progress (Eff.log run.1) = [(100, 120, 98, 2)].
Proof. vm_compute. repeat split. Qed.
